(** * GoogleDriveNotes: the secure-storage core and the upload retry loop

    A shallow embedding of [encryption.py], of [_store_password],
    [_prompt_password] and the note functions of [functions.py] and of
    [_upload_file] from [gdrive.py], with the properties of the written
    specification stated over it, followed by further properties read off
    the code.

    Python values are modelled as follows.
    - [bytes] is a list of [byte]; [str] is a list of Unicode code points
      ([N]), so that [len] counts characters, not encoded bytes.
    - The file system is a finite map from paths to file contents.
    - A call is a function from the world before it to an outcome (a
      returned value or a raised exception) and the world after it.
    - The [cryptography] and [hashlib] primitives (Fernet, SHA-256,
      PBKDF2) are operations of an interface; what the proofs need from
      them is stated as laws of that interface.
    - The environment is a POSIX system with a UTF-8 locale (text files are
      written as UTF-8, newlines are not translated); reading a file that
      does not exist raises, writing a file succeeds.
    - Random bytes, random numbers, the clock and the answers of the remote
      service are inputs: every statement holds for all of them. *)

From Stdlib Require Import NArith ZArith Lia List QArith.
From Stdlib Require Import Strings.Byte Strings.String Strings.Ascii.
From stdpp Require Import gmap strings list.

Set Warnings "-register-all,-clear-no-such-hyp".

Local Open Scope N_scope.

(** ** Bytes and strings *)

Abbreviation bytes := (list byte).
Abbreviation str := (list N).

(** A string literal of the source, as a [str]. *)
Definition lit (s : string) : str :=
  (fun a => N_of_ascii a) <$> list_ascii_of_string s.

(** A bytes literal of the source ([b'...']). *)
Definition blit (s : string) : bytes := list_byte_of_string s.

Definition byte_of_N (n : N) : byte := default x00 (Byte.of_N n).

#[export] Instance byte_eq_decision : EqDecision byte :=
  fun x y =>
    match Byte.eqb x y as b return Byte.eqb x y = b -> Decision (x = y) with
    | true => fun E => left (Byte.byte_dec_bl x y E)
    | false => fun E => right (Byte.eqb_false E)
    end eq_refl.

(** [bytes.decode('ascii')] on bytes known to be ASCII, and the code points
    of any byte string read as Latin-1. *)
Definition str_of_bytes (b : bytes) : str := Byte.to_N <$> b.

(** *** Hexadecimal ([binascii.hexlify], [hexdigest]) *)

Definition hexdigit (n : N) : byte :=
  if n <? 10 then byte_of_N (48 + n) else byte_of_N (87 + n).

Definition hexlify (b : bytes) : bytes :=
  flat_map (fun x => [hexdigit (Byte.to_N x / 16); hexdigit (Byte.to_N x mod 16)]) b.

(** *** URL-safe base64 ([base64.urlsafe_b64encode]) *)

Definition b64_alphabet : bytes :=
  blit "ABCDEFGHIJKLMNOPQRSTUVWXYZabcdefghijklmnopqrstuvwxyz0123456789-_".

Definition b64_char (n : N) : byte := nth (N.to_nat n) b64_alphabet x00.

Definition b64_pad : byte := "="%byte.

Fixpoint urlsafe_b64encode (l : bytes) : bytes :=
  match l with
  | [] => []
  | [a] =>
      let a := Byte.to_N a in
      [b64_char (a / 4); b64_char ((a mod 4) * 16); b64_pad; b64_pad]
  | [a; b] =>
      let a := Byte.to_N a in
      let b := Byte.to_N b in
      [b64_char (a / 4); b64_char ((a mod 4) * 16 + b / 16);
       b64_char ((b mod 16) * 4); b64_pad]
  | a :: b :: c :: rest =>
      let a := Byte.to_N a in
      let b := Byte.to_N b in
      let c := Byte.to_N c in
      b64_char (a / 4) :: b64_char ((a mod 4) * 16 + b / 16)
        :: b64_char ((b mod 16) * 4 + c / 64) :: b64_char (c mod 64)
        :: urlsafe_b64encode rest
  end.

(** *** UTF-8 and ASCII codecs ([str.encode], [bytes.decode])

    Both directions are strict, as Python's are by default: encoding a lone
    surrogate or a non-ASCII character to ASCII, and decoding an ill-formed
    sequence, raise; [None] stands for the exception. *)

Definition utf8_encode_char (c : N) : option bytes :=
  if c <? 0x80 then Some [byte_of_N c]
  else if c <? 0x800 then
    Some [byte_of_N (0xC0 + c / 64); byte_of_N (0x80 + c mod 64)]
  else if c <? 0x10000 then
    if (0xD800 <=? c) && (c <=? 0xDFFF) then None
    else Some [byte_of_N (0xE0 + c / 4096);
               byte_of_N (0x80 + (c / 64) mod 64);
               byte_of_N (0x80 + c mod 64)]
  else if c <? 0x110000 then
    Some [byte_of_N (0xF0 + c / 262144);
          byte_of_N (0x80 + (c / 4096) mod 64);
          byte_of_N (0x80 + (c / 64) mod 64);
          byte_of_N (0x80 + c mod 64)]
  else None.

Fixpoint encode_utf8 (s : str) : option bytes :=
  match s with
  | [] => Some []
  | c :: s' =>
      match utf8_encode_char c, encode_utf8 s' with
      | Some b, Some bs => Some (b ++ bs)
      | _, _ => None
      end
  end.

Fixpoint encode_ascii (s : str) : option bytes :=
  match s with
  | [] => Some []
  | c :: s' =>
      if c <? 0x80 then
        match encode_ascii s' with
        | Some bs => Some (byte_of_N c :: bs)
        | None => None
        end
      else None
  end.

Definition is_cont (b : N) : bool := (0x80 <=? b) && (b <=? 0xBF).

Fixpoint decode_utf8 (l : bytes) : option str :=
  match l with
  | [] => Some []
  | b1 :: l1 =>
      let n1 := Byte.to_N b1 in
      if n1 <? 0x80 then cons n1 <$> decode_utf8 l1
      else if n1 <? 0xC2 then None
      else
        match l1 with
        | [] => None
        | b2 :: l2 =>
            let n2 := Byte.to_N b2 in
            if n1 <? 0xE0 then
              if is_cont n2
              then cons ((n1 - 0xC0) * 64 + (n2 - 0x80)) <$> decode_utf8 l2
              else None
            else
              match l2 with
              | [] => None
              | b3 :: l3 =>
                  let n3 := Byte.to_N b3 in
                  if n1 <? 0xF0 then
                    if is_cont n2 && is_cont n3
                       && negb ((n1 =? 0xE0) && (n2 <? 0xA0))
                       && negb ((n1 =? 0xED) && (0xA0 <=? n2))
                    then cons ((n1 - 0xE0) * 4096 + (n2 - 0x80) * 64 + (n3 - 0x80))
                           <$> decode_utf8 l3
                    else None
                  else
                    match l3 with
                    | [] => None
                    | b4 :: l4 =>
                        let n4 := Byte.to_N b4 in
                        if (n1 <? 0xF5) && is_cont n2 && is_cont n3 && is_cont n4
                           && negb ((n1 =? 0xF0) && (n2 <? 0x90))
                           && negb ((n1 =? 0xF4) && (0x90 <=? n2))
                        then cons ((n1 - 0xF0) * 262144 + (n2 - 0x80) * 4096
                                   + (n3 - 0x80) * 64 + (n4 - 0x80))
                               <$> decode_utf8 l4
                        else None
                    end
              end
        end
  end.

(** *** [str.rstrip] and [str.split] *)

(** [str.isspace] on one character: the code points Python treats as
    whitespace. *)
Definition py_isspace (c : N) : bool :=
  ((0x09 <=? c) && (c <=? 0x0D)) || ((0x1C <=? c) && (c <=? 0x20))
  || (c =? 0x85) || (c =? 0xA0) || (c =? 0x1680)
  || ((0x2000 <=? c) && (c <=? 0x200A))
  || (c =? 0x2028) || (c =? 0x2029) || (c =? 0x202F) || (c =? 0x205F)
  || (c =? 0x3000).

(** [s.rstrip()]: drop the maximal whitespace suffix. *)
Fixpoint rstrip (s : str) : str :=
  match s with
  | [] => []
  | c :: s' =>
      match rstrip s' with
      | [] => if py_isspace c then [] else [c]
      | r => c :: r
      end
  end.

(** [s.split(sep)] for a one-character separator: never the empty list. *)
Fixpoint split (sep : N) (s : str) : list str :=
  match s with
  | [] => [[]]
  | c :: s' =>
      if c =? sep then [] :: split sep s'
      else
        match split sep s' with
        | h :: t => (c :: h) :: t
        | [] => [[c]]
        end
  end.

Definition NL : N := 10.
Definition TAB : N := 9.

(** *** [os.path.join] (POSIX), for two components *)

Definition SLASH : N := 47.

Definition os_path_join (a b : str) : str :=
  if bool_decide (head b = Some SLASH) then b
  else if bool_decide (a = []) || bool_decide (last a = Some SLASH) then a ++ b
  else a ++ SLASH :: b.

(** ** Exceptions, events and the world *)

(** The exceptions the modelled code raises or lets through. *)
Inductive exn :=
| FileNotFoundError (path : str)
| ValueError (msg : string)
| UnicodeEncodeError
| UnicodeDecodeError
| InvalidToken
| UnboundLocalError
| AttributeError.

(** [except IOError]: of the exceptions above only a missing file is one. *)
Definition is_IOError (e : exn) : bool :=
  match e with FileNotFoundError _ => true | _ => false end.

Definition is_FileNotFoundError (e : exn) : bool :=
  match e with FileNotFoundError _ => true | _ => false end.

(** What a call leaves behind besides files: the calls made to the Fernet
    primitive, log records, and threads started. *)
Inductive event :=
| EvFernetEncrypt (key data : bytes)
| EvFernetDecrypt (key token : bytes)
| EvLog (level : string) (msg : str)
| EvThread (target : string) (args : list str).

Definition is_fernet_call (e : event) : bool :=
  match e with EvFernetEncrypt _ _ | EvFernetDecrypt _ _ => true | _ => false end.

Record World := mkWorld {
  fs : gmap str bytes;          (* files, by path *)
  convert_key : option bytes;   (* the function attribute [convert.key] *)
  entropy : nat -> byte;        (* the bytes [os.urandom] will deliver *)
  entropy_pos : nat;            (* how many of them were consumed *)
  now : N;                      (* [int(time.time())] *)
  trace : list event            (* oldest first *)
}.

(** Updates of one field. *)
Definition with_file (path : str) (d : bytes) (w : World) : World :=
  mkWorld (<[path := d]> (fs w)) (convert_key w) (entropy w) (entropy_pos w)
          (now w) (trace w).

Definition with_key (k : option bytes) (w : World) : World :=
  mkWorld (fs w) k (entropy w) (entropy_pos w) (now w) (trace w).

Definition with_event (e : event) (w : World) : World :=
  mkWorld (fs w) (convert_key w) (entropy w) (entropy_pos w) (now w) (trace w ++ [e]).

Definition consumed (n : nat) (w : World) : World :=
  mkWorld (fs w) (convert_key w) (entropy w) (entropy_pos w + n) (now w) (trace w).

(** The next [n] random bytes. *)
Definition next_entropy (n : nat) (w : World) : bytes :=
  entropy w <$> seq (entropy_pos w) n.

Inductive outcome (A : Type) :=
| Return (a : A)
| Raise (e : exn).
Arguments Return {A} a.
Arguments Raise {A} e.

Definition M (A : Type) : Type := World -> outcome A * World.

Definition ret {A} (a : A) : M A := fun w => (Return a, w).

Definition bind {A B} (m : M A) (k : A -> M B) : M B :=
  fun w => match m w with
           | (Return a, w') => k a w'
           | (Raise e, w') => (Raise e, w')
           end.

Definition raise {A} (e : exn) : M A := fun w => (Raise e, w).

(** [try: m except <sel>: h] *)
Definition try_except {A} (m : M A) (sel : exn -> bool) (h : exn -> M A) : M A :=
  fun w => match m w with
           | (Raise e, w') => if sel e then h e w' else (Raise e, w')
           | r => r
           end.

Notation "x <- m ;; k" := (bind m (fun x => k))
  (at level 100, m at next level, right associativity).
Notation "m ;;; k" := (bind m (fun _ => k))
  (at level 100, right associativity).

Definition emit (e : event) : M unit := fun w => (Return tt, with_event e w).

Definition logging (level : string) (msg : str) : M unit := emit (EvLog level msg).

(** [os.urandom(n)] *)
Definition os_urandom (n : nat) : M bytes :=
  fun w => (Return (next_entropy n w), consumed n w).

(** [with open(path, 'rb') as f: f.read()], also the read of an ['r+b'] file *)
Definition read_file (path : str) : M bytes :=
  fun w => match fs w !! path with
           | Some d => (Return d, w)
           | None => (Raise (FileNotFoundError path), w)
           end.

(** Replacing the whole content of a file: [open(path, 'wb')] and [write],
    or [seek(0)], [write], [truncate] on a file open for update. *)
Definition write_file (path : str) (d : bytes) : M unit :=
  fun w => (Return tt, with_file path d w).

Definition append_file (path : str) (d : bytes) : M unit :=
  fun w => (Return tt, with_file path (default [] (fs w !! path) ++ d) w).

Definition get_convert_key : M (option bytes) := fun w => (Return (convert_key w), w).

Definition set_convert_key (k : option bytes) : M unit :=
  fun w => (Return tt, with_key k w).

Definition time_time : M N := fun w => (Return (now w), w).

(** ** The library primitives *)

(** [cryptography.fernet.Fernet]: the key check of the constructor, the
    token built from data, time stamp and IV, and its decryption
    ([None]: [InvalidToken]). *)
Class FernetOps := {
  fernet_key_ok : bytes -> bool;
  fernet_encrypt_from_parts : bytes -> bytes -> N -> bytes -> bytes;
  fernet_decrypt : bytes -> bytes -> option bytes
}.

(** [hashlib.sha256(m).digest()] and
    [hashlib.pbkdf2_hmac('sha512', password, salt, iterations)]. *)
Class HashOps := {
  sha256 : bytes -> bytes;
  pbkdf2_hmac_sha512 : bytes -> bytes -> N -> bytes
}.

(** What the libraries guarantee. A Fernet key is the URL-safe base64 text of
    32 bytes; decryption under the key of encryption returns the data; a
    token is never empty (it starts with a version byte). Digests have their
    fixed lengths. *)
Class FernetLaws (F : FernetOps) := {
  fernet_generated_key_ok :
    forall r : bytes, length r = 32%nat -> fernet_key_ok (urlsafe_b64encode r) = true;
  fernet_decrypt_encrypt :
    forall k d t iv, fernet_key_ok k = true ->
      fernet_decrypt k (fernet_encrypt_from_parts k d t iv) = Some d;
  fernet_token_nonempty :
    forall k d t iv, fernet_encrypt_from_parts k d t iv <> []
}.

Class HashLaws (H : HashOps) := {
  sha256_length : forall m, length (sha256 m) = 32%nat;
  pbkdf2_length : forall p s n, length (pbkdf2_hmac_sha512 p s n) = 64%nat
}.

(** ** encryption.py *)

Section encryption.
Context {F : FernetOps} {H : HashOps}.

(** [Fernet.generate_key()], which the library defines as
    [base64.urlsafe_b64encode(os.urandom(32))]. *)
Definition Fernet_generate_key : M bytes :=
  r <- os_urandom 32 ;;
  ret (urlsafe_b64encode r).

(** [Fernet(key)]: the constructor raises [ValueError] on a key that is not
    the base64 text of 32 bytes. *)
Definition Fernet (key : bytes) : M bytes :=
  if fernet_key_ok key then ret key
  else raise (ValueError "Fernet key must be 32 url-safe base64-encoded bytes.").

(** [fer.encrypt(data)]: time stamp from the clock, IV from [os.urandom]. *)
Definition fer_encrypt (fer : bytes) (data : bytes) : M bytes :=
  emit (EvFernetEncrypt fer data) ;;;
  t <- time_time ;;
  iv <- os_urandom 16 ;;
  ret (fernet_encrypt_from_parts fer data t iv).

(** [fer.decrypt(token)] *)
Definition fer_decrypt (fer : bytes) (token : bytes) : M bytes :=
  emit (EvFernetDecrypt fer token) ;;;
  match fernet_decrypt fer token with
  | Some d => ret d
  | None => raise InvalidToken
  end.

Definition _generate_key (file_path file_name : str) : M unit :=
  key <- Fernet_generate_key ;;
  let file := os_path_join file_path file_name in
  write_file file key.

Definition _load_key (file_path file_name : str) : M bytes :=
  let file := os_path_join file_path file_name in
  try_except (read_file file) is_FileNotFoundError (fun _ =>
    try_except
      (_generate_key file_path file_name ;;;
       read_file file)
      is_IOError
      (fun e =>
         logging "error" (lit "Could not open or create key file " ++ file) ;;;
         raise e)).

(** The default arguments of [_load_key]. *)
Definition key_file_path : str := lit "./".
Definition key_file_name : str := lit "key.key".

(** The key [convert] works with: the one kept in the function attribute
    [convert.key], loaded on first use. *)
Definition convert_load_key : M bytes :=
  cached <- get_convert_key ;;
  match cached with
  | Some k => ret k
  | None =>
      logging "debug" (lit "Creating new key") ;;;
      k <- _load_key key_file_path key_file_name ;;
      set_convert_key (Some k) ;;;
      ret k
  end.

Definition convert (file_name conversion_type file_path storage_type : str)
  : M (option bytes) :=
  let file_name := os_path_join file_path file_name in
  if negb (bool_decide (conversion_type ∈ [lit "encrypt"; lit "decrypt"])) then
    raise (ValueError "conversion_type is not supported")
  else if negb (bool_decide (storage_type ∈ [lit "write"; lit "return"])) then
    raise (ValueError "storage_type is not supported")
  else
    key <- convert_load_key ;;
    fer <- Fernet key ;;
    try_except
      (file_data <- read_file file_name ;;
       if bool_decide (file_data = []) then ret (Some file_data)
       else
         converted_data <-
           (if bool_decide (conversion_type = lit "encrypt") then fer_encrypt fer file_data
            else if bool_decide (conversion_type = lit "decrypt") then fer_decrypt fer file_data
            else raise UnboundLocalError) ;;
         if bool_decide (storage_type = lit "write") then
           write_file file_name converted_data ;;;
           ret None
         else if bool_decide (storage_type = lit "return") then
           ret (Some converted_data)
         else ret None)
      is_IOError
      (fun e =>
         logging "error" (lit "Could not open file " ++ file_name) ;;;
         raise e).

(** [str.encode] ([utf-8] by default) and [bytes.decode], raising. *)
Definition str_encode (s : str) : M bytes :=
  match encode_utf8 s with
  | Some b => ret b
  | None => raise UnicodeEncodeError
  end.

Definition str_encode_ascii (s : str) : M bytes :=
  match encode_ascii s with
  | Some b => ret b
  | None => raise UnicodeEncodeError
  end.

Definition bytes_decode (b : bytes) : M str :=
  match decode_utf8 b with
  | Some s => ret s
  | None => raise UnicodeDecodeError
  end.

(** [hashlib.sha256(m).hexdigest()] *)
Definition sha256_hexdigest (m : bytes) : str := str_of_bytes (hexlify (sha256 m)).

Definition get_password_hash (word : str) : M str :=
  r <- os_urandom 60 ;;
  salt <- str_encode (sha256_hexdigest r) ;;
  pw <- str_encode word ;;
  let pwdhash := pbkdf2_hmac_sha512 pw salt 100000 in
  let pwdhash := hexlify pwdhash in
  bytes_decode (salt ++ pwdhash).

Definition verify_password (provided_password stored_password : str) : M bool :=
  if (1024 <? length provided_password)%nat then
    raise (ValueError "Password length must not exceed 1024")
  else
    let salt := take 64 stored_password in
    let stored_password := drop 64 stored_password in
    pw <- str_encode provided_password ;;
    salt <- str_encode_ascii salt ;;
    let pwdhash := pbkdf2_hmac_sha512 pw salt 100000 in
    pwdhash <- ret (str_of_bytes (hexlify pwdhash)) ;;
    ret (bool_decide (pwdhash = stored_password)).

End encryption.

(** ** functions.py: the password registry *)

Section functions.
Context {F : FernetOps} {H : HashOps}.

(** [with open(path, 'w') as f: f.writelines(lines)]: the file is created or
    truncated on opening; each line is encoded as it is written, so a line
    that cannot be encoded leaves the lines before it in the file. *)
Fixpoint writelines (path : str) (lines : list str) : M unit :=
  match lines with
  | [] => ret tt
  | l :: rest =>
      b <- str_encode l ;;
      append_file path b ;;;
      writelines path rest
  end.

Definition write_text_lines (path : str) (lines : list str) : M unit :=
  write_file path [] ;;;
  writelines path lines.

(** The lines of the registry as [_store_password] reads them from the
    decrypted text. *)
Definition registry_lines (text : str) : list str :=
  let data := split NL (rstrip text) in
  let data := rstrip <$> data in
  if bool_decide (data = [[]]) then [] else data.

(** The text [writelines] produces from the lines. *)
Definition registry_text (data : list str) : str :=
  concat ((fun l => l ++ [NL]) <$> data).

Definition _store_password (file_name password password_file : str) : M unit :=
  password_data <-
    convert password_file (lit "decrypt") (lit "Storage") (lit "return") ;;
  text <- match password_data with
          | Some b => bytes_decode b
          | None => raise AttributeError
          end ;;
  let data := registry_lines text in
  h <- get_password_hash password ;;
  let line := file_name ++ TAB :: h in
  let data := data ++ [line] in
  write_text_lines (os_path_join (lit "Storage") password_file)
                   ((fun l => l ++ [NL]) <$> data) ;;;
  convert password_file (lit "encrypt") (lit "Storage") (lit "write") ;;;
  emit (EvThread "gdrive.save_file" [password_file; lit "Password"; lit "Storage"]).

(** The default [password_file]. *)
Definition password_txt : str := lit "password.txt".

(** The page a registry line belongs to, as [_prompt_password] reads it:
    the text before the first tab. *)
Definition line_page (l : str) : str := default [] (head (split TAB l)).

(** The lines and the records of the registry as [_prompt_password] reads
    them: the text is stripped and split into lines; a line is split at its
    tabs, the first field is the page and the second, stripped, the stored
    hash string ([None]: the [IndexError] of a line without tab). *)
Definition raw_lines (text : str) : list str := split NL (rstrip text).

Definition parse_line (l : str) : option (str * str) :=
  match split TAB l with
  | s0 :: s1 :: _ => Some (s0, rstrip s1)
  | _ => None
  end.

(** How many records the registry holds for a page. *)
Definition page_records (page : str) (data : list str) : nat :=
  length (filter (fun l => line_page l = page) data).

End functions.

(** ** gdrive.py: the upload retry loop *)

Module gdrive.

(** A parsed JSON value ([json.loads]); an object has one binding per key. *)
Inductive json :=
| JNull
| JBool (b : bool)
| JNum (n : Z)
| JStr (s : str)
| JArr (l : list json)
| JObj (l : list (str * json)).

(** [googleapiclient.errors.HttpError]: the response status, the
    [content-type] header when present, and the body. *)
Record HttpError := mkHttpError {
  status : N;
  content_type : option str;
  content : bytes
}.

Inductive error :=
| EHttp (e : HttpError)
| JSONDecodeError
| AttributeError
| IndexError
| KeyError
| TypeError
| FileNotFoundError (path : str)
| Other (name : string).

(** What one call of [....create(...).execute()] does. *)
Inductive response :=
| Created (id name : str)
| Fails (e : error).

Inductive media :=
| MediaIoBaseUpload (data : bytes)
| MediaFileUpload (file_name : str).

Record request := mkRequest {
  body_name : str;
  body_parents : option (list str);
  media_body : media
}.

(** The state the loop threads: calls made to the remote operation, random
    numbers drawn, the arguments of [time.sleep] and the lines printed. *)
Record Drive := mkDrive {
  attempts : nat;
  rand_pos : nat;
  sleeps : list Q;
  stdout : list str
}.

Definition drive0 : Drive := mkDrive 0 0 [] [].

Inductive result (A : Type) :=
| Ok (a : A)
| Err (e : error).
Arguments Ok {A} a.
Arguments Err {A} e.

Definition max_tries : nat := 10.
Definition slot_time : Q := 1 # 10.
Definition retryable_statuses : list N := [403; 500; 503; 502; 504].

(** [d.get(key)] and [v[0]] on a parsed JSON value. *)
Fixpoint assoc (k : str) (l : list (str * json)) : json :=
  match l with
  | [] => JNull
  | (k', v) :: l' => if bool_decide (k' = k) then v else assoc k l'
  end.

Definition py_get (key : str) (v : json) : result json :=
  match v with
  | JObj l => Ok (assoc key l)
  | _ => Err AttributeError
  end.

Definition py_item0 (v : json) : result json :=
  match v with
  | JArr (x :: _) => Ok x
  | JArr [] => Err IndexError
  | JStr (c :: _) => Ok (JStr [c])
  | JStr [] => Err IndexError
  | JObj _ => Err KeyError
  | _ => Err TypeError
  end.

Definition startswith (p s : str) : bool := bool_decide (take (length p) s = p).

Section upload.
(** The remote service: what the [n]-th call of the operation answers to a
    request. The random source of [random.randint]. The JSON parser, and
    [str] of a JSON value that is neither a string nor [None]. *)
Variable execute : request -> nat -> response.
Variable rand : nat -> N.
Variable json_loads : bytes -> option json.
Variable py_repr : json -> str.
Variable isfile : str -> bool.

(** [random.randint(0, hi)] *)
Definition randint0 (hi : N) (d : Drive) : N * Drive :=
  (rand (rand_pos d) mod (hi + 1),
   mkDrive (attempts d) (S (rand_pos d)) (sleeps d) (stdout d)).

Definition time_sleep (t : Q) (d : Drive) : Drive :=
  mkDrive (attempts d) (rand_pos d) (sleeps d ++ [t]) (stdout d).

Definition print (s : str) (d : Drive) : Drive :=
  mkDrive (attempts d) (rand_pos d) (sleeps d) (stdout d ++ [s]).

Definition call (rq : request) (d : Drive) : response * Drive :=
  (execute rq (attempts d),
   mkDrive (S (attempts d)) (rand_pos d) (sleeps d) (stdout d)).

(** ['{0}'.format(reason)] *)
Definition format_reason (v : json) : str :=
  match v with
  | JStr s => s
  | JNull => lit "None"
  | v => py_repr v
  end.

(** [json.loads(err.content).get('error').get('errors')[0].get('reason')] *)
Definition error_reason (c : bytes) : result json :=
  match json_loads c with
  | None => Err JSONDecodeError
  | Some v =>
      match py_get (lit "error") v with
      | Err e => Err e
      | Ok v1 =>
          match py_get (lit "errors") v1 with
          | Err e => Err e
          | Ok v2 =>
              match py_item0 v2 with
              | Err e => Err e
              | Ok v3 => py_get (lit "reason") v3
              end
          end
      end
  end.

(** How the [while] loop is left: by [break] or by its condition, with the
    value of [file]; or by the [return] inside it. *)
Inductive loop_exit :=
| LoopEnd (file : option (str * str))
| LoopReturn.

(** [while try_counter < max_tries: ...]; every turn that does not leave
    the loop adds one to [try_counter], so [max_tries - try_counter] turns
    are enough. *)
Fixpoint upload_loop (turns : nat) (rq : request) (try_counter : nat) (d : Drive)
  : result loop_exit * Drive :=
  if (try_counter <? max_tries)%nat then
    match turns with
    | O => (Err (Other "loop bound"), d)
    | S turns' =>
        match call rq d with
        | (Created id name, d1) => (Ok (LoopEnd (Some (id, name))), d1)
        | (Fails (EHttp err), d1) =>
            if bool_decide (status err ∈ retryable_statuses) then
              let try_counter := S try_counter in
              let '(k, d2) := randint0 (2 ^ N.of_nat try_counter - 1) d1 in
              let d3 := time_sleep (inject_Z (Z.of_N k) * slot_time)%Q d2 in
              upload_loop turns' rq try_counter d3
            else if startswith (lit "application/json")
                               (default [] (content_type err)) then
              match error_reason (content err) with
              | Err e => (Err e, d1)
              | Ok reason =>
                  (Ok LoopReturn,
                   print (lit "Could not upload file or retry because of: "
                          ++ format_reason reason) d1)
              end
            else (Err (EHttp err), d1)
        | (Fails e, d1) => (Err e, d1)
        end
    end
  else (Ok (LoopEnd None), d).

(** The metadata and the media of the request; [MediaFileUpload] opens the
    local file, which must exist. *)
Definition upload_request (file_name : str) (parent_ids : option (list str))
           (file_path : option str) (data : option bytes) : result request :=
  let name := file_name in
  let file_name := match file_path with
                   | Some p => os_path_join p file_name
                   | None => file_name
                   end in
  match data with
  | Some b => Ok (mkRequest name parent_ids (MediaIoBaseUpload b))
  | None => if isfile file_name
            then Ok (mkRequest name parent_ids (MediaFileUpload file_name))
            else Err (FileNotFoundError file_name)
  end.

Definition _upload_file (file_name : str) (parent_ids : option (list str))
           (file_path : option str) (data : option bytes) (d : Drive)
  : result unit * Drive :=
  match upload_request file_name parent_ids file_path data with
  | Err e => (Err e, d)
  | Ok rq =>
      match upload_loop max_tries rq 0 d with
      | (Err e, d') => (Err e, d')
      | (Ok LoopReturn, d') => (Ok tt, d')
      | (Ok (LoopEnd None), d') => (Ok tt, print (lit "Unable to upload file") d')
      | (Ok (LoopEnd (Some _)), d') => (Ok tt, d')
      end
  end.

(** A call that fails with one of the retryable statuses. *)
Definition transient (r : response) : Prop :=
  exists e : HttpError, r = Fails (EHttp e) /\ status e ∈ retryable_statuses.

(** A failure the code reports and does not retry: a status outside the
    retryable ones, a JSON body, and a reason found in it. *)
Definition permanent (r : response) (reason : json) : Prop :=
  exists e : HttpError,
    r = Fails (EHttp e) /\
    (status e ∉ retryable_statuses) /\
    startswith (lit "application/json") (default [] (content_type e)) = true /\
    error_reason (content e) = Ok reason.

(** The number of slots slept once [try_counter] has become [n], drawn as the
    [j]-th random number, and the argument of [time.sleep]. *)
Definition backoff_slots (n j : nat) : N := rand j mod (2 ^ N.of_nat n - 1 + 1).

Definition backoff (n j : nat) : Q := (inject_Z (Z.of_N (backoff_slots n j)) * slot_time)%Q.

(** The state after [m] retried failures that began with [try_counter = tc]. *)
Definition after_retries (m tc : nat) (d : Drive) : Drive :=
  mkDrive (attempts d + m) (rand_pos d + m)
          (sleeps d ++ ((fun i => backoff (tc + 1 + i) (rand_pos d + i)) <$> seq 0 m))
          (stdout d).

End upload.

(** *** Services to run against *)

(** A service that is unavailable three times and then creates the file; one
    that is always unavailable; one that refuses the request as invalid. *)
Definition unavailable : response := Fails (EHttp (mkHttpError 503 None [])).

Definition flaky (_ : request) (n : nat) : response :=
  if (n <? 3)%nat then unavailable else Created (lit "id-1") (lit "a.txt").

Definition down (_ : request) (_ : nat) : response := unavailable.

Definition invalid_body : json :=
  JObj [(lit "error",
         JObj [(lit "errors", JArr [JObj [(lit "reason", JStr (lit "invalid"))]])])].

Definition refusing (_ : request) (_ : nat) : response :=
  Fails (EHttp (mkHttpError 400 (Some (lit "application/json; charset=UTF-8"))
                            (blit "{}"))).

Definition ref_rand (n : nat) : N := N.of_nat (7 * n + 5).
Definition ref_json_loads (_ : bytes) : option json := Some invalid_body.
Definition ref_py_repr (_ : json) : str := lit "?".
Definition ref_isfile (_ : str) : bool := true.

(** A quota error as the Drive API reports it: status 403 and a JSON body
    that names the reason. *)
Definition quota_error : HttpError :=
  mkHttpError 403 (Some (lit "application/json; charset=UTF-8"))
              (blit "body: storageQuotaExceeded").

Definition quota_body : json :=
  JObj [(lit "error",
         JObj [(lit "errors",
                JArr [JObj [(lit "reason", JStr (lit "storageQuotaExceeded"))]])])].

Definition over_quota (_ : request) (_ : nat) : response := Fails (EHttp quota_error).

Definition quota_json_loads (_ : bytes) : option json := Some quota_body.

Definition ref_request : request :=
  mkRequest (lit "a.txt") None (MediaIoBaseUpload (blit "data")).

End gdrive.

(** ** A reference instance of the primitives

    Small stand-ins for Fernet and the hash functions that satisfy the laws
    above, on which the embedding can be run. A token is the version byte,
    the key and the data; decryption checks both. *)

Definition ref_fernet_decrypt (k token : bytes) : option bytes :=
  match token with
  | b :: rest =>
      if bool_decide (b = x80) && bool_decide (take (length k) rest = k)
      then Some (drop (length k) rest)
      else None
  | [] => None
  end.

#[export] Instance ref_fernet : FernetOps := {|
  fernet_key_ok := fun k => (length k =? 44)%nat;
  fernet_encrypt_from_parts := fun k d _ _ => x80 :: k ++ d;
  fernet_decrypt := ref_fernet_decrypt
|}.

#[export] Instance ref_hash : HashOps := {|
  sha256 := fun m => take 32 (m ++ replicate 32 x00);
  pbkdf2_hmac_sha512 := fun p s _ => take 64 (p ++ s ++ replicate 64 x00)
|}.

(** A world to run in: no files, no key loaded, and the byte [n mod 256] as
    the [n]-th random byte. *)
Definition ref_entropy (n : nat) : byte := byte_of_N (N.of_nat n mod 256).

Definition ref_world : World := mkWorld ∅ None ref_entropy 0 1600000000 [].

(** ** Vocabulary of the statements *)

(** A hexadecimal digit is one of [0-9a-f]. *)
Definition is_hex_char (c : N) : Prop := (48 <= c <= 57) \/ (97 <= c <= 102).

(** The characters that have a UTF-8 encoding: the Unicode scalar values. *)
Definition encodable (c : N) : Prop :=
  c < 0x110000 /\ ~ (0xD800 <= c <= 0xDFFF).

(** A line as [_store_password] keeps it: one line, nothing to strip. *)
Definition clean_line (l : str) : Prop := (NL ∉ l) /\ (rstrip l = l).

(** A generated key: the text of 32 random bytes, 44 bytes long. *)
Definition generated_key (w : World) : bytes := urlsafe_b64encode (next_entropy 32 w).

Definition key_file : str := os_path_join key_file_path key_file_name.

Definition conversion_types : list str := [lit "encrypt"; lit "decrypt"].
Definition storage_types : list str := [lit "write"; lit "return"].

Definition registry_path (password_file : str) : str :=
  os_path_join (lit "Storage") password_file.

Section vocabulary.
Context {F : FernetOps} {H : HashOps}.

(** The salt [get_password_hash] draws in a world, as ASCII bytes, and the
    derived key for it. *)
Definition salt_bytes (w : World) : bytes := hexlify (sha256 (next_entropy 60 w)).

Definition derived_key (pw salt : bytes) : bytes := pbkdf2_hmac_sha512 pw salt 100000.

(** The hash string made in a world for a password with UTF-8 bytes [pw]. *)
Definition hash_in (w : World) (pw : bytes) : str :=
  str_of_bytes (salt_bytes w ++ hexlify (derived_key pw (salt_bytes w))).

(** The world after [fer.encrypt] and the token it made. *)
Definition encrypted (k d : bytes) (w : World) : World :=
  consumed 16 (with_event (EvFernetEncrypt k d) w).

Definition token_of (k d : bytes) (w : World) : bytes :=
  fernet_encrypt_from_parts k d (now w) (next_entropy 16 w).

(** The text [_store_password] reads from a registry file with content [c]:
    nothing from an empty file, else the decoded plaintext of the token. *)
Definition stored_text (k c : bytes) : option str :=
  if bool_decide (c = []) then Some []
  else match fernet_decrypt k c with
       | Some b => decode_utf8 b
       | None => None
       end.

(** The world once the registry was read. *)
Definition after_read (k c : bytes) (w1 : World) : World :=
  if bool_decide (c = []) then w1 else with_event (EvFernetDecrypt k c) w1.

(** The registry as the code reads it from a world, under the key in
    [convert.key]. *)
Definition read_registry (password_file : str) (w : World) : option (list str) :=
  match convert_key w, fs w !! registry_path password_file with
  | Some k, Some c => registry_lines <$> stored_text k c
  | _, _ => None
  end.

(** The pages of its records, in order. *)
Definition registry_pages (password_file : str) (w : World) : option (list str) :=
  match read_registry password_file w with
  | Some L => Some (line_page <$> L)
  | None => None
  end.

End vocabulary.

(** ** Worlds to run in, on the reference instance *)

(** A world with the key in place and a note in [Storage]. *)
Definition ref_key : bytes := generated_key ref_world.

Definition note_world (content : bytes) : World :=
  with_key (Some ref_key) (with_file (lit "Storage/n.txt") content ref_world).

(** An empty registry with the key in place, and the world after one
    password was stored for [a.txt]. *)
Definition registry_world0 : World :=
  with_key (Some ref_key) (with_file (lit "Storage/password.txt") [] ref_world).

Definition registry_world1 : World :=
  snd (_store_password (lit "a.txt") (lit "first") password_txt registry_world0).

Definition registry_world2 : World :=
  snd (_store_password (lit "a.txt") (lit "second") password_txt registry_world1).

(** ** The sleeps of the upload loop, counted in slots *)

(** The most slots the loop can sleep in [turns] turns that begin with
    [try_counter = tc]: [2^n - 1] after the failed call that makes it [n]. *)
Fixpoint slots_bound (turns tc : nat) : N :=
  match turns with
  | O => 0
  | S turns' => (2 ^ N.of_nat (S tc) - 1) + slots_bound turns' (S tc)
  end.

Definition sum_slots (l : list N) : N := foldr N.add 0 l.

(** The argument of [time.sleep] for a number of slots. *)
Definition sleep_of (k : N) : Q := (inject_Z (Z.of_N k) * gdrive.slot_time)%Q.

(** ** More worlds and services to run in *)

(** A fresh installation: a note in [Storage], no key file, no key loaded. *)
Definition fresh_world : World := with_file (lit "Storage/n.txt") (blit "milk") ref_world.


(** A service that is unavailable twice and then fails with a given error. *)
Definition failing_with (e : gdrive.error) (_ : gdrive.request) (n : nat) : gdrive.response :=
  if (n <? 2)%nat then gdrive.unavailable else gdrive.Fails e.

(** A service that is unavailable twice and then creates the file. *)
Definition flaky2 (_ : gdrive.request) (n : nat) : gdrive.response :=
  if (n <? 2)%nat then gdrive.unavailable else gdrive.Created (lit "id-1") (lit "a.txt").

(** A note page of two notes, a registry that is not a token, and a page
    that holds a token of one note. *)
Definition page_world : World :=
  with_file (lit "Storage/todo.txt") (blit "milk" ++ x0a :: blit "eggs" ++ [x0a]) ref_world.

Definition junk_registry_world : World :=
  with_key (Some ref_key) (with_file (lit "Storage/password.txt") (blit "junk") ref_world).

Definition token_world : World := note_world (x80 :: ref_key ++ blit "eggs" ++ [x0a]).

(** A registry whose text has a line without a tab. *)
Definition malformed_registry_world : World :=
  with_key (Some ref_key)
    (with_file (lit "Storage/password.txt") (x80 :: ref_key ++ blit "oops") ref_world).

(** ** functions.py: the console and the note pages *)

(** The program talks to a terminal: [input] and [getpass] take the next
    line the user types, without its newline, and raise [EOFError] when
    there is none; what they and [print] show is recorded in order. The
    functions of this part raise the exceptions of the layer below, the
    [IndexError] of an item that is not there, and [EOFError]. *)
Inductive exc :=
| Exn (e : exn)
| IndexError
| EOFError.

Inductive output :=
| Printed (line : str)       (* [print(line)] *)
| Prompt (text : str)        (* the prompt of [input] *)
| PassPrompt (text : str).   (* the prompt of [getpass.getpass] *)

Record Console := mkConsole {
  world : World;
  typed : list str;      (* the lines still to be typed *)
  screen : list output   (* oldest first *)
}.

Inductive answer (A : Type) :=
| Value (a : A)
| Raised (e : exc).
Arguments Value {A} a.
Arguments Raised {A} e.

Definition IO (A : Type) : Type := Console -> answer A * Console.

Definition io_ret {A} (a : A) : IO A := fun c => (Value a, c).

Definition io_bind {A B} (m : IO A) (k : A -> IO B) : IO B :=
  fun c => match m c with
           | (Value a, c') => k a c'
           | (Raised e, c') => (Raised e, c')
           end.

Definition io_raise {A} (e : exc) : IO A := fun c => (Raised e, c).

(** A call into the layer below. *)
Definition lift {A} (m : M A) : IO A :=
  fun c => match m (world c) with
           | (Return a, w) => (Value a, mkConsole w (typed c) (screen c))
           | (Raise e, w) => (Raised (Exn e), mkConsole w (typed c) (screen c))
           end.

Declare Scope io_scope.
Delimit Scope io_scope with io.
Notation "x <- m ;; k" := (io_bind m (fun x => k))
  (at level 100, m at next level, right associativity) : io_scope.
Notation "m ;;; k" := (io_bind m (fun _ => k))
  (at level 100, right associativity) : io_scope.

Definition input (prompt : str) : IO str :=
  fun c => match typed c with
           | l :: rest => (Value l, mkConsole (world c) rest (screen c ++ [Prompt prompt]))
           | [] => (Raised EOFError, mkConsole (world c) [] (screen c ++ [Prompt prompt]))
           end.

Definition getpass (prompt : str) : IO str :=
  fun c => match typed c with
           | l :: rest => (Value l, mkConsole (world c) rest (screen c ++ [PassPrompt prompt]))
           | [] => (Raised EOFError, mkConsole (world c) [] (screen c ++ [PassPrompt prompt]))
           end.

Definition print (line : str) : IO unit :=
  fun c => (Value tt, mkConsole (world c) (typed c) (screen c ++ [Printed line])).

(** *** Text files

    A file opened for reading in text mode is decoded as UTF-8 and its
    newlines are translated: [\r\n] and a lone [\r] are read as [\n]. *)

Definition CR : N := 13.

Fixpoint universal_newlines (s : str) : str :=
  match s with
  | [] => []
  | c :: s' =>
      if c =? CR then
        NL :: match s' with
              | c' :: s'' => if c' =? NL then universal_newlines s''
                             else universal_newlines s'
              | [] => []
              end
      else c :: universal_newlines s'
  end.

(** [f.readlines()]: the lines, each with its newline; the last one has none
    when the text does not end in one. *)
Fixpoint readlines (s : str) : list str :=
  match s with
  | [] => []
  | c :: s' =>
      if c =? NL then [c] :: readlines s'
      else match readlines s' with
           | [] => [[c]]
           | l :: ls => (c :: l) :: ls
           end
  end.

(** [with open(path, 'r') as f: notes = f.readlines()] *)
Definition read_text_lines (path : str) : M (list str) :=
  b <- read_file path ;;
  s <- bytes_decode b ;;
  ret (readlines (universal_newlines s)).

(** [with open(path, 'a+') as f: f.write(s)]: opening creates the file. *)
Definition append_text (path : str) (s : str) : M unit :=
  append_file path [] ;;;
  b <- str_encode s ;;
  append_file path b.

(** The registry as [_prompt_password] builds it from the lines: a
    dictionary from page to stored hash string, a later line replacing an
    earlier one for the same page; [None] is the [IndexError] of a line
    without a tab. *)
Fixpoint files_dict (data : list str) (files : gmap str str) : option (gmap str str) :=
  match data with
  | [] => Some files
  | line :: rest =>
      match parse_line line with
      | Some (page, h) => files_dict rest (<[page := h]> files)
      | None => None
      end
  end.

(** The double quote around the page name in the prompt. *)
Definition QUOTE : N := 34.

Section console.
Context {F : FernetOps} {H : HashOps}.
(** [int(s)] for a string: [None] is its [ValueError]. *)
Variable py_int : str -> option Z.

Local Open Scope io_scope.

Definition add_note (filename : str) (note : option str) : IO unit :=
  note <- match note with
          | None => input (lit "Enter note to add" ++ [NL])
          | Some n => io_ret n
          end ;;
  lift (append_text filename (note ++ [NL])).

Definition delete_note (filename : str) : IO unit :=
  inp <- input (lit "Enter a number to delete" ++ [NL]) ;;
  match py_int inp with
  | None => print (lit "Enter a note number")
  | Some note_number =>
      notes <- lift (read_text_lines filename) ;;
      if (note_number <? 0)%Z || (Z.of_nat (length notes) - 1 <? note_number)%Z then
        print (lit "invalid note number")
      else
        let notes := delete (Z.to_nat note_number) notes in
        lift (write_text_lines filename notes)
  end.

Definition change_note (filename : str) : IO unit :=
  inp <- input (lit "Enter a number to change" ++ [NL]) ;;
  match py_int inp with
  | None => print (lit "Enter a note number")
  | Some note_number =>
      notes <- lift (read_text_lines filename) ;;
      if (note_number <? 0)%Z || (Z.of_nat (length notes) - 1 <? note_number)%Z then
        print (lit "invalid number")
      else
        msg <- input (lit "Enter replacement message" ++ [NL]) ;;
        let notes := <[Z.to_nat note_number := msg ++ [NL]]> notes in
        lift (write_text_lines filename notes)
  end.

Definition insert_note (file_name : str) : IO unit :=
  inp <- input (lit "Enter a number to insert" ++ [NL]) ;;
  match py_int inp with
  | None => print (lit "Enter a note number")
  | Some note_number =>
      notes <- lift (read_text_lines file_name) ;;
      if negb ((0 <=? note_number)%Z && (note_number <? Z.of_nat (length notes))%Z) then
        print (lit "invalid number")
      else
        msg <- input (lit "Enter a message to insert" ++ [NL]) ;;
        let n := Z.to_nat note_number in
        let notes := take n notes ++ (msg ++ [NL]) :: drop n notes in
        lift (write_text_lines file_name notes)
  end.

Definition _prompt_password (file_name password_file : str) : IO bool :=
  password_data <-
    lift (convert password_file (lit "decrypt") (lit "Storage") (lit "return")) ;;
  text <- lift (match password_data with
                | Some b => bytes_decode b
                | None => raise AttributeError
                end) ;;
  let data := split NL (rstrip text) in
  let data := if bool_decide (data = [[]]) then [] else data in
  match files_dict data ∅ with
  | None => io_raise IndexError
  | Some files =>
      match files !! file_name with
      | Some stored =>
          password <-
            getpass (lit "Enter the password for note page "
                     ++ [QUOTE] ++ take (length file_name - 4) file_name
                     ++ [QUOTE; NL]) ;;
          lift (verify_password password stored)
      | None => io_ret true
      end
  end.

End console.

(** [int] on the strings the runs below type: an optional minus sign and
    ASCII digits. *)
Fixpoint digits_value (s : str) (acc : Z) : option Z :=
  match s with
  | [] => Some acc
  | c :: s' =>
      if (48 <=? c) && (c <=? 57) then digits_value s' (10 * acc + Z.of_N (c - 48))
      else None
  end.

Definition ref_int (s : str) : option Z :=
  match s with
  | [] => None
  | c :: s' =>
      if c =? 45 then
        match s' with [] => None | _ => Z.opp <$> digits_value s' 0 end
      else digits_value s 0
  end.

(** *** Vocabulary of the note pages *)

(** A line with its newline, and a last line without one. *)
Definition full_line (l : str) : Prop := exists x, l = x ++ [NL] /\ (NL ∉ x).
Definition open_line (l : str) : Prop := l <> [] /\ (NL ∉ l).

(** The lists of lines [readlines] returns. *)
Inductive page_lines : list str -> Prop :=
| page_nil : page_lines []
| page_last (l : str) : full_line l \/ open_line l -> page_lines [l]
| page_cons (l : str) (ls : list str) : full_line l -> page_lines ls -> page_lines (l :: ls).

(** A character a page can hold and give back: it has a UTF-8 encoding and
    is not a carriage return. *)
Definition page_char (c : N) : Prop := encodable c /\ c <> CR.

(** *** Vocabulary of the password prompt *)

(** The lines of the registry as [_prompt_password] takes them from the
    decrypted text: none when the text is blank. *)
Definition prompt_lines (text : str) : list str :=
  if bool_decide (raw_lines text = [[]]) then [] else raw_lines text.

(** The prompt of [_prompt_password] for a page. *)
Definition password_prompt (file_name : str) : str :=
  lit "Enter the password for note page "
  ++ [QUOTE] ++ take (length file_name - 4) file_name ++ [QUOTE; NL].

Definition is_thread (e : event) : bool :=
  match e with EvThread _ _ => true | _ => false end.

(** *** Vocabulary of a session on a page *)

(** What a page file holds under a key: nothing when it is empty, else the
    plaintext of its token ([None]: not a token). *)
Definition page_plaintext {F : FernetOps} (k c : bytes) : option bytes :=
  if bool_decide (c = []) then Some [] else fernet_decrypt k c.

(** * Properties *)

(** Arithmetic with division and remainder by constants. *)
Ltac divlia := zify; Z.to_euclidean_division_equations; lia.

(** ** Bytes, hexadecimal and the codecs *)

Lemma byte_to_N_lt (b : byte) : Byte.to_N b < 256.
Proof. pose proof (Byte.to_N_bounded b). lia. Qed.

Lemma byte_of_N_to_N (n : N) : n < 256 -> Byte.to_N (byte_of_N n) = n.
Proof.
  intros Hn. unfold byte_of_N.
  destruct (Byte.of_N n) as [b|] eqn:E; simpl.
  - by apply Byte.to_of_N.
  - apply Byte.of_N_None_iff in E. lia.
Qed.

Lemma byte_of_to_N (b : byte) : byte_of_N (Byte.to_N b) = b.
Proof. unfold byte_of_N. by rewrite Byte.of_to_N. Qed.

Lemma hexdigit_hex (n : N) : n < 16 -> is_hex_char (Byte.to_N (hexdigit n)).
Proof.
  intros Hn. unfold hexdigit, is_hex_char.
  destruct (N.ltb_spec n 10); rewrite byte_of_N_to_N; lia.
Qed.

Lemma hexlify_hex (b : bytes) : Forall is_hex_char (str_of_bytes (hexlify b)).
Proof.
  induction b as [|x b IH]; simpl; [constructor|].
  pose proof (byte_to_N_lt x).
  constructor; [apply hexdigit_hex; divlia|].
  constructor; [apply hexdigit_hex; divlia|]. exact IH.
Qed.

Lemma hexlify_length (b : bytes) : length (hexlify b) = (2 * length b)%nat.
Proof. induction b as [|x b IH]; simpl; [done|]. rewrite IH. lia. Qed.

Lemma is_hex_char_ascii (c : N) : is_hex_char c -> c < 128.
Proof. unfold is_hex_char. lia. Qed.

Lemma is_hex_char_not_space (c : N) : is_hex_char c -> py_isspace c = false.
Proof.
  unfold is_hex_char. intros Hc. apply not_true_is_false. intros Hs.
  unfold py_isspace in Hs.
  rewrite !orb_true_iff, !andb_true_iff, !N.leb_le, !N.eqb_eq in Hs. lia.
Qed.

Lemma is_hex_char_not_NL (c : N) : is_hex_char c -> c <> NL.
Proof. unfold is_hex_char, NL. lia. Qed.

Lemma str_of_bytes_length (b : bytes) : length (str_of_bytes b) = length b.
Proof. unfold str_of_bytes. by rewrite length_fmap. Qed.

(** On ASCII text both codecs are the identity on the code points. *)
Lemma encode_utf8_ascii (b : bytes) :
  Forall (fun c => c < 128) (str_of_bytes b) -> encode_utf8 (str_of_bytes b) = Some b.
Proof.
  induction b as [|x b IH]; simpl; [done|].
  intros Hall. inversion Hall as [|? ? Hx Hb]; subst.
  unfold utf8_encode_char.
  destruct (N.ltb_spec (Byte.to_N x) 128); [|lia].
  rewrite (IH Hb), byte_of_to_N. done.
Qed.

Lemma encode_ascii_ascii (b : bytes) :
  Forall (fun c => c < 128) (str_of_bytes b) -> encode_ascii (str_of_bytes b) = Some b.
Proof.
  induction b as [|x b IH]; simpl; [done|].
  intros Hall. inversion Hall as [|? ? Hx Hb]; subst.
  destruct (N.ltb_spec (Byte.to_N x) 128); [|lia].
  rewrite (IH Hb), byte_of_to_N. done.
Qed.

Lemma decode_utf8_ascii (b : bytes) :
  Forall (fun c => c < 128) (str_of_bytes b) -> decode_utf8 b = Some (str_of_bytes b).
Proof.
  induction b as [|x b IH]; simpl; [done|].
  intros Hall. inversion Hall as [|? ? Hx Hb]; subst.
  destruct (N.ltb_spec (Byte.to_N x) 128); [|lia].
  by rewrite (IH Hb).
Qed.

Lemma hex_all_ascii (b : bytes) : Forall (fun c => c < 128) (str_of_bytes (hexlify b)).
Proof. eapply Forall_impl; [apply hexlify_hex|]. apply is_hex_char_ascii. Qed.

Lemma str_of_bytes_app (a b : bytes) :
  str_of_bytes (a ++ b) = str_of_bytes a ++ str_of_bytes b.
Proof. unfold str_of_bytes. by rewrite fmap_app. Qed.

(** ** The password hasher *)

Section hasher.
Context {H : HashOps} {HL : HashLaws H}.

Lemma next_entropy_length (n : nat) (w : World) : length (next_entropy n w) = n.
Proof. unfold next_entropy. by rewrite length_fmap, length_seq. Qed.

Lemma salt_bytes_length (w : World) : length (salt_bytes w) = 64%nat.
Proof. unfold salt_bytes. by rewrite hexlify_length, sha256_length. Qed.

Lemma derived_hex_length (pw salt : bytes) :
  length (hexlify (derived_key pw salt)) = 128%nat.
Proof. unfold derived_key. by rewrite hexlify_length, pbkdf2_length. Qed.

(** What [get_password_hash] computes when the password can be encoded. *)
Lemma get_password_hash_run (w : World) (word : str) (pw : bytes) :
  encode_utf8 word = Some pw ->
  get_password_hash word w =
    (Return (str_of_bytes (salt_bytes w ++ hexlify (derived_key pw (salt_bytes w)))),
     consumed 60 w).
Proof.
  intros Hpw.
  unfold get_password_hash, bind, os_urandom, str_encode, sha256_hexdigest, bytes_decode.
  rewrite encode_utf8_ascii by apply hex_all_ascii.
  unfold ret at 1. rewrite Hpw. unfold ret at 1.
  rewrite decode_utf8_ascii; [reflexivity|].
  rewrite str_of_bytes_app. apply Forall_app; split; apply hex_all_ascii.
Qed.

(** A password that cannot be encoded makes it raise. *)
Lemma get_password_hash_unencodable (w : World) (word : str) :
  encode_utf8 word = None ->
  get_password_hash word w = (Raise UnicodeEncodeError, consumed 60 w).
Proof.
  intros Hpw.
  unfold get_password_hash, bind, os_urandom, str_encode, sha256_hexdigest.
  rewrite encode_utf8_ascii by apply hex_all_ascii.
  unfold ret at 1. by rewrite Hpw.
Qed.

(** What [verify_password] computes when it gets as far as the derivation. *)
Lemma verify_password_run (w : World) (provided stored : str) (pw salt : bytes) :
  (length provided <= 1024)%nat ->
  encode_utf8 provided = Some pw ->
  encode_ascii (take 64 stored) = Some salt ->
  verify_password provided stored w =
    (Return (bool_decide (str_of_bytes (hexlify (derived_key pw salt)) = drop 64 stored)), w).
Proof.
  intros Hlen Hpw Hsalt. unfold verify_password.
  destruct (Nat.ltb_spec 1024 (length provided)); [lia|].
  unfold bind, str_encode, str_encode_ascii. rewrite Hpw. unfold ret at 1.
  rewrite Hsalt. reflexivity.
Qed.

Lemma verify_password_too_long (w : World) (provided stored : str) :
  (1024 < length provided)%nat ->
  verify_password provided stored w =
    (Raise (ValueError "Password length must not exceed 1024"), w).
Proof.
  intros Hlen. unfold verify_password.
  destruct (Nat.ltb_spec 1024 (length provided)); [reflexivity|lia].
Qed.

Lemma verify_password_unencodable (w : World) (provided stored : str) :
  (length provided <= 1024)%nat ->
  encode_utf8 provided = None \/ encode_ascii (take 64 stored) = None ->
  verify_password provided stored w = (Raise UnicodeEncodeError, w).
Proof.
  intros Hlen Hbad. unfold verify_password.
  destruct (Nat.ltb_spec 1024 (length provided)); [lia|].
  unfold bind, str_encode, str_encode_ascii.
  destruct (encode_utf8 provided) as [pw|]; [|reflexivity].
  destruct Hbad as [?|Hs]; [done|]. unfold ret at 1. by rewrite Hs.
Qed.

(** The two halves of a hash string. *)
Lemma hash_take_64 (w : World) (pw : bytes) :
  take 64 (str_of_bytes (salt_bytes w ++ hexlify (derived_key pw (salt_bytes w))))
  = str_of_bytes (salt_bytes w).
Proof.
  rewrite str_of_bytes_app, take_app_length'; [done|].
  by rewrite str_of_bytes_length, salt_bytes_length.
Qed.

Lemma hash_drop_64 (w : World) (pw : bytes) :
  drop 64 (str_of_bytes (salt_bytes w ++ hexlify (derived_key pw (salt_bytes w))))
  = str_of_bytes (hexlify (derived_key pw (salt_bytes w))).
Proof.
  rewrite str_of_bytes_app, drop_app_length'; [done|].
  by rewrite str_of_bytes_length, salt_bytes_length.
Qed.

(** C3. For every password [p] of at most 1024 characters and every salt
    [get_password_hash] may draw (every world, hence every random source):
    whenever [get_password_hash] returns a hash for [p], [verify_password]
    returns [True] on [p] and that hash; and it does return one for every
    [p] that has a UTF-8 encoding. *)
Theorem verify_password_get_password_hash (w : World) (p : str) :
  (length p <= 1024)%nat ->
  (forall (h : str) (w1 : World),
     get_password_hash p w = (Return h, w1) ->
     forall w' : World, verify_password p h w' = (Return true, w')) /\
  (forall pw : bytes,
     encode_utf8 p = Some pw ->
     exists h : str, get_password_hash p w = (Return h, consumed 60 w)).
Proof.
  intros Hlen. split.
  - intros h w1 Hrun w'.
    destruct (encode_utf8 p) as [pw|] eqn:Hpw.
    + rewrite (get_password_hash_run w p pw Hpw) in Hrun. injection Hrun as <- _.
      rewrite (verify_password_run w' _ _ pw (salt_bytes w)); try done.
      * rewrite hash_drop_64. by rewrite bool_decide_eq_true_2.
      * rewrite hash_take_64. apply encode_ascii_ascii, hex_all_ascii.
    + by rewrite (get_password_hash_unencodable w p Hpw) in Hrun.
  - intros pw Hpw. eexists. by apply get_password_hash_run.
Qed.

(** C4. For every password [p] that has a UTF-8 encoding,
    [get_password_hash] returns a string of exactly 192 characters: the first
    64 are the SHA-256 hex digest of 60 random bytes, the other 128 are the
    hex text of the 64-byte PBKDF2-HMAC-SHA512 key derived in 100000
    iterations from the UTF-8 bytes of [p] and the ASCII bytes of those 64
    characters. *)
Theorem get_password_hash_shape (w : World) (p : str) (pw : bytes) :
  encode_utf8 p = Some pw ->
  exists (h : str) (salt : bytes),
    get_password_hash p w = (Return h, consumed 60 w) /\
    length h = 192%nat /\
    length (next_entropy 60 w) = 60%nat /\
    take 64 h = sha256_hexdigest (next_entropy 60 w) /\
    length (take 64 h) = 64%nat /\
    encode_ascii (take 64 h) = Some salt /\
    length (pbkdf2_hmac_sha512 pw salt 100000) = 64%nat /\
    drop 64 h = str_of_bytes (hexlify (pbkdf2_hmac_sha512 pw salt 100000)) /\
    length (drop 64 h) = 128%nat.
Proof.
  intros Hpw. eexists. exists (salt_bytes w).
  split; [by apply get_password_hash_run|].
  rewrite hash_take_64, hash_drop_64.
  rewrite !str_of_bytes_length, length_app, salt_bytes_length.
  pose proof (derived_hex_length pw (salt_bytes w)) as Hd.
  unfold derived_key in *. rewrite Hd.
  repeat split; try done;
    first [ apply next_entropy_length
          | apply encode_ascii_ascii, hex_all_ascii
          | apply pbkdf2_length ].
Qed.

(** C5 (amended). [verify_password] raises the [ValueError] of its length
    check exactly when the provided password is longer than 1024 characters.
    For a password of at most 1024 characters it returns, without raising,
    the comparison of the recomputed hex text with the stored string after
    its first 64 characters, provided the password has a UTF-8 encoding and
    the first 64 characters of the stored string are ASCII; otherwise it
    raises [UnicodeEncodeError]. *)
Theorem verify_password_spec (w : World) (provided stored : str) :
  (fst (verify_password provided stored w)
     = Raise (ValueError "Password length must not exceed 1024")
   <-> (1024 < length provided)%nat) /\
  ((length provided <= 1024)%nat ->
   forall pw salt : bytes,
     encode_utf8 provided = Some pw ->
     encode_ascii (take 64 stored) = Some salt ->
     verify_password provided stored w =
       (Return (bool_decide
                  (str_of_bytes (hexlify (pbkdf2_hmac_sha512 pw salt 100000))
                   = drop 64 stored)), w)) /\
  ((length provided <= 1024)%nat ->
   encode_utf8 provided = None \/ encode_ascii (take 64 stored) = None ->
   verify_password provided stored w = (Raise UnicodeEncodeError, w)).
Proof.
  split; [|split].
  - split.
    + intros Hr. destruct (Nat.le_gt_cases (length provided) 1024) as [Hle|]; [|done].
      exfalso.
      destruct (encode_utf8 provided) as [pw|] eqn:Hpw;
        [destruct (encode_ascii (take 64 stored)) as [salt|] eqn:Hs|].
      * by rewrite (verify_password_run w _ _ pw salt) in Hr.
      * rewrite verify_password_unencodable in Hr; [done|done|by right].
      * rewrite verify_password_unencodable in Hr; [done|done|by left].
    + intros Hlen. by rewrite verify_password_too_long.
  - intros Hlen pw salt Hpw Hs. by apply verify_password_run.
  - apply verify_password_unencodable.
Qed.

End hasher.

(** ** The key store *)

Lemma urlsafe_b64encode_length (q r : nat) (l : bytes) :
  (r < 3)%nat -> length l = (3 * q + r)%nat ->
  length (urlsafe_b64encode l) = (4 * q + (if (r =? 0)%nat then 0 else 4))%nat.
Proof.
  revert l. induction q as [|q IH]; intros l Hr Hl.
  - destruct l as [|a [|b [|c l]]]; simpl in *; try lia;
      destruct r as [|[|[|r]]]; simpl in *; lia.
  - destruct l as [|a [|b [|c l]]]; simpl in Hl; try lia.
    cbn [urlsafe_b64encode length]. rewrite (IH l Hr) by lia. lia.
Qed.

Lemma generated_key_length (w : World) : length (generated_key w) = 44%nat.
Proof.
  unfold generated_key.
  rewrite (urlsafe_b64encode_length 10 2); [done|lia|].
  by rewrite next_entropy_length.
Qed.

Lemma load_key_existing (w : World) (file_path file_name : str) (key : bytes) :
  fs w !! os_path_join file_path file_name = Some key ->
  _load_key file_path file_name w = (Return key, w).
Proof.
  intros Hf. unfold _load_key, try_except, read_file. by rewrite Hf.
Qed.

Lemma load_key_absent (w : World) (file_path file_name : str) :
  fs w !! os_path_join file_path file_name = None ->
  _load_key file_path file_name w =
    (Return (generated_key w),
     with_file (os_path_join file_path file_name) (generated_key w) (consumed 32 w)).
Proof.
  intros Hf. unfold _load_key, try_except at 1, read_file at 1. rewrite Hf.
  cbn [is_FileNotFoundError].
  unfold try_except, bind, _generate_key, Fernet_generate_key, bind, os_urandom, ret,
    write_file, read_file.
  cbn [with_file fs]. by rewrite lookup_insert_eq.
Qed.

(** C6 (amended). When no key file exists at the path, [_load_key] creates
    one and returns its content: the URL-safe base64 text of 32 random bytes,
    which is 44 bytes long. Every later call, in any world where the file
    still holds that content, returns the same bytes and changes nothing: no
    random byte is drawn and no new key is made. *)
Theorem load_key_creates_once (w : World) (file_path file_name : str) :
  fs w !! os_path_join file_path file_name = None ->
  exists (key : bytes) (w1 : World),
    _load_key file_path file_name w = (Return key, w1) /\
    fs w1 !! os_path_join file_path file_name = Some key /\
    key = urlsafe_b64encode (next_entropy 32 w) /\
    length (next_entropy 32 w) = 32%nat /\
    length key = 44%nat /\
    _load_key file_path file_name w1 = (Return key, w1) /\
    forall w2 : World,
      fs w2 !! os_path_join file_path file_name = Some key ->
      _load_key file_path file_name w2 = (Return key, w2).
Proof.
  intros Hf. exists (generated_key w). eexists.
  split; [by apply load_key_absent|].
  assert (fs (with_file (os_path_join file_path file_name) (generated_key w)
                        (consumed 32 w))
          !! os_path_join file_path file_name = Some (generated_key w)) as Hnew
    by (cbn [with_file fs]; apply lookup_insert_eq).
  split; [exact Hnew|]. split; [reflexivity|].
  split; [apply next_entropy_length|].
  split; [apply generated_key_length|].
  split; [by apply load_key_existing|].
  intros w2 Hw2. by apply load_key_existing.
Qed.

(** ** The cipher *)

Section cipher.
Context {F : FernetOps} {H : HashOps}.

(** What the first lines of [convert] do about the key. *)
Lemma convert_load_key_run (w : World) :
  convert_load_key w =
    match convert_key w with
    | Some k => (Return k, w)
    | None =>
        let w0 := with_event (EvLog "debug" (lit "Creating new key")) w in
        match fs w !! key_file with
        | Some k => (Return k, with_key (Some k) w0)
        | None =>
            (Return (generated_key w0),
             with_key (Some (generated_key w0))
                      (with_file key_file (generated_key w0) (consumed 32 w0)))
        end
    end.
Proof.
  unfold convert_load_key, bind, get_convert_key.
  destruct (convert_key w) as [k|]; [reflexivity|].
  unfold logging, emit, set_convert_key, ret.
  destruct (fs w !! key_file) as [k|] eqn:Hk.
  - rewrite (load_key_existing _ _ _ k); [reflexivity|]. exact Hk.
  - rewrite load_key_absent; [reflexivity|]. exact Hk.
Qed.

(** Afterwards the key is in [convert.key], and loading it called no Fernet
    primitive. *)
Lemma convert_load_key_post (w w1 : World) (k : bytes) :
  convert_load_key w = (Return k, w1) ->
  convert_key w1 = Some k /\
  filter is_fernet_call (trace w1) = filter is_fernet_call (trace w).
Proof.
  rewrite convert_load_key_run.
  destruct (convert_key w) as [k'|] eqn:Hc.
  - intros [= <- <-]. done.
  - cbn zeta. destruct (fs w !! key_file) as [k'|]; intros [= <- <-];
      cbn [with_key with_file consumed with_event convert_key trace];
      (split; [done|]); by rewrite filter_app, app_nil_r.
Qed.

Lemma convert_load_key_cached (w : World) (k : bytes) :
  convert_key w = Some k -> convert_load_key w = (Return k, w).
Proof. intros Hk. rewrite convert_load_key_run. by rewrite Hk. Qed.

End cipher.

Section convert_props.
Context {F : FernetOps} {FL : FernetLaws F}.

Lemma lit_encrypt_ne_decrypt : lit "encrypt" <> lit "decrypt".
Proof. intros E. vm_compute in E. discriminate E. Qed.

Lemma lit_write_ne_return : lit "write" <> lit "return".
Proof. intros E. vm_compute in E. discriminate E. Qed.

Lemma encrypt_conversion_type : lit "encrypt" ∈ conversion_types.
Proof. unfold conversion_types. rewrite elem_of_cons. by left. Qed.

Lemma decrypt_conversion_type : lit "decrypt" ∈ conversion_types.
Proof. unfold conversion_types. rewrite !elem_of_cons. right. by left. Qed.

Lemma storage_type_cases (st : str) :
  st ∈ storage_types -> st = lit "write" \/ st = lit "return".
Proof.
  unfold storage_types. rewrite !elem_of_cons, elem_of_nil. tauto.
Qed.

(** [convert] past its argument checks and the key. *)
Lemma convert_unfold (file_name ct file_path st : str) (w w1 : World) (k : bytes) :
  ct ∈ conversion_types -> st ∈ storage_types ->
  convert_load_key w = (Return k, w1) ->
  fernet_key_ok k = true ->
  convert file_name ct file_path st w =
    try_except
      (file_data <- read_file (os_path_join file_path file_name) ;;
       if bool_decide (file_data = []) then ret (Some file_data)
       else
         converted_data <-
           (if bool_decide (ct = lit "encrypt") then fer_encrypt k file_data
            else if bool_decide (ct = lit "decrypt") then fer_decrypt k file_data
            else raise UnboundLocalError) ;;
         if bool_decide (st = lit "write") then
           write_file (os_path_join file_path file_name) converted_data ;;;
           ret None
         else if bool_decide (st = lit "return") then
           ret (Some converted_data)
         else ret None)
      is_IOError
      (fun e =>
         logging "error" (lit "Could not open file " ++ os_path_join file_path file_name) ;;;
         raise e) w1.
Proof.
  intros Hct Hst Hk Hok. unfold convert.
  rewrite (bool_decide_eq_true_2 _ Hct), (bool_decide_eq_true_2 _ Hst). cbn [negb].
  unfold bind at 1. rewrite Hk.
  unfold bind at 1, Fernet. rewrite Hok. reflexivity.
Qed.

(** An empty file is handed back as it is. *)
Lemma convert_empty (file_name ct file_path st : str) (w w1 : World) (k : bytes) :
  ct ∈ conversion_types -> st ∈ storage_types ->
  convert_load_key w = (Return k, w1) ->
  fernet_key_ok k = true ->
  fs w1 !! os_path_join file_path file_name = Some [] ->
  convert file_name ct file_path st w = (Return (Some []), w1).
Proof.
  intros Hct Hst Hk Hok Hf.
  rewrite (convert_unfold _ _ _ _ w w1 k) by done.
  unfold try_except, bind, read_file. rewrite Hf. reflexivity.
Qed.

Lemma fer_encrypt_run (k d : bytes) (w : World) :
  fer_encrypt k d w = (Return (token_of k d w), encrypted k d w).
Proof. reflexivity. Qed.

Lemma convert_encrypt (file_name file_path st : str) (w w1 : World) (k d : bytes) :
  st ∈ storage_types ->
  convert_load_key w = (Return k, w1) ->
  fernet_key_ok k = true ->
  fs w1 !! os_path_join file_path file_name = Some d ->
  d <> [] ->
  convert file_name (lit "encrypt") file_path st w =
    if bool_decide (st = lit "write")
    then (Return None,
          with_file (os_path_join file_path file_name) (token_of k d w1) (encrypted k d w1))
    else (Return (Some (token_of k d w1)), encrypted k d w1).
Proof.
  intros Hst Hk Hok Hf Hd.
  rewrite (convert_unfold _ _ _ _ w w1 k); [|apply encrypt_conversion_type|done..].
  unfold try_except, bind at 1, read_file. rewrite Hf.
  rewrite (bool_decide_eq_false_2 _ Hd).
  rewrite (bool_decide_eq_true_2 (lit "encrypt" = lit "encrypt")) by done.
  unfold bind at 1. rewrite fer_encrypt_run.
  case_bool_decide as Hw; [reflexivity|].
  rewrite bool_decide_eq_true_2; [reflexivity|].
  destruct (storage_type_cases _ Hst); done.
Qed.

Lemma convert_decrypt (file_name file_path st : str) (w w1 : World) (k c d : bytes) :
  st ∈ storage_types ->
  convert_load_key w = (Return k, w1) ->
  fernet_key_ok k = true ->
  fs w1 !! os_path_join file_path file_name = Some c ->
  c <> [] ->
  fernet_decrypt k c = Some d ->
  convert file_name (lit "decrypt") file_path st w =
    if bool_decide (st = lit "write")
    then (Return None,
          with_file (os_path_join file_path file_name) d
                    (with_event (EvFernetDecrypt k c) w1))
    else (Return (Some d), with_event (EvFernetDecrypt k c) w1).
Proof.
  intros Hst Hk Hok Hf Hc Hd.
  rewrite (convert_unfold _ _ _ _ w w1 k); [|apply decrypt_conversion_type|done..].
  unfold try_except, bind at 1, read_file. rewrite Hf.
  rewrite (bool_decide_eq_false_2 _ Hc).
  rewrite (bool_decide_eq_false_2 (lit "decrypt" = lit "encrypt"))
    by (intros E; by apply lit_encrypt_ne_decrypt).
  rewrite (bool_decide_eq_true_2 (lit "decrypt" = lit "decrypt")) by done.
  unfold bind at 1, fer_decrypt, bind at 1, emit. rewrite Hd. unfold ret at 1.
  case_bool_decide as Hw; [reflexivity|].
  rewrite bool_decide_eq_true_2; [reflexivity|].
  destruct (storage_type_cases _ Hst); done.
Qed.

(** A malformed or foreign token makes decryption raise [InvalidToken]. *)
Lemma convert_decrypt_invalid (file_name file_path st : str) (w w1 : World) (k c : bytes) :
  st ∈ storage_types ->
  convert_load_key w = (Return k, w1) ->
  fernet_key_ok k = true ->
  fs w1 !! os_path_join file_path file_name = Some c ->
  c <> [] ->
  fernet_decrypt k c = None ->
  convert file_name (lit "decrypt") file_path st w =
    (Raise InvalidToken, with_event (EvFernetDecrypt k c) w1).
Proof.
  intros Hst Hk Hok Hf Hc Hd.
  rewrite (convert_unfold _ _ _ _ w w1 k); [|apply decrypt_conversion_type|done..].
  unfold try_except, bind at 1, read_file. rewrite Hf.
  rewrite (bool_decide_eq_false_2 _ Hc).
  rewrite (bool_decide_eq_false_2 (lit "decrypt" = lit "encrypt"))
    by (intros E; by apply lit_encrypt_ne_decrypt).
  rewrite (bool_decide_eq_true_2 (lit "decrypt" = lit "decrypt")) by done.
  unfold bind at 1, fer_decrypt, bind at 1, emit. rewrite Hd. reflexivity.
Qed.

(** A key Fernet refuses makes [convert] raise before it opens the file. *)
Lemma convert_bad_key (file_name ct file_path st : str) (w w1 : World) (k : bytes) :
  ct ∈ conversion_types -> st ∈ storage_types ->
  convert_load_key w = (Return k, w1) ->
  fernet_key_ok k = false ->
  convert file_name ct file_path st w =
    (Raise (ValueError "Fernet key must be 32 url-safe base64-encoded bytes."), w1).
Proof.
  intros Hct Hst Hk Hok. unfold convert.
  rewrite (bool_decide_eq_true_2 _ Hct), (bool_decide_eq_true_2 _ Hst). cbn [negb].
  unfold bind at 1. rewrite Hk.
  unfold bind at 1, Fernet. rewrite Hok. reflexivity.
Qed.

(** A missing file is logged and the exception passed on. *)
Lemma convert_missing_file (file_name ct file_path st : str) (w w1 : World) (k : bytes) :
  ct ∈ conversion_types -> st ∈ storage_types ->
  convert_load_key w = (Return k, w1) ->
  fernet_key_ok k = true ->
  fs w1 !! os_path_join file_path file_name = None ->
  convert file_name ct file_path st w =
    (Raise (FileNotFoundError (os_path_join file_path file_name)),
     with_event (EvLog "error" (lit "Could not open file "
                                ++ os_path_join file_path file_name)) w1).
Proof.
  intros Hct Hst Hk Hok Hf.
  rewrite (convert_unfold _ _ _ _ w w1 k) by done.
  unfold try_except, bind at 1, read_file. rewrite Hf. reflexivity.
Qed.


Lemma convert_load_key_total (w : World) :
  exists (k : bytes) (w1 : World), convert_load_key w = (Return k, w1).
Proof.
  rewrite convert_load_key_run.
  destruct (convert_key w); [by eexists _, _|].
  cbn zeta. destruct (fs w !! key_file); by eexists _, _.
Qed.

End convert_props.

Section cipher_theorems.
Context {F : FernetOps} {FL : FernetLaws F}.

(** C1. Let [k] be the key [convert] works with, accepted by Fernet, and let
    the file hold a non-empty buffer [b]. Encrypting the file in place leaves
    a token in it; decrypting that file returns exactly [b], and decrypting it
    in place restores [b]. Encrypting with ['return'] returns the same token,
    and decrypting any file that holds it, under the same key, returns [b]. *)
Theorem convert_decrypt_encrypt (file_name file_path : str) (w w1 : World) (k b : bytes) :
  convert_load_key w = (Return k, w1) ->
  fernet_key_ok k = true ->
  fs w1 !! os_path_join file_path file_name = Some b ->
  b <> [] ->
  exists (c : bytes) (w2 : World),
    convert file_name (lit "encrypt") file_path (lit "write") w = (Return None, w2) /\
    fs w2 !! os_path_join file_path file_name = Some c /\
    (exists w3 : World,
       convert file_name (lit "decrypt") file_path (lit "return") w2
         = (Return (Some b), w3)) /\
    (exists w3 : World,
       convert file_name (lit "decrypt") file_path (lit "write") w2 = (Return None, w3) /\
       fs w3 !! os_path_join file_path file_name = Some b) /\
    (exists w2' : World,
       convert file_name (lit "encrypt") file_path (lit "return") w
         = (Return (Some c), w2')) /\
    (forall (w' : World) (name' path' : str),
       convert_key w' = Some k ->
       fs w' !! os_path_join path' name' = Some c ->
       exists w3 : World,
         convert name' (lit "decrypt") path' (lit "return") w' = (Return (Some b), w3)).
Proof.
  intros Hk Hok Hf Hb.
  destruct (convert_load_key_post _ _ _ Hk) as [Hck _].
  set (p := os_path_join file_path file_name) in *.
  set (c := token_of k b w1).
  set (w2 := with_file p c (encrypted k b w1)).
  assert (Hc : c <> []) by apply fernet_token_nonempty.
  assert (Hdec : fernet_decrypt k c = Some b) by by apply fernet_decrypt_encrypt.
  assert (Hwrite : lit "write" ∈ storage_types)
    by (unfold storage_types; rewrite elem_of_cons; by left).
  assert (Hreturn : lit "return" ∈ storage_types)
    by (unfold storage_types; rewrite !elem_of_cons; right; by left).
  assert (Hnw : lit "return" <> lit "write")
    by (intros E; by apply lit_write_ne_return).
  assert (Hk2 : convert_load_key w2 = (Return k, w2))
    by (apply convert_load_key_cached; exact Hck).
  assert (Hf2 : fs w2 !! p = Some c) by (cbn [w2 with_file fs]; apply lookup_insert_eq).
  exists c, w2. split; [|split; [exact Hf2|]].
  { rewrite (convert_encrypt _ _ _ w w1 k b) by done.
    by rewrite (bool_decide_eq_true_2 (lit "write" = lit "write")). }
  split; [|split; [|split]].
  - exists (with_event (EvFernetDecrypt k c) w2).
    rewrite (convert_decrypt _ _ _ w2 w2 k c b) by done.
    by rewrite (bool_decide_eq_false_2 (lit "return" = lit "write")).
  - exists (with_file p b (with_event (EvFernetDecrypt k c) w2)).
    rewrite (convert_decrypt _ _ _ w2 w2 k c b) by done.
    rewrite (bool_decide_eq_true_2 (lit "write" = lit "write")) by done.
    split; [reflexivity|].
    cbn [with_file fs]. apply lookup_insert_eq.
  - exists (encrypted k b w1).
    rewrite (convert_encrypt _ _ _ w w1 k b) by done.
    by rewrite (bool_decide_eq_false_2 (lit "return" = lit "write")).
  - intros w' name' path' Hk' Hf'.
    exists (with_event (EvFernetDecrypt k c) w').
    pose proof (convert_load_key_cached w' k Hk') as Hk3.
    rewrite (convert_decrypt _ _ _ w' w' k c b) by done.
    by rewrite (bool_decide_eq_false_2 (lit "return" = lit "write")).
Qed.

(** C2. For every key Fernet accepts and each of the two conversions, with
    either storage type: when the file is empty, [convert] returns the empty
    byte string, leaves the world as it was once the key is in place (the
    file stays empty), and no call of the Fernet primitive is made. *)
Theorem convert_empty_passthrough
        (file_name ct file_path st : str) (w w1 : World) (k : bytes) :
  ct ∈ conversion_types -> st ∈ storage_types ->
  convert_load_key w = (Return k, w1) ->
  fernet_key_ok k = true ->
  fs w1 !! os_path_join file_path file_name = Some [] ->
  convert file_name ct file_path st w = (Return (Some []), w1) /\
  fs (snd (convert file_name ct file_path st w)) !! os_path_join file_path file_name
    = Some [] /\
  filter is_fernet_call (trace (snd (convert file_name ct file_path st w)))
    = filter is_fernet_call (trace w).
Proof.
  intros Hct Hst Hk Hok Hf.
  rewrite (convert_empty _ _ _ _ w w1 k) by done. cbn [snd].
  split; [done|]. split; [done|].
  by destruct (convert_load_key_post _ _ _ Hk).
Qed.

End cipher_theorems.

(** ** UTF-8: decoding what was encoded, and encoding what was decoded *)

Ltac byte_bounds :=
  repeat match goal with
         | |- context [Byte.to_N (byte_of_N ?n)] =>
             rewrite (byte_of_N_to_N n) by divlia
         end.

Ltac decide_cmp :=
  repeat match goal with
         | |- context [?a <? ?b] =>
             first [ rewrite (proj2 (N.ltb_lt a b)) by divlia
                   | rewrite (proj2 (N.ltb_ge a b)) by divlia ]
         | |- context [?a <=? ?b] =>
             first [ rewrite (proj2 (N.leb_le a b)) by divlia
                   | rewrite (proj2 (N.leb_gt a b)) by divlia ]
         | |- context [?a =? ?b] =>
             first [ rewrite (proj2 (N.eqb_eq a b)) by divlia
                   | rewrite (proj2 (N.eqb_neq a b)) by divlia ]
         end.

Lemma utf8_encode_char_encodable (c : N) :
  encodable c <-> is_Some (utf8_encode_char c).
Proof.
  unfold encodable, utf8_encode_char.
  destruct (N.ltb_spec c 0x80); [split; [by eexists|lia]|].
  destruct (N.ltb_spec c 0x800); [split; [by eexists|lia]|].
  destruct (N.ltb_spec c 0x10000).
  { destruct (N.leb_spec 0xD800 c); destruct (N.leb_spec c 0xDFFF); cbn [andb];
      (split; [intros; try (by eexists); lia | intros [? Hc]; try discriminate Hc; lia]). }
  destruct (N.ltb_spec c 0x110000); [split; [by eexists|lia]|].
  split; [lia|intros [? Hc]; discriminate Hc].
Qed.

Lemma utf8_encode_char_nonempty (c : N) (b : bytes) :
  utf8_encode_char c = Some b -> b <> [].
Proof.
  unfold utf8_encode_char.
  repeat match goal with |- context [if ?x then _ else _] => destruct x end;
    intros [= <-]; done.
Qed.

Lemma decode_utf8_encode_char (c : N) (b rest : bytes) :
  utf8_encode_char c = Some b ->
  decode_utf8 (b ++ rest) = cons c <$> decode_utf8 rest.
Proof.
  unfold utf8_encode_char.
  destruct (N.ltb_spec c 0x80).
  { intros [= <-]. cbn [app decode_utf8]. byte_bounds. by decide_cmp. }
  destruct (N.ltb_spec c 0x800).
  { intros [= <-]. cbn [app decode_utf8]. unfold is_cont. byte_bounds.
    decide_cmp. cbn [andb]. f_equal. f_equal. divlia. }
  destruct (N.ltb_spec c 0x10000).
  { destruct (N.leb_spec 0xD800 c); destruct (N.leb_spec c 0xDFFF);
      cbn [andb]; try discriminate;
      intros [= <-]; cbn [app decode_utf8]; unfold is_cont; byte_bounds.
    all: destruct (N.eqb_spec (0xE0 + c / 4096) 0xE0);
      destruct (N.eqb_spec (0xE0 + c / 4096) 0xED);
      decide_cmp; cbn [andb negb]; try (exfalso; divlia);
      f_equal; f_equal; divlia. }
  destruct (N.ltb_spec c 0x110000); [|discriminate].
  intros [= <-]. cbn [app decode_utf8]. unfold is_cont. byte_bounds.
  destruct (N.eqb_spec (0xF0 + c / 262144) 0xF0);
    destruct (N.eqb_spec (0xF0 + c / 262144) 0xF4);
    decide_cmp; cbn [andb negb]; try (exfalso; divlia); f_equal; f_equal; divlia.
Qed.

Lemma decode_encode_utf8 (s : str) (b : bytes) :
  encode_utf8 s = Some b -> decode_utf8 b = Some s.
Proof.
  revert b. induction s as [|c s IH]; intros b; cbn [encode_utf8].
  - by intros [= <-].
  - destruct (utf8_encode_char c) as [bc|] eqn:Hc; [|discriminate].
    destruct (encode_utf8 s) as [bs|]; [|discriminate].
    intros [= <-]. rewrite (decode_utf8_encode_char c) by done.
    by rewrite (IH bs).
Qed.

Ltac bool_props H :=
  unfold is_cont in H;
  rewrite ?andb_true_iff, ?negb_true_iff, ?andb_false_iff, ?N.leb_le, ?N.ltb_lt,
    ?N.leb_gt, ?N.ltb_ge, ?N.eqb_eq, ?N.eqb_neq in H.

Lemma fmap_cons_Some (c : N) (o : option str) (s : str) :
  cons c <$> o = Some s -> exists s', o = Some s' /\ s = c :: s'.
Proof. destruct o as [s'|]; [|discriminate]. intros [= <-]. by exists s'. Qed.

Lemma decode_utf8_encodable_aux (n : nat) :
  forall (b : bytes) (s : str),
    (length b <= n)%nat -> decode_utf8 b = Some s -> Forall encodable s.
Proof.
  induction n as [|n IH]; intros b s Hn.
  - destruct b; [|simpl in Hn; lia]. intros [= <-]. constructor.
  - destruct b as [|b1 l1]; [intros [= <-]; constructor|].
    cbn [decode_utf8]. cbn [length] in Hn.
    pose proof (byte_to_N_lt b1) as Hb1.
    destruct (N.ltb_spec (Byte.to_N b1) 0x80).
    { intros (s' & Hs' & ->)%fmap_cons_Some. constructor.
      - unfold encodable. lia.
      - apply (IH l1); [lia|done]. }
    destruct (N.ltb_spec (Byte.to_N b1) 0xC2); [discriminate|].
    destruct l1 as [|b2 l2]; [discriminate|]. cbn [length] in Hn.
    pose proof (byte_to_N_lt b2) as Hb2.
    destruct (N.ltb_spec (Byte.to_N b1) 0xE0).
    { destruct (is_cont (Byte.to_N b2)) eqn:E2; [|discriminate]. bool_props E2.
      intros (s' & Hs' & ->)%fmap_cons_Some. constructor.
      - unfold encodable. lia.
      - apply (IH l2); [lia|done]. }
    destruct l2 as [|b3 l3]; [discriminate|]. cbn [length] in Hn.
    pose proof (byte_to_N_lt b3) as Hb3.
    destruct (N.ltb_spec (Byte.to_N b1) 0xF0).
    { match goal with |- (if ?c then _ else _) = _ -> _ => destruct c eqn:E end;
        [|discriminate].
      bool_props E.
      intros (s' & Hs' & ->)%fmap_cons_Some. constructor.
      - unfold encodable. lia.
      - apply (IH l3); [lia|done]. }
    destruct l3 as [|b4 l4]; [discriminate|]. cbn [length] in Hn.
    pose proof (byte_to_N_lt b4) as Hb4.
    match goal with |- (if ?c then _ else _) = _ -> _ => destruct c eqn:E end;
      [|discriminate].
    bool_props E.
    intros (s' & Hs' & ->)%fmap_cons_Some. constructor.
    + unfold encodable. lia.
    + apply (IH l4); [lia|done].
Qed.

Lemma decode_utf8_encodable (b : bytes) (s : str) :
  decode_utf8 b = Some s -> Forall encodable s.
Proof. apply (decode_utf8_encodable_aux (length b)). lia. Qed.

Lemma encode_utf8_app (s1 s2 : str) (b1 b2 : bytes) :
  encode_utf8 s1 = Some b1 -> encode_utf8 s2 = Some b2 ->
  encode_utf8 (s1 ++ s2) = Some (b1 ++ b2).
Proof.
  revert b1. induction s1 as [|c s1 IH]; intros b1; cbn [encode_utf8 app].
  - by intros [= <-].
  - destruct (utf8_encode_char c) as [bc|]; [|discriminate].
    destruct (encode_utf8 s1) as [bs|]; [|discriminate].
    intros [= <-] H2. rewrite (IH bs) by done. by rewrite app_assoc.
Qed.

Lemma encode_utf8_encodable (s : str) :
  Forall encodable s <-> is_Some (encode_utf8 s).
Proof.
  induction s as [|c s IH]; cbn [encode_utf8].
  - split; [by eexists|constructor].
  - rewrite Forall_cons, IH, utf8_encode_char_encodable.
    destruct (utf8_encode_char c), (encode_utf8 s); unfold is_Some; naive_solver.
Qed.

Lemma encode_utf8_nil_inv (s : str) : encode_utf8 s = Some [] -> s = [].
Proof.
  destruct s as [|c s]; [done|]. cbn [encode_utf8].
  destruct (utf8_encode_char c) as [bc|] eqn:Hc; [|discriminate].
  destruct (encode_utf8 s); [|discriminate].
  intros [= E]. apply utf8_encode_char_nonempty in Hc.
  by destruct bc.
Qed.

(** ** [rstrip] and [split] *)

Lemma rstrip_cons (c : N) (s : str) :
  rstrip (c :: s) = match rstrip s with
                    | [] => if py_isspace c then [] else [c]
                    | r => c :: r
                    end.
Proof. reflexivity. Qed.

Lemma rstrip_snoc_keep (s : str) (c : N) :
  py_isspace c = false -> rstrip (s ++ [c]) = s ++ [c].
Proof.
  intros Hc. induction s as [|d s IH].
  - cbn. by rewrite Hc.
  - cbn [app]. rewrite rstrip_cons, IH. by destruct s.
Qed.

Lemma rstrip_snoc_drop (s : str) (c : N) :
  py_isspace c = true -> rstrip (s ++ [c]) = rstrip s.
Proof.
  intros Hc. induction s as [|d s IH].
  - cbn. by rewrite Hc.
  - cbn [app]. by rewrite !rstrip_cons, IH.
Qed.

Lemma rstrip_app_keep (s1 s2 : str) :
  rstrip s2 <> [] -> rstrip (s1 ++ s2) = s1 ++ rstrip s2.
Proof.
  intros H2. induction s1 as [|d s1 IH]; [done|].
  cbn [app]. rewrite rstrip_cons, IH.
  destruct (s1 ++ rstrip s2) eqn:E; [|done].
  by apply app_eq_nil in E as [_ ?].
Qed.

Lemma rstrip_Forall (P : N -> Prop) (s : str) : Forall P s -> Forall P (rstrip s).
Proof.
  induction 1 as [|c s Hc Hs IH]; [constructor|].
  rewrite rstrip_cons. destruct (rstrip s).
  - destruct (py_isspace c); by repeat constructor.
  - by constructor.
Qed.

Lemma rstrip_idemp (s : str) : rstrip (rstrip s) = rstrip s.
Proof.
  induction s as [|c s IH]; [done|].
  rewrite rstrip_cons. destruct (rstrip s) as [|d r] eqn:E.
  - destruct (py_isspace c) eqn:Hc; [done|]. cbn. by rewrite Hc.
  - rewrite rstrip_cons, IH. done.
Qed.

Lemma split_cons (sep c : N) (s : str) :
  split sep (c :: s) =
    if c =? sep then [] :: split sep s
    else match split sep s with
         | h :: t => (c :: h) :: t
         | [] => [[c]]
         end.
Proof. reflexivity. Qed.

Lemma split_nonempty (sep : N) (s : str) : split sep s <> [].
Proof.
  induction s as [|c s IH]; [done|]. rewrite split_cons.
  destruct (c =? sep); [done|]. by destruct (split sep s).
Qed.

Lemma split_app_sep (sep : N) (l rest : str) :
  sep ∉ l -> split sep (l ++ sep :: rest) = l :: split sep rest.
Proof.
  induction l as [|c l IH]; intros Hl.
  - cbn [app]. rewrite split_cons. by rewrite N.eqb_refl.
  - apply not_elem_of_cons in Hl as [Hc Hl]. cbn [app]. rewrite split_cons.
    destruct (N.eqb_spec c sep); [congruence|]. by rewrite IH.
Qed.

Lemma split_no_sep (sep : N) (l : str) : sep ∉ l -> split sep l = [l].
Proof.
  induction l as [|c l IH]; intros Hl; [done|].
  apply not_elem_of_cons in Hl as [Hc Hl]. rewrite split_cons.
  destruct (N.eqb_spec c sep); [congruence|]. by rewrite IH.
Qed.

Lemma split_pieces (sep : N) (s : str) : Forall (fun l => sep ∉ l) (split sep s).
Proof.
  induction s as [|c s IH]; [repeat constructor; apply not_elem_of_nil|].
  rewrite split_cons. destruct (N.eqb_spec c sep).
  - constructor; [apply not_elem_of_nil|done].
  - destruct (split sep s) as [|h t]; [repeat constructor; set_solver|].
    inversion IH; subst. constructor; [|done].
    apply not_elem_of_cons. split; [congruence|done].
Qed.

Lemma split_Forall (P : N -> Prop) (sep : N) (s : str) :
  Forall P s -> Forall (Forall P) (split sep s).
Proof.
  induction 1 as [|c s Hc Hs IH]; [repeat constructor|].
  rewrite split_cons. destruct (c =? sep); [by repeat constructor|].
  destruct (split sep s) as [|h t]; [by repeat constructor|].
  inversion IH; subst. by repeat constructor.
Qed.

Lemma rstrip_no_sep (sep : N) (s : str) : sep ∉ s -> sep ∉ rstrip s.
Proof.
  intros Hs Hr. apply Hs. clear Hs. revert Hr.
  induction s as [|c s IH]; [done|]. rewrite rstrip_cons.
  destruct (rstrip s) as [|d r].
  - destruct (py_isspace c); [by intros ?%elem_of_nil|].
    intros ->%list_elem_of_singleton. by left.
  - intros [->|Hr]%elem_of_cons; [by left|]. right. by apply IH.
Qed.

(** ** The registry text *)

Lemma NL_isspace : py_isspace NL = true.
Proof. reflexivity. Qed.

Lemma registry_text_snoc (L : list str) (l : str) :
  registry_text (L ++ [l]) = registry_text L ++ l ++ [NL].
Proof.
  unfold registry_text. rewrite fmap_app, concat_app. cbn. by rewrite app_nil_r.
Qed.

Lemma split_registry_text (L : list str) (l : str) :
  Forall (fun x => NL ∉ x) L -> NL ∉ l ->
  split NL (registry_text L ++ l) = L ++ [l].
Proof.
  intros HL Hl. induction HL as [|x L Hx HL IH].
  - cbn. by apply split_no_sep.
  - unfold registry_text in *. cbn [fmap list_fmap concat app].
    rewrite <- !app_assoc. cbn [app]. rewrite split_app_sep by done.
    by rewrite IH.
Qed.

Lemma registry_lines_clean (text : str) : Forall clean_line (registry_lines text).
Proof.
  unfold registry_lines. case_bool_decide; [constructor|].
  apply Forall_fmap. eapply Forall_impl; [apply (split_pieces NL)|].
  intros l Hl. split; [by apply rstrip_no_sep|apply rstrip_idemp].
Qed.

Lemma registry_lines_text (L : list str) (l : str) :
  Forall clean_line L -> clean_line l -> l <> [] ->
  registry_lines (registry_text (L ++ [l])) = L ++ [l].
Proof.
  intros HL [Hl1 Hl2] Hl. unfold registry_lines.
  rewrite registry_text_snoc.
  assert (rstrip (l ++ [NL]) = l) as Hr
    by (rewrite rstrip_snoc_drop by apply NL_isspace; done).
  rewrite rstrip_app_keep by (by rewrite Hr). rewrite Hr.
  rewrite split_registry_text; [|by eapply Forall_impl; [exact HL|intros ? []]|done].
  assert (rstrip <$> (L ++ [l]) = L ++ [l]) as ->.
  { rewrite fmap_app. cbn. rewrite Hl2. f_equal.
    clear -HL. induction HL as [|x L [_ Hx] HL IH]; [done|].
    cbn. by rewrite Hx, IH. }
  case_bool_decide as E; [|done].
  destruct L; cbn in E; [by injection E|]. by destruct L.
Qed.

Lemma registry_lines_encodable (text : str) :
  Forall encodable text -> Forall (Forall encodable) (registry_lines text).
Proof.
  intros Ht. unfold registry_lines. case_bool_decide; [constructor|].
  apply Forall_fmap. eapply Forall_impl.
  - apply split_Forall, rstrip_Forall, Ht.
  - intros l Hl. by apply rstrip_Forall.
Qed.

Lemma NL_encodable : encodable NL.
Proof. unfold encodable, NL. lia. Qed.

Lemma registry_text_encodable (L : list str) :
  Forall (Forall encodable) L -> Forall encodable (registry_text L).
Proof.
  induction 1 as [|l L Hl HL IH]; [constructor|].
  unfold registry_text in *. cbn. rewrite <- app_assoc.
  apply Forall_app; split; [done|]. constructor; [apply NL_encodable|done].
Qed.

Lemma page_records_snoc (page : str) (L : list str) (l : str) :
  page_records page (L ++ [l]) =
    (page_records page L + (if bool_decide (line_page l = page) then 1 else 0))%nat.
Proof.
  unfold page_records. rewrite filter_app, length_app. f_equal.
  rewrite filter_cons, filter_nil. case_decide; by case_bool_decide.
Qed.

Lemma line_page_new (page h : str) : TAB ∉ page -> line_page (page ++ TAB :: h) = page.
Proof. intros Hp. unfold line_page. by rewrite split_app_sep. Qed.

(** ** Records survive the stripping of their lines *)

Lemma TAB_isspace : py_isspace TAB = true.
Proof. reflexivity. Qed.

Lemma rstrip_app_drop (a b : str) : rstrip b = [] -> rstrip (a ++ b) = rstrip a.
Proof.
  intros Hb. induction a as [|c a IH]; [done|].
  cbn [app]. by rewrite !rstrip_cons, IH.
Qed.

(** A string cut at its first separator. *)
Lemma split_first (sep : N) (s : str) :
  ((sep ∉ s) /\ split sep s = [s]) \/
  (exists a r, s = a ++ sep :: r /\ (sep ∉ a) /\ split sep s = a :: split sep r).
Proof.
  induction s as [|c s IH].
  - left. split; [apply not_elem_of_nil|done].
  - destruct (N.eqb_spec c sep) as [->|Hc].
    + right. exists [], s. split; [done|]. split; [apply not_elem_of_nil|].
      rewrite split_cons. by rewrite N.eqb_refl.
    + destruct IH as [[Hs _]|(a & r & -> & Ha & _)].
      * left. assert (sep ∉ c :: s) by (apply not_elem_of_cons; split; [congruence|done]).
        split; [done|]. by apply split_no_sep.
      * right. exists (c :: a), r. split; [done|].
        assert (sep ∉ c :: a) by (apply not_elem_of_cons; split; [congruence|done]).
        split; [done|]. by apply (split_app_sep sep (c :: a)).
Qed.

Lemma rstrip_cons_keep (c : N) (s : str) : rstrip s <> [] -> rstrip (c :: s) = c :: rstrip s.
Proof. intros H. rewrite rstrip_cons. by destruct (rstrip s). Qed.

(** The first field of a string, stripped, survives stripping the string. *)
Lemma first_field_rstrip (r s1 : str) (t : list str) :
  split TAB r = s1 :: t -> rstrip s1 <> [] ->
  rstrip r <> [] /\
  exists s1' t', split TAB (rstrip r) = s1' :: t' /\ rstrip s1' = rstrip s1.
Proof.
  intros Hsplit Hs1.
  destruct (split_first TAB r) as [[Hr Hone]|(a & r2 & -> & Ha & Hcut)].
  - rewrite Hone in Hsplit. injection Hsplit as <- <-.
    split; [done|]. exists (rstrip r), [].
    split; [|apply rstrip_idemp]. by apply split_no_sep, rstrip_no_sep.
  - rewrite Hcut in Hsplit. injection Hsplit as <- <-.
    destruct (rstrip (TAB :: r2)) as [|x y] eqn:Hrest.
    + rewrite rstrip_app_drop by done. split; [done|].
      exists (rstrip a), []. split; [|apply rstrip_idemp].
      by apply split_no_sep, rstrip_no_sep.
    + assert (rstrip r2 <> []) as Hr2.
      { intros E. rewrite rstrip_cons, E, TAB_isspace in Hrest. discriminate. }
      rewrite rstrip_app_keep by (by rewrite Hrest).
      split; [by destruct a|].
      rewrite rstrip_cons_keep by done.
      exists a, (split TAB (rstrip r2)). split; [by apply split_app_sep|done].
Qed.

Lemma parse_line_rstrip (l p st : str) :
  parse_line l = Some (p, st) -> st <> [] -> parse_line (rstrip l) = Some (p, st).
Proof.
  unfold parse_line.
  destruct (split_first TAB l) as [[_ Hone]|(a & r & -> & Ha & Hcut)].
  - by rewrite Hone.
  - rewrite Hcut. destruct (split TAB r) as [|s1 t] eqn:Hr; [done|].
    intros [= <- <-] Hst.
    destruct (first_field_rstrip r s1 t Hr Hst) as (Hne & s1' & t' & Hcut' & Heq).
    rewrite rstrip_app_keep by (by rewrite rstrip_cons_keep).
    rewrite rstrip_cons_keep by done.
    rewrite split_app_sep by done. rewrite Hcut'. by rewrite Heq.
Qed.

Lemma parse_line_new (page h : str) :
  TAB ∉ page -> TAB ∉ h -> rstrip h = h -> parse_line (page ++ TAB :: h) = Some (page, h).
Proof.
  intros Hp Hh Hr. unfold parse_line.
  rewrite split_app_sep by done. rewrite split_no_sep by done. by rewrite Hr.
Qed.

(** A stored record is kept under its index. *)
Lemma registry_lines_keep_record (text : str) (i : nat) (raw p st : str) :
  raw_lines text !! i = Some raw ->
  parse_line raw = Some (p, st) -> st <> [] ->
  exists kept : str,
    registry_lines text !! i = Some kept /\ parse_line kept = Some (p, st).
Proof.
  intros Hi Hp Hst. exists (rstrip raw). split; [|by apply parse_line_rstrip].
  unfold registry_lines. fold (raw_lines text).
  assert (Hlook : (rstrip <$> raw_lines text) !! i = Some (rstrip raw))
    by (by rewrite list_lookup_fmap, Hi).
  case_bool_decide as E; [|done].
  exfalso. rewrite E in Hlook. destruct i as [|i]; [|done].
  injection Hlook as Hraw. pose proof (parse_line_rstrip raw p st Hp Hst) as Hp'.
  by rewrite <- Hraw in Hp'.
Qed.

Lemma encode_utf8_app_inv (s1 s2 : str) (b : bytes) :
  encode_utf8 (s1 ++ s2) = Some b ->
  exists b1 b2, encode_utf8 s1 = Some b1 /\ encode_utf8 s2 = Some b2 /\ b = b1 ++ b2.
Proof.
  revert b. induction s1 as [|c s1 IH]; intros b; cbn [encode_utf8 app].
  - intros Hb. by exists [], b.
  - destruct (utf8_encode_char c) as [bc|]; [|discriminate].
    destruct (encode_utf8 (s1 ++ s2)) as [bs|]; [|discriminate].
    intros [= <-]. destruct (IH bs eq_refl) as (b1 & b2 & -> & -> & ->).
    exists (bc ++ b1), b2. by rewrite app_assoc.
Qed.

Lemma with_file_with_file (path : str) (a b : bytes) (w : World) :
  with_file path a (with_file path b w) = with_file path a w.
Proof. unfold with_file. cbn [fs convert_key entropy entropy_pos now trace]. by rewrite insert_insert_eq. Qed.

Lemma writelines_run (path : str) (lines : list str) :
  forall (w : World) (old enc : bytes),
    fs w !! path = Some old ->
    encode_utf8 (concat lines) = Some enc ->
    writelines path lines w = (Return tt, with_file path (old ++ enc) w).
Proof.
  induction lines as [|l lines IH]; intros w old enc Hold; cbn [concat writelines].
  - intros [= <-]. rewrite app_nil_r. unfold ret, with_file. destruct w; cbn in *.
    by rewrite insert_id.
  - intros (bl & br & Hl & Hr & ->)%encode_utf8_app_inv.
    unfold bind at 1, str_encode. rewrite Hl. unfold ret at 1.
    unfold bind, append_file. rewrite Hold. cbn [default].
    rewrite (IH _ (old ++ bl) br); [|cbn [with_file fs]; apply lookup_insert_eq|done].
    by rewrite with_file_with_file, app_assoc.
Qed.

Lemma writelines_fail (path : str) (lines : list str) :
  forall w : World,
    encode_utf8 (concat lines) = None ->
    exists w' : World, writelines path lines w = (Raise UnicodeEncodeError, w').
Proof.
  induction lines as [|l lines IH]; intros w; cbn [concat writelines]; [discriminate|].
  intros Hnone. unfold bind at 1, str_encode.
  destruct (encode_utf8 l) as [bl|] eqn:Hl; [|by eexists].
  destruct (encode_utf8 (concat lines)) as [br|] eqn:Hr.
  - by rewrite (encode_utf8_app _ _ bl br) in Hnone.
  - unfold ret at 1, bind, append_file. apply IH. done.
Qed.

Lemma write_text_lines_fail (path : str) (lines : list str) (w : World) :
  encode_utf8 (concat lines) = None ->
  exists w' : World, write_text_lines path lines w = (Raise UnicodeEncodeError, w').
Proof.
  intros Hnone. unfold write_text_lines, bind, write_file.
  by apply writelines_fail.
Qed.

Lemma write_text_lines_run (path : str) (lines : list str) (w : World) (enc : bytes) :
  encode_utf8 (concat lines) = Some enc ->
  write_text_lines path lines w = (Return tt, with_file path enc w).
Proof.
  intros Henc. unfold write_text_lines, bind, write_file.
  rewrite (writelines_run path lines _ [] enc);
    [|cbn [with_file fs]; apply lookup_insert_eq|done].
  by rewrite with_file_with_file.
Qed.

(** ** Appending to the registry *)

Section registry.
Context {F : FernetOps} {H : HashOps} {FL : FernetLaws F} {HL : HashLaws H}.

Lemma return_storage_type : lit "return" ∈ storage_types.
Proof. unfold storage_types. rewrite !elem_of_cons. right. by left. Qed.

Lemma write_storage_type : lit "write" ∈ storage_types.
Proof. unfold storage_types. rewrite !elem_of_cons. by left. Qed.

Lemma hash_in_length (w : World) (pw : bytes) : length (hash_in w pw) = 192%nat.
Proof.
  unfold hash_in.
  by rewrite str_of_bytes_length, length_app, salt_bytes_length, derived_hex_length.
Qed.

Lemma hash_in_hex (w : World) (pw : bytes) : Forall is_hex_char (hash_in w pw).
Proof.
  unfold hash_in. rewrite str_of_bytes_app. apply Forall_app. split; apply hexlify_hex.
Qed.

Lemma hex_rstrip (h : str) : Forall is_hex_char h -> rstrip h = h.
Proof.
  destruct h as [|c h0 _] using rev_ind; [done|].
  intros [_ Hc]%Forall_app. inversion Hc; subst.
  by apply rstrip_snoc_keep, is_hex_char_not_space.
Qed.

Lemma hex_no_TAB (h : str) : Forall is_hex_char h -> TAB ∉ h.
Proof.
  rewrite Forall_forall. intros Hh Hin. specialize (Hh _ Hin).
  unfold is_hex_char, TAB in Hh. lia.
Qed.

Lemma is_hex_char_encodable (c : N) : is_hex_char c -> encodable c.
Proof. unfold is_hex_char, encodable. lia. Qed.

(** A new line is clean: the hash ends in a hex digit and has no newline. *)
Lemma new_line_clean (page : str) (w : World) (pw : bytes) :
  NL ∉ page -> clean_line (page ++ TAB :: hash_in w pw).
Proof.
  intros Hp. pose proof (hash_in_hex w pw) as Hhex.
  pose proof (hash_in_length w pw) as Hlen.
  destruct (hash_in w pw) as [|c0 h0] eqn:E using rev_ind; [cbn in Hlen; lia|].
  clear IHh0. apply Forall_app in Hhex as [Hh0 Hc0].
  inversion Hc0 as [|? ? Hc _]; subst. split.
  - rewrite elem_of_app, elem_of_cons, elem_of_app, list_elem_of_singleton.
    intros [?|[?|[Hin|Heq]]]; try done.
    + rewrite Forall_forall in Hh0.
      apply (is_hex_char_not_NL NL); [by apply Hh0|done].
    + subst c0. by apply (is_hex_char_not_NL NL).
  - change (page ++ TAB :: h0 ++ [c0]) with (page ++ (TAB :: h0) ++ [c0]).
    rewrite app_assoc. apply rstrip_snoc_keep. by apply is_hex_char_not_space.
Qed.

Lemma new_line_encodable (page : str) (w : World) (pw fnb : bytes) :
  encode_utf8 page = Some fnb -> Forall encodable (page ++ TAB :: hash_in w pw).
Proof.
  intros Hp. apply Forall_app. split.
  - apply encode_utf8_encodable. by eexists.
  - constructor; [unfold encodable, TAB; lia|].
    eapply Forall_impl; [apply hash_in_hex|]. apply is_hex_char_encodable.
Qed.

(** The first statement of [_store_password]: the bytes it reads. *)
Lemma read_registry_run (password_file : str) (w w1 : World) (k c : bytes) (text : str) :
  convert_load_key w = (Return k, w1) ->
  fernet_key_ok k = true ->
  fs w1 !! registry_path password_file = Some c ->
  stored_text k c = Some text ->
  exists b : bytes,
    convert password_file (lit "decrypt") (lit "Storage") (lit "return") w
      = (Return (Some b), after_read k c w1) /\
    decode_utf8 b = Some text.
Proof.
  intros Hk Hok Hf Ht. unfold stored_text, after_read in *.
  case_bool_decide as Hc.
  - subst c. injection Ht as <-. exists []. split; [|done].
    apply (convert_empty _ _ _ _ w w1 k);
      [apply decrypt_conversion_type|apply return_storage_type|done..].
  - destruct (fernet_decrypt k c) as [b|] eqn:Hd; [|discriminate].
    exists b. split; [|done].
    rewrite (convert_decrypt _ _ _ w w1 k c b); [|apply return_storage_type|done..].
    by rewrite (bool_decide_eq_false_2 (lit "return" = lit "write"))
      by (intros E; by apply lit_write_ne_return).
Qed.

(** What [_store_password] does when the registry can be read and the page
    name and the password can be encoded. *)
Lemma store_password_run
      (file_name password password_file : str) (w w1 : World) (k c : bytes)
      (text : str) (fnb pw : bytes) :
  convert_load_key w = (Return k, w1) ->
  fernet_key_ok k = true ->
  fs w1 !! registry_path password_file = Some c ->
  stored_text k c = Some text ->
  encode_utf8 file_name = Some fnb ->
  encode_utf8 password = Some pw ->
  let h := hash_in (after_read k c w1) pw in
  let data := registry_lines text ++ [file_name ++ TAB :: h] in
  exists (w' : World) (c' : bytes),
    _store_password file_name password password_file w = (Return tt, w') /\
    fs w' !! registry_path password_file = Some c' /\
    stored_text k c' = Some (registry_text data).
Proof.
  intros Hk Hok Hf Ht Hfn Hpw h data.
  destruct (convert_load_key_post _ _ _ Hk) as [Hck _].
  set (wA := after_read k c w1) in *.
  assert (HckA : convert_key wA = Some k)
    by (unfold wA, after_read; by case_bool_decide).
  assert (Henc : Forall encodable (registry_text data)).
  { apply registry_text_encodable. apply Forall_app. split.
    - apply registry_lines_encodable.
      unfold stored_text in Ht. case_bool_decide; [injection Ht as <-; constructor|].
      destruct (fernet_decrypt k c); [|discriminate]. by eapply decode_utf8_encodable.
    - constructor; [|constructor]. by eapply new_line_encodable. }
  apply encode_utf8_encodable in Henc as [plain Hplain].
  assert (Hne : plain <> []).
  { intros ->. apply encode_utf8_nil_inv in Hplain. unfold data in Hplain.
    rewrite registry_text_snoc in Hplain.
    apply app_eq_nil in Hplain as [_ Hx]. apply app_eq_nil in Hx as [_ Hx]. done. }
  set (wC := with_file (registry_path password_file) plain (consumed 60 wA)).
  set (c' := token_of k plain wC).
  exists (with_event (EvThread "gdrive.save_file"
                               [password_file; lit "Password"; lit "Storage"])
                     (with_file (registry_path password_file) c' (encrypted k plain wC))),
    c'.
  split; [|split].
  - destruct (read_registry_run password_file w w1 k c text) as (b & Hconv & Hb);
      try done.
    unfold _store_password. unfold bind at 1. rewrite Hconv.
    unfold bind at 1, bytes_decode. rewrite Hb. unfold ret at 1.
    unfold bind at 1. rewrite (get_password_hash_run wA password pw) by done.
    fold wA. fold (hash_in wA pw). fold h. fold data.
    unfold bind at 1. fold (registry_path password_file).
    rewrite (write_text_lines_run _ _ _ plain) by exact Hplain. fold wC.
    unfold bind at 1.
    rewrite (convert_encrypt _ _ _ wC wC k plain);
      [|apply write_storage_type|by apply convert_load_key_cached|done
       |cbn [wC with_file fs]; apply lookup_insert_eq|done].
    rewrite (bool_decide_eq_true_2 (lit "write" = lit "write")) by done.
    reflexivity.
  - cbn [with_event with_file fs]. apply lookup_insert_eq.
  - unfold stored_text.
    rewrite bool_decide_eq_false_2 by apply fernet_token_nonempty.
    unfold c', token_of. rewrite fernet_decrypt_encrypt by done.
    by apply decode_encode_utf8.
Qed.

(** Conversely, [_store_password] returns only then. *)
Lemma store_password_success_inv
      (file_name password password_file : str) (w w' : World) :
  _store_password file_name password password_file w = (Return tt, w') ->
  exists (k : bytes) (w1 : World) (c : bytes) (text : str) (fnb pw : bytes),
    convert_load_key w = (Return k, w1) /\
    fernet_key_ok k = true /\
    fs w1 !! registry_path password_file = Some c /\
    stored_text k c = Some text /\
    encode_utf8 file_name = Some fnb /\
    encode_utf8 password = Some pw.
Proof.
  intros Hrun. destruct (convert_load_key_total w) as (k & w1 & Hk).
  unfold _store_password in Hrun. unfold bind at 1 in Hrun.
  destruct (fernet_key_ok k) eqn:Hok.
  2: { rewrite (convert_bad_key _ _ _ _ w w1 k) in Hrun;
         [discriminate|apply decrypt_conversion_type|apply return_storage_type|done..]. }
  destruct (fs w1 !! registry_path password_file) as [c|] eqn:Hf.
  2: { rewrite (convert_missing_file _ _ _ _ w w1 k) in Hrun;
         [discriminate|apply decrypt_conversion_type|apply return_storage_type|done..]. }
  destruct (stored_text k c) as [text|] eqn:Ht.
  2: { unfold stored_text in Ht. case_bool_decide as Hc; [discriminate|].
       destruct (fernet_decrypt k c) as [b|] eqn:Hd.
       - rewrite (convert_decrypt _ _ _ w w1 k c b) in Hrun;
           [|apply return_storage_type|done..].
         rewrite (bool_decide_eq_false_2 (lit "return" = lit "write")) in Hrun
           by (intros E; by apply lit_write_ne_return).
         unfold bind at 1, bytes_decode in Hrun. rewrite Ht in Hrun. discriminate.
       - rewrite (convert_decrypt_invalid _ _ _ w w1 k c) in Hrun;
           [discriminate|apply return_storage_type|done..]. }
  destruct (read_registry_run password_file w w1 k c text) as (b & Hconv & Hb);
    try done.
  rewrite Hconv in Hrun. unfold bind at 1, bytes_decode in Hrun. rewrite Hb in Hrun.
  unfold ret at 1 in Hrun. unfold bind at 1 in Hrun.
  destruct (encode_utf8 password) as [pw|] eqn:Hpw.
  2: { rewrite (get_password_hash_unencodable _ _ Hpw) in Hrun. discriminate. }
  rewrite (get_password_hash_run _ _ pw Hpw) in Hrun.
  destruct (encode_utf8 file_name) as [fnb|] eqn:Hfn; [by eexists k, w1, c, text, _, _|].
  exfalso. unfold bind at 1 in Hrun.
  match type of Hrun with
  | context [write_text_lines ?path ?lines ?w0] =>
      destruct (write_text_lines_fail path lines w0) as [w2 Hw]
  end.
  - match goal with |- encode_utf8 ?t = None => destruct (encode_utf8 t) eqn:E end;
      [|done].
    fold (registry_text
            (registry_lines text ++
               [file_name ++ TAB :: str_of_bytes
                  (salt_bytes (after_read k c w1) ++
                   hexlify (derived_key pw (salt_bytes (after_read k c w1))))])) in E.
    rewrite registry_text_snoc in E.
    apply encode_utf8_app_inv in E as (? & ? & _ & E & _).
    apply encode_utf8_app_inv in E as (? & ? & E & _ & _).
    apply encode_utf8_app_inv in E as (? & ? & E & _ & _).
    congruence.
  - rewrite Hw in Hrun. discriminate.
Qed.

End registry.

Section registry_theorems.
Context {F : FernetOps} {H : HashOps} {FL : FernetLaws F} {HL : HashLaws H}.

(** C10. For every registry, page name and password: whenever
    [_store_password] returns, it had read some text from the registry file
    (nothing from an empty file, else the UTF-8 plaintext of the token), and
    it leaves in the file a token of this text: the lines read before, each
    as it was read and in the same order, followed by the one new line,
    [name TAB hash]. Read again (for a name without a newline), the registry
    is the old lines followed by the new one; every record stored before, a
    line with a page and a non-empty hash string, is found at its old
    position with the same page and hash string; and the last line is the
    new record. A registry text that the function wrote itself is kept
    character for character in front of the new line. The function does
    return whenever the registry can be read so and the page name and the
    password can be encoded. *)
Theorem store_password_appends
        (file_name password password_file : str) (w : World) :
  (forall w' : World,
     _store_password file_name password password_file w = (Return tt, w') ->
     exists (k : bytes) (w1 : World) (c : bytes) (text h : str)
            (c' : bytes) (text' : str),
       convert_load_key w = (Return k, w1) /\
       fs w1 !! registry_path password_file = Some c /\
       stored_text k c = Some text /\
       fs w' !! registry_path password_file = Some c' /\
       stored_text k c' = Some text' /\
       length h = 192%nat /\
       text' = registry_text (registry_lines text) ++ (file_name ++ TAB :: h) ++ [NL] /\
       (NL ∉ file_name ->
        registry_lines text' = registry_lines text ++ [file_name ++ TAB :: h]) /\
       (NL ∉ file_name ->
        forall (i : nat) (raw p st : str),
          raw_lines text !! i = Some raw ->
          parse_line raw = Some (p, st) -> st <> [] ->
          exists kept : str,
            registry_lines text' !! i = Some kept /\ parse_line kept = Some (p, st)) /\
       (NL ∉ file_name -> TAB ∉ file_name ->
        last (registry_lines text') = Some (file_name ++ TAB :: h) /\
        parse_line (file_name ++ TAB :: h) = Some (file_name, h)) /\
       (forall L : list str,
          text = registry_text L -> Forall clean_line L -> last L <> Some [] ->
          text' = text ++ (file_name ++ TAB :: h) ++ [NL])) /\
  (forall (k : bytes) (w1 : World) (c : bytes) (text : str) (fnb pw : bytes),
     convert_load_key w = (Return k, w1) ->
     fernet_key_ok k = true ->
     fs w1 !! registry_path password_file = Some c ->
     stored_text k c = Some text ->
     encode_utf8 file_name = Some fnb ->
     encode_utf8 password = Some pw ->
     exists w' : World,
       _store_password file_name password password_file w = (Return tt, w')).
Proof.
  split.
  - intros w' Hrun.
    destruct (store_password_success_inv _ _ _ _ _ Hrun)
      as (k & w1 & c & text & fnb & pw & Hk & Hok & Hf & Ht & Hfn & Hpw).
    destruct (store_password_run file_name password password_file w w1 k c text fnb pw)
      as (w'' & c' & Hrun' & Hf' & Ht'); try done.
    rewrite Hrun in Hrun'. injection Hrun' as <-.
    set (h := hash_in (after_read k c w1) pw) in *.
    exists k, w1, c, text, h, c',
      (registry_text (registry_lines text ++ [file_name ++ TAB :: h])).
    split; [done|]. split; [done|]. split; [done|]. split; [done|]. split; [done|].
    split; [apply hash_in_length|].
    split; [apply registry_text_snoc|].
    assert (Hlines : NL ∉ file_name ->
              registry_lines
                (registry_text (registry_lines text ++ [file_name ++ TAB :: h]))
              = registry_lines text ++ [file_name ++ TAB :: h]).
    { intros Hnl. apply registry_lines_text.
      - apply registry_lines_clean.
      - by apply new_line_clean.
      - by destruct file_name. }
    split; [exact Hlines|]. split; [|split].
    + intros Hnl i raw p st Hi Hp Hst. rewrite (Hlines Hnl).
      destruct (registry_lines_keep_record text i raw p st Hi Hp Hst)
        as (kept & Hkept & Hparse).
      exists kept. split; [|done]. by apply lookup_app_l_Some.
    + intros Hnl Htab. rewrite (Hlines Hnl), last_snoc. split; [done|].
      apply parse_line_new; [done|apply hex_no_TAB|apply hex_rstrip]; apply hash_in_hex.
    + intros L -> Hclean Hlast. rewrite registry_text_snoc. f_equal.
      destruct L as [|l0 L0 _] using rev_ind.
      * reflexivity.
      * rewrite last_snoc in Hlast. apply Forall_app in Hclean as [HL0 Hl0].
        rewrite registry_lines_text; [done|done|by inversion Hl0|congruence].
  - intros k w1 c text fnb pw Hk Hok Hf Ht Hfn Hpw.
    destruct (store_password_run file_name password password_file w w1 k c text fnb pw)
      as (w' & _ & Hrun & _); try done.
    by exists w'.
Qed.

(** C7 (amended). [_store_password] makes no check for the page: for every
    registry it can read and every page name (without tab or newline), one
    that is already in the registry included, it returns normally and the
    registry read again has one more line, and so one more record for that
    page, than before; the last line is the new record of that page. *)
Theorem store_password_no_presence_check
        (file_name password password_file : str) (w w1 : World) (k c : bytes)
        (text : str) (fnb pw : bytes) :
  convert_load_key w = (Return k, w1) ->
  fernet_key_ok k = true ->
  fs w1 !! registry_path password_file = Some c ->
  stored_text k c = Some text ->
  encode_utf8 file_name = Some fnb ->
  encode_utf8 password = Some pw ->
  TAB ∉ file_name -> NL ∉ file_name ->
  exists (w' : World) (c' : bytes) (text' : str),
    _store_password file_name password password_file w = (Return tt, w') /\
    fs w' !! registry_path password_file = Some c' /\
    stored_text k c' = Some text' /\
    length (registry_lines text') = S (length (registry_lines text)) /\
    page_records file_name (registry_lines text')
      = S (page_records file_name (registry_lines text)) /\
    exists h : str,
      last (registry_lines text') = Some (file_name ++ TAB :: h) /\
      line_page (file_name ++ TAB :: h) = file_name.
Proof.
  intros Hk Hok Hf Ht Hfn Hpw Htab Hnl.
  destruct (store_password_run file_name password password_file w w1 k c text fnb pw)
    as (w' & c' & Hrun & Hf' & Ht'); try done.
  set (h := hash_in (after_read k c w1) pw) in *.
  exists w', c', (registry_text (registry_lines text ++ [file_name ++ TAB :: h])).
  split; [done|]. split; [done|]. split; [done|].
  rewrite registry_lines_text;
    [|apply registry_lines_clean|by apply new_line_clean|by destruct file_name].
  split; [|split].
  - rewrite length_app. cbn. lia.
  - rewrite page_records_snoc, line_page_new by done.
    rewrite bool_decide_eq_true_2 by done. lia.
  - exists h. split; [apply last_snoc|by apply line_page_new].
Qed.

End registry_theorems.

(** ** The upload retry loop *)

Module gdrive_props.
Import gdrive.

Section retry.
Variable execute : request -> nat -> response.
Variable rand : nat -> N.
Variable json_loads : bytes -> option json.
Variable py_repr : json -> str.
Variable isfile : str -> bool.

Local Abbreviation upload_loop := (upload_loop execute rand json_loads py_repr).
Local Abbreviation _upload_file := (_upload_file execute rand json_loads py_repr isfile).
Local Abbreviation permanent := (permanent json_loads).
Local Abbreviation backoff_slots := (backoff_slots rand).
Local Abbreviation backoff := (backoff rand).
Local Abbreviation after_retries := (after_retries rand).

Lemma backoff_slots_bound (n j : nat) : (backoff_slots n j <= 2 ^ N.of_nat n - 1)%N.
Proof.
  unfold gdrive.backoff_slots.
  assert (0 < 2 ^ N.of_nat n)%N by (apply N.neq_0_lt_0, N.pow_nonzero; lia).
  pose proof (N.mod_upper_bound (rand j) (2 ^ N.of_nat n - 1 + 1)). lia.
Qed.

Lemma after_retries_0 (tc : nat) (d : Drive) : after_retries 0 tc d = d.
Proof.
  unfold gdrive.after_retries. destruct d; cbn. by rewrite !Nat.add_0_r, app_nil_r.
Qed.

Lemma after_retries_S (m tc : nat) (d : Drive) :
  after_retries m (S tc)
    (mkDrive (S (attempts d)) (S (rand_pos d))
             (sleeps d ++ [backoff (S tc) (rand_pos d)]) (stdout d))
  = after_retries (S m) tc d.
Proof.
  unfold gdrive.after_retries. cbn [attempts rand_pos sleeps stdout].
  f_equal; try lia.
  rewrite <- app_assoc. f_equal. cbn [seq fmap list_fmap app].
  f_equal; [f_equal; lia|].
  rewrite <- seq_shift, <- list_fmap_compose.
  apply list_fmap_ext. intros _ i _. cbn. f_equal; lia.
Qed.

(** One turn of the loop on a retryable failure. *)
Lemma upload_loop_transient (turns : nat) (rq : request) (tc : nat) (d : Drive) :
  (tc < max_tries)%nat ->
  transient (execute rq (attempts d)) ->
  upload_loop (S turns) rq tc d =
    upload_loop turns rq (S tc)
      (mkDrive (S (attempts d)) (S (rand_pos d))
               (sleeps d ++ [backoff (S tc) (rand_pos d)]) (stdout d)).
Proof.
  intros Htc (e & He & Hst). cbn [gdrive.upload_loop].
  destruct (Nat.ltb_spec tc max_tries); [|lia].
  unfold call. rewrite He. rewrite (bool_decide_eq_true_2 _ Hst).
  reflexivity.
Qed.

(** [m] retryable failures in a row. *)
Lemma upload_loop_retries (rq : request) (m : nat) :
  forall (turns tc : nat) (d : Drive),
    (forall i, (i < m)%nat -> transient (execute rq (attempts d + i))) ->
    (tc + m <= max_tries)%nat -> (m <= turns)%nat ->
    upload_loop turns rq tc d = upload_loop (turns - m) rq (tc + m) (after_retries m tc d).
Proof.
  induction m as [|m IH]; intros turns tc d Hfail Htc Hturns.
  - by rewrite after_retries_0, Nat.sub_0_r, Nat.add_0_r.
  - destruct turns as [|turns]; [lia|].
    rewrite upload_loop_transient; [|lia|].
    2: { specialize (Hfail 0%nat). rewrite Nat.add_0_r in Hfail. apply Hfail. lia. }
    rewrite IH; [|cbn [attempts]|lia|lia].
    + rewrite after_retries_S. f_equal; lia.
    + intros i Hi. replace (S (attempts d) + i)%nat with (attempts d + S i)%nat by lia.
      apply Hfail. lia.
Qed.

Lemma upload_loop_created (turns : nat) (rq : request) (tc : nat) (d : Drive) (id name : str) :
  (tc < max_tries)%nat ->
  execute rq (attempts d) = Created id name ->
  upload_loop (S turns) rq tc d =
    (Ok (LoopEnd (Some (id, name))),
     mkDrive (S (attempts d)) (rand_pos d) (sleeps d) (stdout d)).
Proof.
  intros Htc He. cbn [gdrive.upload_loop].
  destruct (Nat.ltb_spec tc max_tries); [|lia].
  unfold call. by rewrite He.
Qed.

Lemma upload_loop_permanent (turns : nat) (rq : request) (tc : nat) (d : Drive)
      (reason : json) :
  (tc < max_tries)%nat ->
  permanent (execute rq (attempts d)) reason ->
  upload_loop (S turns) rq tc d =
    (Ok LoopReturn,
     mkDrive (S (attempts d)) (rand_pos d) (sleeps d)
             (stdout d ++ [lit "Could not upload file or retry because of: "
                           ++ format_reason py_repr reason])).
Proof.
  intros Htc (e & He & Hst & Hjson & Hreason). cbn [gdrive.upload_loop].
  destruct (Nat.ltb_spec tc max_tries); [|lia].
  unfold call. rewrite He. rewrite (bool_decide_eq_false_2 _ Hst).
  rewrite Hjson, Hreason. reflexivity.
Qed.

Lemma upload_loop_exhausted (turns : nat) (rq : request) (d : Drive) :
  upload_loop turns rq max_tries d = (Ok (LoopEnd None), d).
Proof. destruct turns; reflexivity. Qed.

(** C8. Let the remote operation be called with the request of
    [_upload_file]. If it fails with a retryable status three times and then
    succeeds, [_upload_file] returns after the fourth call and prints nothing.
    If it fails with a retryable status every time, [_upload_file] makes
    exactly [max_tries = 10] calls, prints that it was unable to upload and
    returns without raising. After the failed call number [n] it sleeps
    [k * slot_time] seconds, with [k] drawn from [0 .. 2^n - 1] and
    [slot_time = 1/10]. *)
Theorem upload_file_retries
        (file_name : str) (parent_ids : option (list str)) (file_path : option str)
        (data : option bytes) (rq : request) (d : Drive) :
  upload_request isfile file_name parent_ids file_path data = Ok rq ->
  ((forall i, (i < 3)%nat -> transient (execute rq (attempts d + i))) ->
   (exists id name, execute rq (attempts d + 3) = Created id name) ->
   exists d' : Drive,
     _upload_file file_name parent_ids file_path data d = (Ok tt, d') /\
     attempts d' = (attempts d + 4)%nat /\
     stdout d' = stdout d /\
     sleeps d' = sleeps d ++ [backoff 1 (rand_pos d); backoff 2 (rand_pos d + 1);
                              backoff 3 (rand_pos d + 2)]) /\
  ((forall i, transient (execute rq (attempts d + i))) ->
   exists d' : Drive,
     _upload_file file_name parent_ids file_path data d = (Ok tt, d') /\
     attempts d' = (attempts d + max_tries)%nat /\
     max_tries = 10%nat /\
     stdout d' = stdout d ++ [lit "Unable to upload file"] /\
     sleeps d' = sleeps d ++ ((fun i => backoff (1 + i) (rand_pos d + i)) <$> seq 0 10)) /\
  (forall n j : nat,
     backoff n j = (inject_Z (Z.of_N (backoff_slots n j)) * (1 # 10))%Q /\
     (0 <= backoff_slots n j <= 2 ^ N.of_nat n - 1)%N).
Proof.
  intros Hrq. split; [|split].
  - intros Hfail (id & name & Hok).
    eexists. unfold gdrive._upload_file. rewrite Hrq.
    rewrite (upload_loop_retries rq 3 max_tries 0 d) by (done || (unfold max_tries; lia)).
    change (max_tries - 3)%nat with 7%nat.
    rewrite (upload_loop_created 6 rq _ _ id name);
      [|unfold max_tries; lia|exact Hok].
    split; [reflexivity|]. cbn [attempts stdout sleeps gdrive.after_retries rand_pos].
    split; [lia|]. split; [done|].
    cbn. by rewrite !Nat.add_0_r.
  - intros Hfail.
    eexists. unfold gdrive._upload_file. rewrite Hrq.
    rewrite (upload_loop_retries rq max_tries max_tries 0 d);
      [|intros; apply Hfail|done|done].
    rewrite Nat.sub_diag. cbn [Nat.add]. rewrite upload_loop_exhausted.
    split; [reflexivity|]. cbn [print attempts stdout sleeps gdrive.after_retries rand_pos].
    split; [done|]. split; [done|]. split; [done|].
    f_equal.
  - intros n j. split; [reflexivity|].
    split; [lia|apply backoff_slots_bound].
Qed.

(** C9 (amended). When the call of the remote operation fails with a status
    outside the retryable ones and a JSON body that names a reason,
    [_upload_file] prints the reason and returns at once: it sleeps no more
    and calls the operation no more. As the first call that is the only
    call; after [m] retried calls it is call [m + 1], the last. *)
Theorem upload_file_permanent_error
        (file_name : str) (parent_ids : option (list str)) (file_path : option str)
        (data : option bytes) (rq : request) (d : Drive) (reason : json) :
  upload_request isfile file_name parent_ids file_path data = Ok rq ->
  (permanent (execute rq (attempts d)) reason ->
   _upload_file file_name parent_ids file_path data d =
     (Ok tt,
      mkDrive (attempts d + 1) (rand_pos d) (sleeps d)
              (stdout d ++ [lit "Could not upload file or retry because of: "
                            ++ format_reason py_repr reason]))) /\
  (forall m : nat,
     (m < max_tries)%nat ->
     (forall i, (i < m)%nat -> transient (execute rq (attempts d + i))) ->
     permanent (execute rq (attempts d + m)) reason ->
     exists d' : Drive,
       _upload_file file_name parent_ids file_path data d = (Ok tt, d') /\
       attempts d' = (attempts d + m + 1)%nat /\
       length (sleeps d') = (length (sleeps d) + m)%nat /\
       stdout d' = stdout d ++ [lit "Could not upload file or retry because of: "
                                ++ format_reason py_repr reason]).
Proof.
  intros Hrq. split.
  - intros Hperm. unfold gdrive._upload_file. rewrite Hrq.
    change max_tries with (S 9).
    rewrite (upload_loop_permanent 9 rq 0 d reason); [|unfold max_tries; lia|done].
    by rewrite Nat.add_1_r.
  - intros m Hm Hfail Hperm.
    eexists. unfold gdrive._upload_file. rewrite Hrq.
    rewrite (upload_loop_retries rq m max_tries 0 d) by (done || lia).
    destruct (max_tries - m)%nat as [|turns] eqn:Hturns; [lia|].
    rewrite (upload_loop_permanent turns rq _ _ reason); [|lia|exact Hperm].
    split; [reflexivity|]. cbn [attempts stdout sleeps gdrive.after_retries rand_pos].
    split; [lia|]. split; [|done].
    by rewrite length_app, length_fmap, length_seq.
Qed.

End retry.
End gdrive_props.

(** ** The reference instance satisfies the laws *)

#[export] Instance ref_fernet_laws : FernetLaws ref_fernet.
Proof.
  split.
  - intros r Hr. cbn. apply Nat.eqb_eq.
    rewrite (urlsafe_b64encode_length 10 2); [done|lia|by rewrite Hr].
  - intros k d t iv _. cbn.
    rewrite (bool_decide_eq_true_2 (x80 = x80)) by done.
    rewrite take_app_length, drop_app_length.
    by rewrite (bool_decide_eq_true_2 (k = k)).
  - intros k d t iv. cbn. done.
Defined.

#[export] Instance ref_hash_laws : HashLaws ref_hash.
Proof.
  split.
  - intros m. change (sha256 m) with (take 32 (m ++ replicate 32 x00)).
    rewrite length_take, length_app, length_replicate. lia.
  - intros p s n.
    change (pbkdf2_hmac_sha512 p s n) with (take 64 (p ++ s ++ replicate 64 x00)).
    rewrite length_take, !length_app, length_replicate. lia.
Defined.

(** ** Runs on the reference instance *)

Lemma convert_decrypt_encrypt_witness :
  convert_load_key (note_world (blit "remember the milk"))
    = (Return ref_key, note_world (blit "remember the milk")) /\
  fernet_key_ok ref_key = true /\
  blit "remember the milk" <> [] /\
  exists (c : bytes) (w2 w3 : World),
    convert (lit "n.txt") (lit "encrypt") (lit "Storage") (lit "write")
            (note_world (blit "remember the milk")) = (Return None, w2) /\
    fs w2 !! lit "Storage/n.txt" = Some c /\
    convert (lit "n.txt") (lit "decrypt") (lit "Storage") (lit "return") w2
      = (Return (Some (blit "remember the milk")), w3).
Proof.
  split; [reflexivity|]. split; [reflexivity|]. split; [discriminate|].
  destruct (convert_decrypt_encrypt (FL := ref_fernet_laws)
              (lit "n.txt") (lit "Storage")
              (note_world (blit "remember the milk"))
              (note_world (blit "remember the milk"))
              ref_key (blit "remember the milk"))
    as (c & w2 & Henc & Hfile & (w3 & Hdec) & _);
    [reflexivity|reflexivity|reflexivity|discriminate|].
  exists c, w2, w3. split; [exact Henc|]. split; [exact Hfile|exact Hdec].
Defined.

Lemma convert_empty_passthrough_witness :
  lit "decrypt" ∈ conversion_types /\ lit "write" ∈ storage_types /\
  fs (note_world []) !! os_path_join (lit "Storage") (lit "n.txt") = Some [] /\
  convert (lit "n.txt") (lit "decrypt") (lit "Storage") (lit "write") (note_world [])
    = (Return (Some []), note_world []).
Proof.
  split; [apply decrypt_conversion_type|]. split; [apply write_storage_type|].
  split; [reflexivity|].
  apply (convert_empty_passthrough (lit "n.txt") (lit "decrypt") (lit "Storage")
           (lit "write") (note_world []) (note_world []) ref_key);
    [apply decrypt_conversion_type|apply write_storage_type
    |reflexivity|reflexivity|reflexivity].
Defined.

Lemma verify_password_get_password_hash_witness :
  (length (lit "correct horse") <= 1024)%nat /\
  exists h : str,
    get_password_hash (lit "correct horse") ref_world = (Return h, consumed 60 ref_world) /\
    forall w' : World, verify_password (lit "correct horse") h w' = (Return true, w').
Proof.
  split; [cbn; lia|].
  destruct (verify_password_get_password_hash (HL := ref_hash_laws)
              ref_world (lit "correct horse")) as [Hverify Hreturns]; [cbn; lia|].
  destruct (Hreturns (blit "correct horse") eq_refl) as [h Hrun].
  exists h. split; [exact Hrun|]. exact (Hverify h _ Hrun).
Defined.

Lemma get_password_hash_shape_witness :
  encode_utf8 [0x70; 0xE4; 0x73; 0x73] = Some [x70; xc3; xa4; x73; x73] /\
  exists h : str,
    get_password_hash [0x70; 0xE4; 0x73; 0x73] ref_world
      = (Return h, consumed 60 ref_world) /\
    length h = 192%nat.
Proof.
  split; [reflexivity|].
  destruct (get_password_hash_shape (HL := ref_hash_laws) ref_world
              [0x70; 0xE4; 0x73; 0x73] [x70; xc3; xa4; x73; x73])
    as (h & salt & Hrun & Hlen & _); [reflexivity|].
  exists h. split; [exact Hrun|exact Hlen].
Defined.

(** C5, as stated, fails: a password of one character, against a stored
    string whose first character is not ASCII, makes [verify_password] raise
    [UnicodeEncodeError]. *)
Lemma verify_password_raises_on_non_ascii_salt :
  (length (lit "a") <= 1024)%nat /\
  verify_password (lit "a") [0xE9] ref_world = (Raise UnicodeEncodeError, ref_world).
Proof. split; [cbn; lia|reflexivity]. Qed.

Lemma verify_password_spec_witness :
  (1024 < length (replicate 1025 0x61))%nat /\
  fst (verify_password (replicate 1025 0x61) [] ref_world)
    = Raise (ValueError "Password length must not exceed 1024").
Proof.
  split; [rewrite length_replicate; lia|].
  apply (proj1 (verify_password_spec ref_world (replicate 1025 0x61) [])).
  rewrite length_replicate. lia.
Defined.

(** C6, as stated, fails: the key file made in an empty directory holds 44
    bytes, not 32. *)
Lemma load_key_file_is_44_bytes :
  fs ref_world !! os_path_join key_file_path key_file_name = None /\
  length <$> (fs (snd (_load_key key_file_path key_file_name ref_world))
              !! os_path_join key_file_path key_file_name) = Some 44%nat /\
  44%nat <> 32%nat.
Proof. split; [reflexivity|]. split; [reflexivity|lia]. Qed.

Lemma load_key_creates_once_witness :
  fs ref_world !! os_path_join key_file_path key_file_name = None /\
  exists (key : bytes) (w1 : World),
    _load_key key_file_path key_file_name ref_world = (Return key, w1) /\
    length key = 44%nat /\
    _load_key key_file_path key_file_name w1 = (Return key, w1).
Proof.
  split; [reflexivity|].
  destruct (load_key_creates_once ref_world key_file_path key_file_name)
    as (key & w1 & Hrun & _ & _ & _ & Hlen & Hagain & _); [reflexivity|].
  exists key, w1. split; [exact Hrun|]. split; [exact Hlen|exact Hagain].
Defined.

(** C7, as stated, fails: with [a.txt] already in the registry, storing a
    password for [a.txt] again returns normally and adds a second record. *)
Lemma store_password_accepts_present_page :
  registry_pages password_txt registry_world1 = Some [lit "a.txt"] /\
  fst (_store_password (lit "a.txt") (lit "second") password_txt registry_world1)
    = Return tt /\
  registry_pages password_txt registry_world2 = Some [lit "a.txt"; lit "a.txt"].
Proof. split; [|split]; vm_compute; reflexivity. Qed.

Lemma store_password_no_presence_check_witness :
  convert_load_key registry_world1 = (Return ref_key, registry_world1) /\
  fernet_key_ok ref_key = true /\
  encode_utf8 (lit "a.txt") = Some (blit "a.txt") /\
  encode_utf8 (lit "second") = Some (blit "second") /\
  (TAB ∉ lit "a.txt") /\ (NL ∉ lit "a.txt") /\
  exists w' : World,
    _store_password (lit "a.txt") (lit "second") password_txt registry_world1
      = (Return tt, w').
Proof.
  assert (Htab : TAB ∉ lit "a.txt")
    by (intros Hin; vm_compute in Hin; by repeat (apply elem_of_cons in Hin as [?|Hin];
                                                 [done|]); apply elem_of_nil in Hin).
  assert (Hnl : NL ∉ lit "a.txt")
    by (intros Hin; vm_compute in Hin; by repeat (apply elem_of_cons in Hin as [?|Hin];
                                                 [done|]); apply elem_of_nil in Hin).
  split; [reflexivity|]. split; [reflexivity|]. split; [reflexivity|].
  split; [reflexivity|]. split; [exact Htab|]. split; [exact Hnl|].
  destruct (store_password_no_presence_check
              (FL := ref_fernet_laws) (HL := ref_hash_laws)
              (lit "a.txt") (lit "second") password_txt
              registry_world1 registry_world1 ref_key
              (default [] (fs registry_world1 !! registry_path password_txt))
              (default [] (stored_text ref_key
                 (default [] (fs registry_world1 !! registry_path password_txt))))
              (blit "a.txt") (blit "second"))
    as (w' & _ & _ & Hrun & _);
    [reflexivity|reflexivity|reflexivity|vm_compute; reflexivity
    |reflexivity|reflexivity|exact Htab|exact Hnl|].
  exists w'. exact Hrun.
Defined.

Lemma store_password_appends_witness :
  exists (w' : World) (c : bytes) (text raw st kept h : str) (c' : bytes) (text' : str),
    fs registry_world1 !! registry_path password_txt = Some c /\
    stored_text ref_key c = Some text /\
    raw_lines text !! 0%nat = Some raw /\
    parse_line raw = Some (lit "a.txt", st) /\
    st <> [] /\
    _store_password (lit "b.txt") (lit "second") password_txt registry_world1
      = (Return tt, w') /\
    fs w' !! registry_path password_txt = Some c' /\
    stored_text ref_key c' = Some text' /\
    registry_lines text' !! 0%nat = Some kept /\
    parse_line kept = Some (lit "a.txt", st) /\
    length (registry_lines text') = 2%nat /\
    last (registry_lines text') = Some (lit "b.txt" ++ TAB :: h) /\
    parse_line (lit "b.txt" ++ TAB :: h) = Some (lit "b.txt", h).
Proof.
  pose (c := default [] (fs registry_world1 !! registry_path password_txt)).
  pose (text := default [] (stored_text ref_key c)).
  pose (raw := default [] (raw_lines text !! 0%nat)).
  pose (st := default [] (snd <$> parse_line raw)).
  assert (Hkey : convert_load_key registry_world1 = (Return ref_key, registry_world1))
    by (vm_compute; reflexivity).
  assert (Hfile : fs registry_world1 !! registry_path password_txt = Some c)
    by (vm_compute; reflexivity).
  assert (Htext : stored_text ref_key c = Some text) by (vm_compute; reflexivity).
  assert (Hraw : raw_lines text !! 0%nat = Some raw) by (vm_compute; reflexivity).
  assert (Hparse : parse_line raw = Some (lit "a.txt", st)) by (vm_compute; reflexivity).
  assert (Hlen : length st = 192%nat) by (vm_compute; reflexivity).
  assert (Hst : st <> []) by (intros E; rewrite E in Hlen; discriminate Hlen).
  assert (Hone : length (registry_lines text) = 1%nat) by (vm_compute; reflexivity).
  assert (Hnl : NL ∉ lit "b.txt")
    by (intros Hin; vm_compute in Hin;
        by repeat (apply elem_of_cons in Hin as [?|Hin]; [done|]); apply elem_of_nil in Hin).
  assert (Htab : TAB ∉ lit "b.txt")
    by (intros Hin; vm_compute in Hin;
        by repeat (apply elem_of_cons in Hin as [?|Hin]; [done|]); apply elem_of_nil in Hin).
  destruct (store_password_appends
              (FL := ref_fernet_laws) (HL := ref_hash_laws)
              (lit "b.txt") (lit "second") password_txt registry_world1)
    as [Heffect Hreturns].
  destruct (Hreturns ref_key registry_world1 c text (blit "b.txt") (blit "second"))
    as [w' Hrun]; [exact Hkey|reflexivity|exact Hfile|exact Htext|reflexivity|reflexivity|].
  destruct (Heffect w' Hrun)
    as (k & w1 & c0 & text0 & h & c' & text' & Hk & Hf & Ht & Hf' & Ht' & _ & _
        & Hlines & Hkeep & Hlast & _).
  clearbody c text raw st.
  rewrite Hkey in Hk.
  pose proof (f_equal snd Hk) as Hw1. cbn [snd] in Hw1. subst w1.
  assert (k = ref_key) as ->
    by (pose proof (f_equal fst Hk) as Hk1; cbn [fst] in Hk1; by injection Hk1).
  assert (c0 = c) as -> by (rewrite Hfile in Hf; by injection Hf).
  assert (text0 = text) as -> by (rewrite Htext in Ht; by injection Ht).
  destruct (Hkeep Hnl 0%nat raw (lit "a.txt") st Hraw Hparse Hst) as (kept & Hkept & Hpk).
  destruct (Hlast Hnl Htab) as [Hl Hpl].
  exists w', c, text, raw, st, kept, h, c', text'.
  split; [exact Hfile|]. split; [exact Htext|]. split; [exact Hraw|]. split; [exact Hparse|]. split; [exact Hst|].
  split; [exact Hrun|]. split; [exact Hf'|]. split; [exact Ht'|].
  split; [exact Hkept|]. split; [exact Hpk|].
  split; [by rewrite (Hlines Hnl), length_app, Hone|].
  split; [exact Hl|exact Hpl].
Defined.

Module gdrive_runs.
Import gdrive gdrive_props.

Lemma unavailable_transient : transient unavailable.
Proof.
  exists (mkHttpError 503 None []). split; [reflexivity|].
  unfold retryable_statuses. cbn [status]. rewrite !elem_of_cons. tauto.
Qed.

Lemma upload_file_retries_witness :
  upload_request ref_isfile (lit "a.txt") None None (Some (blit "data")) = Ok ref_request /\
  (exists d' : Drive,
     _upload_file flaky ref_rand ref_json_loads ref_py_repr ref_isfile
                  (lit "a.txt") None None (Some (blit "data")) drive0 = (Ok tt, d') /\
     attempts d' = 4%nat /\ stdout d' = []) /\
  (exists d' : Drive,
     _upload_file down ref_rand ref_json_loads ref_py_repr ref_isfile
                  (lit "a.txt") None None (Some (blit "data")) drive0 = (Ok tt, d') /\
     attempts d' = 10%nat /\ stdout d' = [lit "Unable to upload file"]).
Proof.
  split; [reflexivity|]. split.
  - destruct (upload_file_retries flaky ref_rand ref_json_loads ref_py_repr ref_isfile
                (lit "a.txt") None None (Some (blit "data")) ref_request drive0 eq_refl)
      as [Ha _].
    destruct Ha as (d' & Hrun & Hatt & Hout & _).
    + intros i Hi. cbn [attempts drive0 Nat.add]. unfold flaky.
      destruct (Nat.ltb_spec i 3); [|lia]. apply unavailable_transient.
    + by exists (lit "id-1"), (lit "a.txt").
    + exists d'. split; [exact Hrun|]. split; [exact Hatt|exact Hout].
  - destruct (upload_file_retries down ref_rand ref_json_loads ref_py_repr ref_isfile
                (lit "a.txt") None None (Some (blit "data")) ref_request drive0 eq_refl)
      as (_ & Hb & _).
    destruct Hb as (d' & Hrun & Hatt & _ & Hout & _).
    + intros i. apply unavailable_transient.
    + exists d'. split; [exact Hrun|]. split; [exact Hatt|exact Hout].
Defined.

Lemma upload_file_permanent_error_witness :
  upload_request ref_isfile (lit "a.txt") None None (Some (blit "data")) = Ok ref_request /\
  _upload_file refusing ref_rand ref_json_loads ref_py_repr ref_isfile
               (lit "a.txt") None None (Some (blit "data")) drive0
    = (Ok tt,
       mkDrive 1 0 [] [lit "Could not upload file or retry because of: invalid"]).
Proof.
  split; [reflexivity|].
  destruct (upload_file_permanent_error refusing ref_rand ref_json_loads ref_py_repr
              ref_isfile (lit "a.txt") None None (Some (blit "data")) ref_request drive0
              (JStr (lit "invalid")) eq_refl) as [Hfirst _].
  rewrite Hfirst; [reflexivity|].
  eexists. split; [reflexivity|]. split; [|split; reflexivity].
  cbn [status]. unfold retryable_statuses. rewrite !not_elem_of_cons.
  repeat split; try done. apply not_elem_of_nil.
Defined.

(** C9, as stated, fails: an error that its JSON body identifies as a quota
    error, with status 403, is retried; [_upload_file] makes ten calls and
    sleeps ten times before it gives up. *)
Lemma quota_error_is_retried :
  startswith (lit "application/json") (default [] (content_type quota_error)) = true /\
  error_reason quota_json_loads (content quota_error)
    = Ok (JStr (lit "storageQuotaExceeded")) /\
  fst (_upload_file over_quota ref_rand quota_json_loads ref_py_repr ref_isfile
                    (lit "a.txt") None None (Some (blit "data")) drive0) = Ok tt /\
  attempts (snd (_upload_file over_quota ref_rand quota_json_loads ref_py_repr ref_isfile
                              (lit "a.txt") None None (Some (blit "data")) drive0))
    = 10%nat /\
  length (sleeps (snd (_upload_file over_quota ref_rand quota_json_loads ref_py_repr
                                    ref_isfile (lit "a.txt") None None
                                    (Some (blit "data")) drive0))) = 10%nat /\
  stdout (snd (_upload_file over_quota ref_rand quota_json_loads ref_py_repr ref_isfile
                            (lit "a.txt") None None (Some (blit "data")) drive0))
    = [lit "Unable to upload file"].
Proof. repeat split; vm_compute; reflexivity. Qed.

End gdrive_runs.

(** * Further properties of the code *)

(** ** encryption.py *)

Section convert_more.
Context {F : FernetOps} {FL : FernetLaws F}.

(** Loading the key changes no file but the key file. *)
Lemma convert_load_key_frame (w w1 : World) (k : bytes) (p : str) :
  convert_load_key w = (Return k, w1) -> p <> key_file -> fs w1 !! p = fs w !! p.
Proof.
  rewrite convert_load_key_run. intros Hk Hp.
  destruct (convert_key w); [by injection Hk as <- <-|].
  cbn zeta in Hk. destruct (fs w !! key_file); injection Hk as <- <-; [done|].
  cbn [with_key with_file fs consumed with_event]. by rewrite lookup_insert_ne.
Qed.

Lemma convert_rejects (file_name ct file_path st : str) (w : World) :
  ct ∉ conversion_types \/ st ∉ storage_types ->
  exists msg : string,
    convert file_name ct file_path st w = (Raise (ValueError msg), w).
Proof.
  intros Hbad. unfold convert.
  destruct (decide (ct ∈ conversion_types)) as [Hct|Hct].
  - destruct Hbad as [?|Hst]; [done|].
    rewrite (bool_decide_eq_true_2 _ Hct).
    rewrite (bool_decide_eq_false_2 _ Hst). cbn [negb]. by eexists.
  - rewrite (bool_decide_eq_false_2 _ Hct). cbn [negb]. by eexists.
Qed.

(** X1. A conversion type other than ['encrypt'] and ['decrypt'], or a
    storage type other than ['write'] and ['return'], makes [convert] raise
    [ValueError] at once: no key is loaded or created, no file is read, the
    world is as before. *)
Theorem convert_unsupported_argument (file_name ct file_path st : str) (w : World) :
  ct ∉ conversion_types \/ st ∉ storage_types ->
  exists msg : string,
    convert file_name ct file_path st w = (Raise (ValueError msg), w).
Proof. apply convert_rejects. Qed.

(** One case analysis of everything [convert] can do once its arguments are
    accepted and the key is in place. *)
Lemma convert_cases (file_name ct file_path st : str) (w w1 : World) (k : bytes) :
  ct ∈ conversion_types -> st ∈ storage_types ->
  convert_load_key w = (Return k, w1) ->
  let p := os_path_join file_path file_name in
  let r := convert file_name ct file_path st w in
  (fernet_key_ok k = false /\ snd r = w1 /\ exists msg, fst r = Raise (ValueError msg)) \/
  (fernet_key_ok k = true /\ fs w1 !! p = None /\
   fs (snd r) = fs w1 /\ fst r = Raise (FileNotFoundError p)) \/
  (fernet_key_ok k = true /\ fs w1 !! p = Some [] /\ r = (Return (Some []), w1)) \/
  (exists d, fernet_key_ok k = true /\ fs w1 !! p = Some d /\ d <> [] /\
     ct = lit "encrypt" /\
     r = if bool_decide (st = lit "write")
         then (Return None, with_file p (token_of k d w1) (encrypted k d w1))
         else (Return (Some (token_of k d w1)), encrypted k d w1)) \/
  (exists c d, fernet_key_ok k = true /\ fs w1 !! p = Some c /\ c <> [] /\
     ct = lit "decrypt" /\ fernet_decrypt k c = Some d /\
     r = if bool_decide (st = lit "write")
         then (Return None, with_file p d (with_event (EvFernetDecrypt k c) w1))
         else (Return (Some d), with_event (EvFernetDecrypt k c) w1)) \/
  (exists c, fernet_key_ok k = true /\ fs w1 !! p = Some c /\ c <> [] /\
     ct = lit "decrypt" /\ fernet_decrypt k c = None /\
     r = (Raise InvalidToken, with_event (EvFernetDecrypt k c) w1)).
Proof.
  intros Hct Hst Hk p r.
  destruct (fernet_key_ok k) eqn:Hok.
  2: { left. subst r. rewrite (convert_bad_key _ _ _ _ w w1 k) by done.
       split; [done|]. split; [done|]. by eexists. }
  right. destruct (fs w1 !! p) as [d|] eqn:Hf.
  2: { left. subst r. rewrite (convert_missing_file _ _ _ _ w w1 k) by done. done. }
  right. destruct (decide (d = [])) as [->|Hd].
  { left. subst r. by rewrite (convert_empty _ _ _ _ w w1 k). }
  right.
  assert (ct = lit "encrypt" \/ ct = lit "decrypt") as [-> | ->]
    by (unfold conversion_types in Hct; rewrite !elem_of_cons, elem_of_nil in Hct; tauto).
  - left. exists d. subst r. by rewrite (convert_encrypt _ _ _ w w1 k d).
  - right. destruct (fernet_decrypt k d) as [x|] eqn:Hx.
    + left. exists d, x. subst r. by rewrite (convert_decrypt _ _ _ w w1 k d x).
    + right. exists d. subst r. by rewrite (convert_decrypt_invalid _ _ _ w w1 k d).
Qed.

(** X2. [convert] touches at most two files: whatever its arguments and
    however it ends, every file other than the key file and, with storage
    type ['write'], the file it converts holds afterwards what it held
    before. *)
Theorem convert_frame (file_name ct file_path st : str) (w : World) (p : str) :
  p <> key_file ->
  st <> lit "write" \/ p <> os_path_join file_path file_name ->
  fs (snd (convert file_name ct file_path st w)) !! p = fs w !! p.
Proof.
  intros Hkey Hp.
  destruct (decide (ct ∈ conversion_types)) as [Hct|Hct].
  2: { destruct (convert_rejects file_name ct file_path st w) as [m ->];
         [by left|done]. }
  destruct (decide (st ∈ storage_types)) as [Hst|Hst].
  2: { destruct (convert_rejects file_name ct file_path st w) as [m ->];
         [by right|done]. }
  destruct (convert_load_key_total w) as (k & w1 & Hk).
  rewrite <- (convert_load_key_frame w w1 k p Hk Hkey).
  destruct (convert_cases file_name ct file_path st w w1 k Hct Hst Hk)
    as [(_ & -> & _)|[(_ & _ & -> & _)|[(_ & _ & ->)|[(d & _ & _ & _ & _ & ->)
       |[(c & d & _ & _ & _ & _ & _ & ->)|(c & _ & _ & _ & _ & _ & ->)]]]]];
    try done.
  - case_bool_decide as Hw; [|done].
    destruct Hp as [?|Hp]; [done|]. cbn [snd with_file fs]. by rewrite lookup_insert_ne.
  - case_bool_decide as Hw; [|done].
    destruct Hp as [?|Hp]; [done|]. cbn [snd with_file fs]. by rewrite lookup_insert_ne.
Qed.

End convert_more.

Section convert_more2.
Context {F : FernetOps} {FL : FernetLaws F}.




End convert_more2.

Section hasher_more.
Context {H : HashOps} {HL : HashLaws H}.

(** X6. [verify_password] returns [True] only for a password of at most
    1024 characters and a stored string of exactly 192 characters, 64 ASCII
    characters of salt followed by 128 lower-case hexadecimal digits; it
    changes nothing. *)
Theorem verify_password_true_inv (w w' : World) (provided stored : str) :
  verify_password provided stored w = (Return true, w') ->
  (length provided <= 1024)%nat /\
  length stored = 192%nat /\
  Forall (fun c => c < 128) (take 64 stored) /\
  Forall is_hex_char (drop 64 stored) /\
  w' = w.
Proof.
  intros Hv.
  destruct (Nat.le_gt_cases (length provided) 1024) as [Hlen|Hlen].
  2: { by rewrite verify_password_too_long in Hv. }
  destruct (encode_utf8 provided) as [pw|] eqn:Hpw.
  2: { rewrite verify_password_unencodable in Hv; [done|done|by left]. }
  destruct (encode_ascii (take 64 stored)) as [salt|] eqn:Hs.
  2: { rewrite verify_password_unencodable in Hv; [done|done|by right]. }
  rewrite (verify_password_run w _ _ pw salt) in Hv by done.
  injection Hv as Hb <-. apply bool_decide_eq_true_1 in Hb.
  split; [done|].
  assert (Hd : length (drop 64 stored) = 128%nat)
    by (by rewrite <- Hb, str_of_bytes_length, derived_hex_length).
  rewrite length_drop in Hd.
  split; [lia|]. split; [|split; [|done]].
  - clear -Hs. revert salt Hs. generalize (take 64 stored) as s.
    induction s as [|c s IH]; intros salt; cbn [encode_ascii]; [constructor|].
    destruct (N.ltb_spec c 128); [|discriminate].
    destruct (encode_ascii s) as [bs|]; [|discriminate].
    intros _. constructor; [done|]. by eapply IH.
  - rewrite <- Hb. apply hexlify_hex.
Qed.

End hasher_more.

(** ** gdrive.py: every run of the upload loop *)

Module gdrive_more.
Import gdrive.

Section retry_more.
Variable execute : request -> nat -> response.
Variable rand : nat -> N.
Variable json_loads : bytes -> option json.
Variable py_repr : json -> str.
Variable isfile : str -> bool.

Local Abbreviation upload_loop := (upload_loop execute rand json_loads py_repr).
Local Abbreviation _upload_file := (_upload_file execute rand json_loads py_repr isfile).

Lemma upload_loop_bounds (rq : request) (turns : nat) :
  forall (tc : nat) (d : Drive),
  exists slots : list N,
    let r := upload_loop turns rq tc d in
    sleeps (snd r) = sleeps d ++ (sleep_of <$> slots) /\
    (length slots <= turns)%nat /\
    (attempts d <= attempts (snd r) <= attempts d + turns)%nat /\
    (length slots <= attempts (snd r) - attempts d)%nat /\
    sum_slots slots <= slots_bound turns tc /\
    (stdout (snd r) = stdout d \/
     exists line, fst r = Ok LoopReturn /\ stdout (snd r) = stdout d ++ [line]).
Proof.
  induction turns as [|turns IH]; intros tc d.
  - exists []. cbn [gdrive.upload_loop]. destruct (tc <? max_tries)%nat; cbn;
      rewrite app_nil_r; repeat split; try lia; by left.
  - destruct (Nat.ltb_spec tc max_tries) as [Htc|Htc].
    2: { exists []. cbn [gdrive.upload_loop].
         destruct (Nat.ltb_spec tc max_tries); [lia|].
         cbn. rewrite app_nil_r. repeat split; try lia; by left. }
    destruct (execute rq (attempts d)) as [id name|e] eqn:He.
    { exists []. rewrite (gdrive_props.upload_loop_created _ _ _ _ _ _ _ _ id name) by done.
      cbn. rewrite app_nil_r. repeat split; try lia; by left. }
    assert (Hother : forall r0 d0,
               upload_loop (S turns) rq tc d = (r0, d0) ->
               sleeps d0 = sleeps d -> attempts d0 = S (attempts d) ->
               (stdout d0 = stdout d \/
                exists line, r0 = Ok LoopReturn /\ stdout d0 = stdout d ++ [line]) ->
               exists slots : list N,
                 let r := upload_loop (S turns) rq tc d in
                 sleeps (snd r) = sleeps d ++ (sleep_of <$> slots) /\
                 (length slots <= S turns)%nat /\
                 (attempts d <= attempts (snd r) <= attempts d + S turns)%nat /\
                 (length slots <= attempts (snd r) - attempts d)%nat /\
                 sum_slots slots <= slots_bound (S turns) tc /\
                 (stdout (snd r) = stdout d \/
                  exists line, fst r = Ok LoopReturn /\ stdout (snd r) = stdout d ++ [line])).
    { intros r0 d0 -> Hs Ha Ho. exists [].
      cbn [fst snd fmap list_fmap length sum_slots foldr].
      rewrite app_nil_r, Ha. repeat split; try done; lia. }
    assert (Hstep : upload_loop (S turns) rq tc d =
              match e with
              | EHttp err =>
                  if bool_decide (status err ∈ retryable_statuses) then
                    upload_loop turns rq (S tc)
                      (mkDrive (S (attempts d)) (S (rand_pos d))
                         (sleeps d ++ [gdrive.backoff rand (S tc) (rand_pos d)]) (stdout d))
                  else if startswith (lit "application/json")
                                     (default [] (content_type err)) then
                    match error_reason json_loads (content err) with
                    | Err e' => (Err e', mkDrive (S (attempts d)) (rand_pos d)
                                                 (sleeps d) (stdout d))
                    | Ok reason =>
                        (Ok LoopReturn,
                         mkDrive (S (attempts d)) (rand_pos d) (sleeps d)
                           (stdout d ++ [lit "Could not upload file or retry because of: "
                                         ++ format_reason py_repr reason]))
                    end
                  else (Err (EHttp err), mkDrive (S (attempts d)) (rand_pos d)
                                                 (sleeps d) (stdout d))
              | _ => (Err e, mkDrive (S (attempts d)) (rand_pos d) (sleeps d) (stdout d))
              end).
    { cbn [gdrive.upload_loop]. destruct (Nat.ltb_spec tc max_tries); [|lia].
      unfold call. rewrite He. by destruct e. }
    destruct e as [err| | | | | | |];
      try (eapply Hother; [exact Hstep|done|done|by left]).
    case_bool_decide as Hst.
    2: { destruct (startswith _ _); [destruct (error_reason _ _)|];
           (eapply Hother; [exact Hstep|done|done|]); first [by left|right; by eexists]. }
    rewrite Hstep.
    set (d3 := mkDrive _ _ _ _).
    destruct (IH (S tc) d3) as (slots & Hsl & Hlen & Hatt & Hla & Hsum & Hout).
    exists (gdrive.backoff_slots rand (S tc) (rand_pos d) :: slots). cbn zeta in *.
    rewrite Hsl. cbn [d3 sleeps attempts stdout] in *.
    split; [by rewrite <- app_assoc|].
    split; [cbn; lia|]. split; [lia|]. split; [cbn; lia|].
    split; [|done].
    cbn [sum_slots foldr slots_bound]. fold (sum_slots slots).
    pose proof (gdrive_props.backoff_slots_bound rand (S tc) (rand_pos d)). lia.
Qed.

(** X7. Whatever the remote service answers, [_upload_file] calls it at most
    [max_tries = 10] times, sleeps only between calls, each time a whole
    number of slots of 0.1 s, at most 2036 slots (203.6 s) in all, and
    prints at most one line. *)
Theorem upload_file_bounded
        (file_name : str) (parent_ids : option (list str)) (file_path : option str)
        (data : option bytes) (d : Drive) :
  exists slots : list N,
    let d' := snd (_upload_file file_name parent_ids file_path data d) in
    sleeps d' = sleeps d ++ (sleep_of <$> slots) /\
    sum_slots slots <= 2036 /\
    (attempts d <= attempts d' <= attempts d + 10)%nat /\
    (length slots <= attempts d' - attempts d)%nat /\
    (length (stdout d) <= length (stdout d') <= length (stdout d) + 1)%nat.
Proof.
  unfold gdrive._upload_file.
  destruct (upload_request _ _ _ _ _) as [rq|e].
  2: { exists []. cbn. rewrite app_nil_r. repeat split; lia. }
  destruct (upload_loop_bounds rq max_tries 0 d)
    as (slots & Hsl & Hlen & Hatt & Hla & Hsum & Hout).
  exists slots. cbn zeta in *.
  change (slots_bound max_tries 0) with 2036 in Hsum.
  change (attempts d + max_tries)%nat with (attempts d + 10)%nat in Hatt.
  destruct (upload_loop max_tries rq 0 d) as [[[[f|]|]|e] d'];
    cbn [fst snd print sleeps attempts stdout] in *;
    (split; [done|]); (split; [done|]); (split; [lia|]); (split; [done|]);
    destruct Hout as [->|(line & Hr & ->)]; try discriminate;
    rewrite ?length_app; cbn; lia.
Qed.

(** X8. A call that does not fail with a retryable status is the last one:
    [_upload_file] calls the service once, draws no random number and does
    not sleep. *)
Theorem upload_file_single_call
        (file_name : str) (parent_ids : option (list str)) (file_path : option str)
        (data : option bytes) (rq : request) (d : Drive) :
  upload_request isfile file_name parent_ids file_path data = Ok rq ->
  ~ transient (execute rq (attempts d)) ->
  let d' := snd (_upload_file file_name parent_ids file_path data d) in
  attempts d' = S (attempts d) /\ rand_pos d' = rand_pos d /\ sleeps d' = sleeps d.
Proof.
  intros Hrq Hnt. unfold gdrive._upload_file. rewrite Hrq.
  change max_tries with (S 9). cbn [gdrive.upload_loop].
  change (0 <? S 9)%nat with true. cbv iota. unfold call.
  destruct (execute rq (attempts d)) as [id name|e] eqn:He; [done|].
  destruct e as [err| | | | | | |]; try done.
  case_bool_decide as Hst.
  { exfalso. apply Hnt. by exists err. }
  destruct (startswith _ _); [destruct (error_reason _ _)|]; done.
Qed.

(** X9. After [m] retried calls, [m < 10], a call that succeeds ends
    [_upload_file] without a line printed: [m + 1] calls, [m] sleeps. *)
Theorem upload_file_created_after
        (file_name : str) (parent_ids : option (list str)) (file_path : option str)
        (data : option bytes) (rq : request) (d : Drive) (m : nat) (id name : str) :
  upload_request isfile file_name parent_ids file_path data = Ok rq ->
  (m < max_tries)%nat ->
  (forall i, (i < m)%nat -> transient (execute rq (attempts d + i))) ->
  execute rq (attempts d + m) = Created id name ->
  _upload_file file_name parent_ids file_path data d =
    (Ok tt,
     mkDrive (attempts d + m + 1) (rand_pos d + m)
       (sleeps d ++ ((fun i => gdrive.backoff rand (1 + i) (rand_pos d + i)) <$> seq 0 m))
       (stdout d)).
Proof.
  intros Hrq Hm Hfail Hok. unfold gdrive._upload_file. rewrite Hrq.
  rewrite (gdrive_props.upload_loop_retries _ _ _ _ rq m max_tries 0 d) by (done || lia).
  destruct (max_tries - m)%nat as [|turns] eqn:Hturns; [lia|].
  rewrite (gdrive_props.upload_loop_created _ _ _ _ turns rq _ _ id name);
    [|lia|exact Hok].
  cbn [attempts stdout sleeps gdrive.after_retries rand_pos].
  by rewrite <- Nat.add_1_r.
Qed.

(** X10. What [_upload_file] lets through. After [m] retried calls, [m < 10]:
    an exception of the call that is not an [HttpError] propagates; an
    [HttpError] with a status outside the retryable ones and a content type
    that is not JSON is raised again; with a JSON content type and a body
    from which the reason cannot be read, the exception of reading it
    propagates. Nothing is printed in any of the three cases. *)
Theorem upload_file_raises
        (file_name : str) (parent_ids : option (list str)) (file_path : option str)
        (data : option bytes) (rq : request) (d : Drive) (m : nat) (e : error) :
  upload_request isfile file_name parent_ids file_path data = Ok rq ->
  (m < max_tries)%nat ->
  (forall i, (i < m)%nat -> transient (execute rq (attempts d + i))) ->
  (execute rq (attempts d + m) = Fails e /\ (forall h, e <> EHttp h)) \/
  (exists h, execute rq (attempts d + m) = Fails (EHttp h) /\
             (status h ∉ retryable_statuses) /\
             ((startswith (lit "application/json") (default [] (content_type h)) = false /\
               e = EHttp h) \/
              (startswith (lit "application/json") (default [] (content_type h)) = true /\
               error_reason json_loads (content h) = Err e))) ->
  _upload_file file_name parent_ids file_path data d =
    (Err e,
     mkDrive (attempts d + m + 1) (rand_pos d + m)
       (sleeps d ++ ((fun i => gdrive.backoff rand (1 + i) (rand_pos d + i)) <$> seq 0 m))
       (stdout d)).
Proof.
  intros Hrq Hm Hfail Hlast. unfold gdrive._upload_file. rewrite Hrq.
  rewrite (gdrive_props.upload_loop_retries _ _ _ _ rq m max_tries 0 d) by (done || lia).
  destruct (max_tries - m)%nat as [|turns] eqn:Hturns; [lia|].
  cbn [gdrive.upload_loop]. destruct (Nat.ltb_spec (0 + m) max_tries); [|lia].
  unfold call. cbn [attempts stdout sleeps gdrive.after_retries rand_pos].
  rewrite <- (Nat.add_1_r (attempts d + m)).
  destruct Hlast as [[He Hne]|(h & He & Hst & [[Hct ->]|[Hct Hbody]])]; rewrite He.
  - destruct e; try done. by destruct (Hne e).
  - rewrite (bool_decide_eq_false_2 _ Hst), Hct. done.
  - rewrite (bool_decide_eq_false_2 _ Hst), Hct, Hbody. done.
Qed.

End retry_more.
End gdrive_more.

(** ** functions.py: note pages *)

(** *** Lines and text *)

Lemma readlines_cons (c : N) (s : str) :
  readlines (c :: s) =
    if c =? NL then [c] :: readlines s
    else match readlines s with
         | [] => [[c]]
         | l :: ls => (c :: l) :: ls
         end.
Proof. reflexivity. Qed.

Lemma concat_readlines (s : str) : concat (readlines s) = s.
Proof.
  induction s as [|c s IH]; [done|]. rewrite readlines_cons.
  destruct (c =? NL); [cbn; by rewrite IH|].
  destruct (readlines s) as [|l ls]; cbn in *; by rewrite <- IH.
Qed.

Lemma full_line_cons (c : N) (l : str) : c <> NL -> full_line l -> full_line (c :: l).
Proof.
  intros Hc (x & -> & Hx). exists (c :: x). split; [done|].
  apply not_elem_of_cons. done.
Qed.

Lemma open_line_cons (c : N) (l : str) : c <> NL -> NL ∉ l -> open_line (c :: l).
Proof. intros Hc Hl. split; [done|]. apply not_elem_of_cons. split; [congruence|done]. Qed.

Lemma full_line_NL : full_line [NL].
Proof. exists []. split; [done|apply not_elem_of_nil]. Qed.

Lemma page_lines_readlines (s : str) : page_lines (readlines s).
Proof.
  induction s as [|c s IH]; [constructor|]. rewrite readlines_cons.
  destruct (N.eqb_spec c NL) as [->|Hc].
  - apply page_cons; [apply full_line_NL|done].
  - inversion IH as [|l [Hl|[_ Hl]]|l ls Hl Hls].
    + apply page_last. right. apply open_line_cons; [done|apply not_elem_of_nil].
    + apply page_last. left. by apply full_line_cons.
    + apply page_last. right. by apply open_line_cons.
    + apply page_cons; [by apply full_line_cons|done].
Qed.

Lemma readlines_no_sep (x : str) : NL ∉ x -> x <> [] -> readlines x = [x].
Proof.
  induction x as [|c x IH]; [done|]. intros [Hc Hx]%not_elem_of_cons _.
  rewrite readlines_cons. destruct (N.eqb_spec c NL); [congruence|].
  destruct x as [|d x]; [done|]. by rewrite IH.
Qed.

Lemma readlines_full (x s : str) :
  NL ∉ x -> readlines (x ++ NL :: s) = (x ++ [NL]) :: readlines s.
Proof.
  induction x as [|c x IH]; [done|]. intros [Hc Hx]%not_elem_of_cons.
  cbn [app]. rewrite readlines_cons. destruct (N.eqb_spec c NL); [congruence|].
  by rewrite IH.
Qed.

Lemma readlines_concat (ls : list str) : page_lines ls -> readlines (concat ls) = ls.
Proof.
  induction 1 as [|l [(x & -> & Hx)|[Hne Hl]]|l ls (x & -> & Hx) Hls IH].
  - done.
  - cbn [concat]. rewrite app_nil_r. by rewrite readlines_full.
  - cbn [concat]. rewrite app_nil_r. by apply readlines_no_sep.
  - cbn [concat]. rewrite <- app_assoc. cbn [app]. by rewrite readlines_full, IH.
Qed.

(** Every line but the last is full. *)
Lemma page_lines_app_full (ls : list str) (l : str) :
  Forall full_line ls -> full_line l \/ open_line l -> page_lines (ls ++ [l]).
Proof.
  induction 1 as [|x ls Hx Hls IH]; intros Hl; [by apply page_last|].
  apply page_cons; [done|by apply IH].
Qed.

Lemma page_lines_all_full (ls : list str) : Forall full_line ls -> page_lines ls.
Proof.
  induction 1 as [|x ls Hx Hls IH]; [constructor|]. by apply page_cons.
Qed.

Lemma page_lines_inv (ls : list str) :
  page_lines ls ->
  ls = [] \/ exists init l, ls = init ++ [l] /\ Forall full_line init /\
                            (full_line l \/ open_line l).
Proof.
  induction 1 as [|l Hl|l ls Hl Hls IH]; [by left|right..].
  - by exists [], l.
  - destruct IH as [->|(init & l0 & -> & Hinit & Hl0)].
    + exists [], l. split; [done|]. split; [constructor|by left].
    + exists (l :: init), l0. split; [done|]. split; [by constructor|done].
Qed.

Lemma page_lines_delete (i : nat) (ls : list str) :
  page_lines ls -> page_lines (delete i ls).
Proof.
  intros [->|(init & l & -> & Hinit & Hl)]%page_lines_inv; [constructor|].
  destruct (Nat.lt_ge_cases i (length init)) as [Hi|Hi].
  - rewrite delete_take_drop, take_app_le, drop_app_le by lia.
    rewrite app_assoc. apply page_lines_app_full; [|done].
    apply Forall_app. split; [by apply Forall_take|by apply Forall_drop].
  - destruct (decide (i = length init)) as [->|Hne].
    + rewrite delete_take_drop, take_app_length.
      rewrite drop_app_ge by lia. replace (S (length init) - length init)%nat with 1%nat by lia.
      cbn. rewrite app_nil_r. by apply page_lines_all_full.
    + rewrite delete_take_drop. rewrite take_ge, drop_ge by (rewrite length_app; cbn; lia).
      rewrite app_nil_r. by apply page_lines_app_full.
Qed.

Lemma page_lines_insert (i : nat) (x : str) (ls : list str) :
  page_lines ls -> full_line x -> (i < length ls)%nat ->
  page_lines (take i ls ++ x :: drop i ls).
Proof.
  intros [->|(init & l & -> & Hinit & Hl)]%page_lines_inv Hx Hi; [cbn in Hi; lia|].
  rewrite length_app in Hi. cbn in Hi.
  rewrite take_app_le, drop_app_le by lia.
  change (take i init ++ x :: drop i init ++ [l])
    with (take i init ++ (x :: drop i init) ++ [l]).
  rewrite app_assoc. apply page_lines_app_full; [|done].
  apply Forall_app. split; [by apply Forall_take|].
  constructor; [done|by apply Forall_drop].
Qed.

Lemma page_lines_update (i : nat) (x : str) (ls : list str) :
  page_lines ls -> full_line x -> page_lines (<[i := x]> ls).
Proof.
  intros [->|(init & l & -> & Hinit & Hl)]%page_lines_inv Hx; [constructor|].
  destruct (Nat.lt_ge_cases i (length init)) as [Hi|Hi].
  - rewrite insert_app_l by done. apply page_lines_app_full; [|done].
    by apply Forall_insert.
  - rewrite insert_app_r_alt by done.
    destruct (i - length init)%nat; cbn; apply page_lines_app_full; try done. by left.
Qed.

(** *** Newlines *)

Lemma universal_newlines_cons (c : N) (s : str) :
  universal_newlines (c :: s) =
    if c =? CR then
      NL :: match s with
            | c' :: s'' => if c' =? NL then universal_newlines s''
                           else universal_newlines s
            | [] => []
            end
    else c :: universal_newlines s.
Proof. destruct s; reflexivity. Qed.

Lemma universal_newlines_id (s : str) : CR ∉ s -> universal_newlines s = s.
Proof.
  induction s as [|c s IH]; [done|]. intros [Hc Hs]%not_elem_of_cons.
  rewrite universal_newlines_cons. destruct (N.eqb_spec c CR); [done|]. by rewrite IH.
Qed.

Lemma universal_newlines_Forall_aux (P : N -> Prop) (n : nat) :
  P NL -> forall s, (length s <= n)%nat -> Forall P s -> Forall P (universal_newlines s).
Proof.
  intros HNL. induction n as [|n IH]; intros s Hlen Hs.
  - destruct s; [constructor|cbn in Hlen; lia].
  - destruct s as [|c s]; [constructor|]. cbn in Hlen.
    inversion Hs as [|? ? Hc Hs']; subst.
    rewrite universal_newlines_cons. destruct (c =? CR).
    + constructor; [done|]. destruct s as [|c' s'']; [constructor|].
      inversion Hs'; subst. cbn in Hlen.
      destruct (c' =? NL); apply IH; try done; cbn; lia.
    + constructor; [done|]. apply IH; [lia|done].
Qed.

Lemma universal_newlines_Forall (P : N -> Prop) (s : str) :
  P NL -> Forall P s -> Forall P (universal_newlines s).
Proof. intros. by apply (universal_newlines_Forall_aux P (length s)). Qed.

Lemma universal_newlines_no_CR_aux (n : nat) :
  forall s, (length s <= n)%nat -> CR ∉ universal_newlines s.
Proof.
  induction n as [|n IH]; intros s Hlen.
  - destruct s; [apply not_elem_of_nil|cbn in Hlen; lia].
  - destruct s as [|c s]; [apply not_elem_of_nil|]. cbn in Hlen.
    rewrite universal_newlines_cons. destruct (N.eqb_spec c CR).
    + apply not_elem_of_cons. split; [done|].
      destruct s as [|c' s'']; [apply not_elem_of_nil|]. cbn in Hlen.
      destruct (c' =? NL); apply IH; cbn; lia.
    + apply not_elem_of_cons. split; [done|]. apply IH. lia.
Qed.

Lemma universal_newlines_no_CR (s : str) : CR ∉ universal_newlines s.
Proof. by apply (universal_newlines_no_CR_aux (length s)). Qed.

(** *** Reading and writing a page *)

Lemma page_char_NL : page_char NL.
Proof. split; [apply NL_encodable|done]. Qed.

Lemma Forall_page_char (s : str) :
  Forall page_char s <-> Forall encodable s /\ (CR ∉ s).
Proof.
  unfold page_char. rewrite Forall_and. apply and_iff_compat_l.
  rewrite Forall_forall. split.
  - intros Hs Hin. by apply (Hs CR).
  - intros Hs x Hx ->. done.
Qed.

Lemma Forall_concat_inv {A} (P : A -> Prop) (ls : list (list A)) :
  Forall P (concat ls) -> Forall (Forall P) ls.
Proof.
  induction ls as [|l ls IH]; [constructor|]. cbn.
  intros [Hl Hls]%Forall_app. constructor; [done|by apply IH].
Qed.

Lemma Forall_concat_2 {A} (P : A -> Prop) (ls : list (list A)) :
  Forall (Forall P) ls -> Forall P (concat ls).
Proof.
  induction 1 as [|l ls Hl Hls IH]; [constructor|]. cbn.
  apply Forall_app. done.
Qed.

Lemma read_text_lines_run (path : str) (w : World) (b : bytes) (s : str) :
  fs w !! path = Some b -> decode_utf8 b = Some s ->
  read_text_lines path w = (Return (readlines (universal_newlines s)), w).
Proof.
  intros Hf Hs. unfold read_text_lines, bind, read_file. rewrite Hf.
  unfold bytes_decode. by rewrite Hs.
Qed.

Lemma read_text_lines_inv (path : str) (w w' : World) (notes : list str) :
  read_text_lines path w = (Return notes, w') ->
  w' = w /\
  exists (b : bytes) (s : str),
    fs w !! path = Some b /\ decode_utf8 b = Some s /\
    notes = readlines (universal_newlines s).
Proof.
  unfold read_text_lines, bind, read_file.
  destruct (fs w !! path) as [b|]; [|discriminate].
  unfold bytes_decode. destruct (decode_utf8 b) as [s|] eqn:Hs; [|discriminate].
  intros [= <- <-]. split; [done|]. by exists b, s.
Qed.

(** What was read from a page can be written back and read again. *)
Lemma read_text_lines_good (path : str) (w w' : World) (notes : list str) :
  read_text_lines path w = (Return notes, w') ->
  page_lines notes /\ Forall (Forall page_char) notes.
Proof.
  intros (_ & b & s & _ & Hs & ->)%read_text_lines_inv.
  split; [apply page_lines_readlines|].
  apply Forall_concat_inv. rewrite concat_readlines. apply Forall_page_char.
  split; [|apply universal_newlines_no_CR].
  apply universal_newlines_Forall; [apply NL_encodable|].
  by eapply decode_utf8_encodable.
Qed.

Lemma write_read_lines (path : str) (ls : list str) (w : World) :
  page_lines ls -> Forall (Forall page_char) ls ->
  exists enc : bytes,
    encode_utf8 (concat ls) = Some enc /\
    write_text_lines path ls w = (Return tt, with_file path enc w) /\
    read_text_lines path (with_file path enc w) = (Return ls, with_file path enc w).
Proof.
  intros Hpage Hchars.
  apply Forall_concat_2, Forall_page_char in Hchars as [Henc Hcr].
  apply encode_utf8_encodable in Henc as [enc Henc].
  exists enc. split; [done|]. split; [by apply write_text_lines_run|].
  rewrite (read_text_lines_run path _ enc (concat ls));
    [|cbn [with_file fs]; apply lookup_insert_eq|by apply decode_encode_utf8].
  by rewrite universal_newlines_id, readlines_concat.
Qed.

Lemma full_line_snoc (msg : str) : NL ∉ msg -> full_line (msg ++ [NL]).
Proof. intros Hm. by exists msg. Qed.

Lemma page_char_line (msg : str) :
  Forall encodable msg -> CR ∉ msg -> Forall page_char (msg ++ [NL]).
Proof.
  intros He Hc. apply Forall_app. split; [by apply Forall_page_char|].
  constructor; [apply page_char_NL|constructor].
Qed.

(** Running the console functions by their definitions. *)
Ltac io_run :=
  unfold io_bind, input, print, io_ret, lift;
  cbn [typed world screen].

Section notes.
Variable py_int : str -> option Z.

Lemma in_range_delete (n : Z) (notes : list str) :
  (0 <= n < Z.of_nat (length notes))%Z ->
  (n <? 0)%Z || (Z.of_nat (length notes) - 1 <? n)%Z = false.
Proof. intros Hn. apply orb_false_iff. split; apply Z.ltb_ge; lia. Qed.

Lemma out_of_range_delete (n : Z) (notes : list str) :
  ~ (0 <= n < Z.of_nat (length notes))%Z ->
  (n <? 0)%Z || (Z.of_nat (length notes) - 1 <? n)%Z = true.
Proof.
  intros Hn. apply orb_true_iff.
  destruct (Z.ltb_spec n 0); [by left|right]. apply Z.ltb_lt. lia.
Qed.

Lemma in_range_insert (n : Z) (notes : list str) :
  (0 <= n < Z.of_nat (length notes))%Z ->
  negb ((0 <=? n)%Z && (n <? Z.of_nat (length notes))%Z) = false.
Proof.
  intros Hn. apply negb_false_iff, andb_true_iff.
  split; [apply Z.leb_le|apply Z.ltb_lt]; lia.
Qed.

Lemma out_of_range_insert (n : Z) (notes : list str) :
  ~ (0 <= n < Z.of_nat (length notes))%Z ->
  negb ((0 <=? n)%Z && (n <? Z.of_nat (length notes))%Z) = true.
Proof.
  intros Hn. apply negb_true_iff, andb_false_iff.
  destruct (Z.leb_spec 0 n); [right|by left]. apply Z.ltb_ge. lia.
Qed.

(** The three functions up to the writing of the page. *)
Lemma delete_note_run
      (filename : str) (w : World) (notes : list str) (inp : str) (n : Z)
      (rest : list str) (scr : list output) :
  read_text_lines filename w = (Return notes, w) ->
  py_int inp = Some n ->
  (0 <= n < Z.of_nat (length notes))%Z ->
  delete_note py_int filename (mkConsole w (inp :: rest) scr)
    = lift (write_text_lines filename (delete (Z.to_nat n) notes))
           (mkConsole w rest (scr ++ [Prompt (lit "Enter a number to delete" ++ [NL])])).
Proof.
  intros Hread Hint Hn.
  unfold delete_note. io_run. rewrite Hint. io_run. rewrite Hread.
  by rewrite in_range_delete by done.
Qed.

Lemma change_note_run
      (filename : str) (w : World) (notes : list str) (inp msg : str) (n : Z)
      (rest : list str) (scr : list output) :
  read_text_lines filename w = (Return notes, w) ->
  py_int inp = Some n ->
  (0 <= n < Z.of_nat (length notes))%Z ->
  change_note py_int filename (mkConsole w (inp :: msg :: rest) scr)
    = lift (write_text_lines filename (<[Z.to_nat n := msg ++ [NL]]> notes))
           (mkConsole w rest
              (scr ++ [Prompt (lit "Enter a number to change" ++ [NL])]
                   ++ [Prompt (lit "Enter replacement message" ++ [NL])])).
Proof.
  intros Hread Hint Hn.
  unfold change_note. io_run. rewrite Hint. io_run. rewrite Hread.
  rewrite in_range_delete by done. io_run. by rewrite <- app_assoc.
Qed.

Lemma insert_note_run
      (file_name : str) (w : World) (notes : list str) (inp msg : str) (n : Z)
      (rest : list str) (scr : list output) :
  read_text_lines file_name w = (Return notes, w) ->
  py_int inp = Some n ->
  (0 <= n < Z.of_nat (length notes))%Z ->
  insert_note py_int file_name (mkConsole w (inp :: msg :: rest) scr)
    = lift (write_text_lines file_name
              (take (Z.to_nat n) notes ++ (msg ++ [NL]) :: drop (Z.to_nat n) notes))
           (mkConsole w rest
              (scr ++ [Prompt (lit "Enter a number to insert" ++ [NL])]
                   ++ [Prompt (lit "Enter a message to insert" ++ [NL])])).
Proof.
  intros Hread Hint Hn.
  unfold insert_note. io_run. rewrite Hint. io_run. rewrite Hread.
  rewrite in_range_insert by done. io_run. by rewrite <- app_assoc.
Qed.

(** Writing lines that can be written, from the console. *)
Lemma lift_write_read_lines (path : str) (ls : list str) (c : Console) :
  page_lines ls -> Forall (Forall page_char) ls ->
  exists enc : bytes,
    let w' := with_file path enc (world c) in
    lift (write_text_lines path ls) c = (Value tt, mkConsole w' (typed c) (screen c)) /\
    read_text_lines path w' = (Return ls, w').
Proof.
  intros Hpage Hchars.
  destruct (write_read_lines path ls (world c) Hpage Hchars) as (enc & _ & Hwrite & Hback).
  exists enc. split; [|done]. unfold lift. by rewrite Hwrite.
Qed.

Lemma insert_line_good (i : nat) (msg : str) (notes : list str) :
  page_lines notes -> Forall (Forall page_char) notes -> (i < length notes)%nat ->
  Forall encodable msg -> NL ∉ msg -> CR ∉ msg ->
  page_lines (take i notes ++ (msg ++ [NL]) :: drop i notes) /\
  Forall (Forall page_char) (take i notes ++ (msg ++ [NL]) :: drop i notes).
Proof.
  intros Hpage Hchars Hi Henc Hnl Hcr. split.
  - by apply page_lines_insert; [|apply full_line_snoc|].
  - apply Forall_app. split; [by apply Forall_take|].
    constructor; [by apply page_char_line|by apply Forall_drop].
Qed.

(** X11. [delete_note] with the number of a note: the page read again is
    the page without that note; only the file of the page changes. *)
Theorem delete_note_deletes
        (filename : str) (w : World) (notes : list str) (inp : str) (n : Z)
        (rest : list str) (scr : list output) :
  read_text_lines filename w = (Return notes, w) ->
  py_int inp = Some n ->
  (0 <= n < Z.of_nat (length notes))%Z ->
  exists enc : bytes,
    let w' := with_file filename enc w in
    delete_note py_int filename (mkConsole w (inp :: rest) scr)
      = (Value tt, mkConsole w' rest
                     (scr ++ [Prompt (lit "Enter a number to delete" ++ [NL])])) /\
    read_text_lines filename w' = (Return (delete (Z.to_nat n) notes), w').
Proof.
  intros Hread Hint Hn.
  destruct (read_text_lines_good _ _ _ _ Hread) as [Hpage Hchars].
  rewrite (delete_note_run filename w notes inp n) by done.
  apply (lift_write_read_lines filename _ (mkConsole w rest _));
    [by apply page_lines_delete|by apply Forall_delete].
Qed.

(** X12. [change_note] with the number of a note and a replacement (one
    line of text that can be encoded): the page read again has the
    replacement, with its newline, in the place of that note. *)
Theorem change_note_changes
        (filename : str) (w : World) (notes : list str) (inp msg : str) (n : Z)
        (rest : list str) (scr : list output) :
  read_text_lines filename w = (Return notes, w) ->
  py_int inp = Some n ->
  (0 <= n < Z.of_nat (length notes))%Z ->
  Forall encodable msg -> NL ∉ msg -> CR ∉ msg ->
  exists enc : bytes,
    let w' := with_file filename enc w in
    change_note py_int filename (mkConsole w (inp :: msg :: rest) scr)
      = (Value tt, mkConsole w' rest
                     (scr ++ [Prompt (lit "Enter a number to change" ++ [NL])]
                          ++ [Prompt (lit "Enter replacement message" ++ [NL])])) /\
    read_text_lines filename w'
      = (Return (<[Z.to_nat n := msg ++ [NL]]> notes), w').
Proof.
  intros Hread Hint Hn Henc Hnl Hcr.
  destruct (read_text_lines_good _ _ _ _ Hread) as [Hpage Hchars].
  rewrite (change_note_run filename w notes inp msg n) by done.
  apply (lift_write_read_lines filename _ (mkConsole w rest _)).
  - by apply page_lines_update, full_line_snoc.
  - apply Forall_insert; [done|by apply page_char_line].
Qed.

(** X13. [insert_note] with the number of a note and a message: the page
    read again has the message, with its newline, in front of that note;
    the notes before and after it are as they were, so the last note stays
    the last. *)
Theorem insert_note_inserts
        (file_name : str) (w : World) (notes : list str) (inp msg : str) (n : Z)
        (rest : list str) (scr : list output) :
  read_text_lines file_name w = (Return notes, w) ->
  py_int inp = Some n ->
  (0 <= n < Z.of_nat (length notes))%Z ->
  Forall encodable msg -> NL ∉ msg -> CR ∉ msg ->
  exists (enc : bytes) (notes' : list str),
    let w' := with_file file_name enc w in
    insert_note py_int file_name (mkConsole w (inp :: msg :: rest) scr)
      = (Value tt, mkConsole w' rest
                     (scr ++ [Prompt (lit "Enter a number to insert" ++ [NL])]
                          ++ [Prompt (lit "Enter a message to insert" ++ [NL])])) /\
    read_text_lines file_name w' = (Return notes', w') /\
    notes' = take (Z.to_nat n) notes ++ (msg ++ [NL]) :: drop (Z.to_nat n) notes /\
    length notes' = S (length notes) /\
    notes' !! Z.to_nat n = Some (msg ++ [NL]) /\
    last notes' = last notes.
Proof.
  intros Hread Hint Hn Henc Hnl Hcr.
  destruct (read_text_lines_good _ _ _ _ Hread) as [Hpage Hchars].
  rewrite (insert_note_run file_name w notes inp msg n) by done.
  set (i := Z.to_nat n). assert (Hi : (i < length notes)%nat) by lia.
  destruct (insert_line_good i msg notes) as [Hpage' Hchars']; try done.
  destruct (lift_write_read_lines file_name _ (mkConsole w rest
              (scr ++ [Prompt (lit "Enter a number to insert" ++ [NL])]
                   ++ [Prompt (lit "Enter a message to insert" ++ [NL])])) Hpage' Hchars')
    as (enc & Hrun & Hback).
  exists enc, (take i notes ++ (msg ++ [NL]) :: drop i notes).
  split; [exact Hrun|]. split; [exact Hback|]. split; [done|]. split; [|split].
  - rewrite length_app, length_take. cbn [length]. rewrite length_drop. lia.
  - rewrite lookup_app_r by (rewrite length_take; lia).
    rewrite length_take. replace (i - i `min` length notes)%nat with 0%nat by lia. done.
  - assert (Hsplit : last notes = last (take i notes ++ drop i notes))
      by (by rewrite take_drop).
    destruct (drop i notes) as [|x d] eqn:Hd.
    { apply (f_equal length) in Hd. rewrite length_drop in Hd. cbn in Hd. lia. }
    rewrite Hsplit, !last_app.
    by change (last ((msg ++ [NL]) :: x :: d)) with (last (x :: d)).
Qed.

(** X14. A text that is not a number: each of [delete_note], [change_note]
    and [insert_note] says so and returns. The page is not opened, so this
    holds even when its file does not exist, and nothing but the screen
    changes. *)
Theorem note_number_not_a_number
        (filename : str) (w : World) (inp : str) (rest : list str) (scr : list output) :
  py_int inp = None ->
  delete_note py_int filename (mkConsole w (inp :: rest) scr)
    = (Value tt, mkConsole w rest
                   (scr ++ [Prompt (lit "Enter a number to delete" ++ [NL])]
                        ++ [Printed (lit "Enter a note number")])) /\
  change_note py_int filename (mkConsole w (inp :: rest) scr)
    = (Value tt, mkConsole w rest
                   (scr ++ [Prompt (lit "Enter a number to change" ++ [NL])]
                        ++ [Printed (lit "Enter a note number")])) /\
  insert_note py_int filename (mkConsole w (inp :: rest) scr)
    = (Value tt, mkConsole w rest
                   (scr ++ [Prompt (lit "Enter a number to insert" ++ [NL])]
                        ++ [Printed (lit "Enter a note number")])).
Proof.
  intros Hint.
  unfold delete_note, change_note, insert_note.
  io_run. rewrite Hint. io_run. by rewrite <- !app_assoc.
Qed.

(** X15. A number that is not the number of a note, [0 .. len(notes) - 1]:
    each of the three functions says so and returns; no file changes and no
    message is asked for. For [insert_note] this includes [len(notes)]:
    nothing can be put after the last note, or into an empty page. *)
Theorem note_number_out_of_range
        (filename : str) (w : World) (notes : list str) (inp : str) (n : Z)
        (rest : list str) (scr : list output) :
  read_text_lines filename w = (Return notes, w) ->
  py_int inp = Some n ->
  ~ (0 <= n < Z.of_nat (length notes))%Z ->
  delete_note py_int filename (mkConsole w (inp :: rest) scr)
    = (Value tt, mkConsole w rest
                   (scr ++ [Prompt (lit "Enter a number to delete" ++ [NL])]
                        ++ [Printed (lit "invalid note number")])) /\
  change_note py_int filename (mkConsole w (inp :: rest) scr)
    = (Value tt, mkConsole w rest
                   (scr ++ [Prompt (lit "Enter a number to change" ++ [NL])]
                        ++ [Printed (lit "invalid number")])) /\
  insert_note py_int filename (mkConsole w (inp :: rest) scr)
    = (Value tt, mkConsole w rest
                   (scr ++ [Prompt (lit "Enter a number to insert" ++ [NL])]
                        ++ [Printed (lit "invalid number")])).
Proof.
  intros Hread Hint Hn.
  unfold delete_note, change_note, insert_note.
  io_run. rewrite Hint. io_run. rewrite Hread.
  rewrite out_of_range_delete, out_of_range_insert by done.
  io_run. by rewrite <- !app_assoc.
Qed.

(** X16. [insert_note] and then [delete_note] with the same number give the
    page back as it was read before; no other file changes. *)
Theorem insert_then_delete
        (filename : str) (w : World) (notes : list str) (inp msg : str) (n : Z)
        (rest : list str) (scr : list output) :
  read_text_lines filename w = (Return notes, w) ->
  py_int inp = Some n ->
  (0 <= n < Z.of_nat (length notes))%Z ->
  Forall encodable msg -> NL ∉ msg -> CR ∉ msg ->
  exists c1 c2 : Console,
    insert_note py_int filename (mkConsole w (inp :: msg :: inp :: rest) scr)
      = (Value tt, c1) /\
    delete_note py_int filename c1 = (Value tt, c2) /\
    typed c2 = rest /\
    read_text_lines filename (world c2) = (Return notes, world c2) /\
    forall p, p <> filename -> fs (world c2) !! p = fs w !! p.
Proof.
  intros Hread Hint Hn Henc Hnl Hcr.
  destruct (read_text_lines_good _ _ _ _ Hread) as [Hpage Hchars].
  set (i := Z.to_nat n). assert (Hi : (i < length notes)%nat) by lia.
  set (notes' := take i notes ++ (msg ++ [NL]) :: drop i notes).
  destruct (insert_line_good i msg notes) as [Hpage' Hchars']; try done.
  fold notes' in Hpage', Hchars'.
  assert (Hdel : delete i notes' = notes).
  { unfold notes'. rewrite delete_take_drop.
    assert (length (take i notes) = i) as Hti by (rewrite length_take; lia).
    rewrite take_app_length' by done.
    rewrite drop_app_ge by lia. rewrite Hti.
    replace (S i - i)%nat with 1%nat by lia. cbn [drop].
    rewrite drop_0. apply take_drop. }
  assert (Hlen' : length notes' = S (length notes)).
  { unfold notes'. rewrite length_app, length_take. cbn [length]. rewrite length_drop. lia. }
  set (scr1 := scr ++ [Prompt (lit "Enter a number to insert" ++ [NL])]
                   ++ [Prompt (lit "Enter a message to insert" ++ [NL])]).
  destruct (lift_write_read_lines filename notes' (mkConsole w (inp :: rest) scr1)
              Hpage' Hchars') as (enc & Hrun1 & Hback1).
  cbn [world typed screen] in Hrun1, Hback1.
  set (w1 := with_file filename enc w) in *.
  destruct (lift_write_read_lines filename notes
              (mkConsole w1 rest
                 (scr1 ++ [Prompt (lit "Enter a number to delete" ++ [NL])]))
              Hpage Hchars) as (enc2 & Hrun2 & Hback2).
  cbn [world typed screen] in Hrun2, Hback2.
  eexists _, _. split; [|split; [|split; [|split]]].
  - rewrite (insert_note_run filename w notes inp msg n) by done. exact Hrun1.
  - rewrite (delete_note_run filename w1 notes' inp n) by (done || lia).
    fold i. rewrite Hdel. exact Hrun2.
  - done.
  - exact Hback2.
  - intros p Hp. cbn [world w1 with_file fs]. by rewrite !lookup_insert_ne.
Qed.

End notes.

(** *** [add_note] *)

Lemma decode_utf8_app_aux (n : nat) :
  forall (b1 : bytes) (s1 : str) (b2 : bytes) (s2 : str),
    (length b1 <= n)%nat ->
    decode_utf8 b1 = Some s1 -> decode_utf8 b2 = Some s2 ->
    decode_utf8 (b1 ++ b2) = Some (s1 ++ s2).
Proof.
  induction n as [|n IH]; intros b1 s1 b2 s2 Hn H1 H2.
  - destruct b1; [|simpl in Hn; lia]. by injection H1 as <-.
  - destruct b1 as [|x1 l1]; [by injection H1 as <-|].
    cbn [app]. cbn [decode_utf8] in *. cbn [length] in Hn.
    destruct (Byte.to_N x1 <? 0x80).
    { apply fmap_cons_Some in H1 as (s' & Hs' & ->).
      by rewrite (IH l1 s' b2 s2) by (done || lia). }
    destruct (Byte.to_N x1 <? 0xC2); [discriminate|].
    destruct l1 as [|x2 l2]; [discriminate|]. cbn [app length] in *.
    destruct (Byte.to_N x1 <? 0xE0).
    { destruct (is_cont (Byte.to_N x2)); [|discriminate].
      apply fmap_cons_Some in H1 as (s' & Hs' & ->).
      by rewrite (IH l2 s' b2 s2) by (done || lia). }
    destruct l2 as [|x3 l3]; [discriminate|]. cbn [app length] in *.
    destruct (Byte.to_N x1 <? 0xF0).
    { match type of H1 with (if ?c then _ else _) = _ => destruct c end; [|discriminate].
      apply fmap_cons_Some in H1 as (s' & Hs' & ->).
      by rewrite (IH l3 s' b2 s2) by (done || lia). }
    destruct l3 as [|x4 l4]; [discriminate|]. cbn [app length] in *.
    match type of H1 with (if ?c then _ else _) = _ => destruct c end; [|discriminate].
    apply fmap_cons_Some in H1 as (s' & Hs' & ->).
    by rewrite (IH l4 s' b2 s2) by (done || lia).
Qed.

Lemma decode_utf8_app (b1 b2 : bytes) (s1 s2 : str) :
  decode_utf8 b1 = Some s1 -> decode_utf8 b2 = Some s2 ->
  decode_utf8 (b1 ++ b2) = Some (s1 ++ s2).
Proof. apply (decode_utf8_app_aux (length b1)). lia. Qed.

Lemma readlines_nil_inv (s : str) : readlines s = [] -> s = [].
Proof.
  destruct s as [|c s]; [done|]. rewrite readlines_cons.
  destruct (c =? NL); [done|]. by destruct (readlines s).
Qed.

Lemma readlines_snoc_line (s x : str) :
  s = [] \/ last s = Some NL -> NL ∉ x ->
  readlines (s ++ x ++ [NL]) = readlines s ++ [x ++ [NL]].
Proof.
  intros Hs Hx. induction s as [|c s IH].
  - cbn [app readlines]. by rewrite (readlines_full x []).
  - destruct Hs as [?|Hlast]; [done|].
    cbn [app]. rewrite !readlines_cons.
    destruct s as [|d s].
    + injection Hlast as ->. cbn [app]. rewrite N.eqb_refl.
      by rewrite (readlines_full x []).
    + rewrite IH by (right; done).
      destruct (c =? NL); [done|].
      destruct (readlines (d :: s)) as [|l ls] eqn:Hr; [|done].
      by apply readlines_nil_inv in Hr.
Qed.

Lemma append_text_run (filename : str) (s : str) (b : bytes) (w : World) :
  encode_utf8 s = Some b ->
  append_text filename s w
    = (Return tt, with_file filename (default [] (fs w !! filename) ++ b) w).
Proof.
  intros Hb. unfold append_text, bind, append_file, str_encode. rewrite Hb.
  unfold ret. cbn [with_file fs]. rewrite lookup_insert_eq. cbn [default].
  by rewrite with_file_with_file, app_nil_r.
Qed.

(** X17. [add_note] appends the note and a newline to the bytes of the
    page, which it creates when there is none: what the file held stays in
    front. When the page held whole lines without carriage returns, the page
    read again is the old notes followed by the new one. *)
Theorem add_note_appends
        (filename : str) (w : World) (note : str) (b : bytes)
        (rest : list str) (scr : list output) :
  encode_utf8 note = Some b ->
  let old := default [] (fs w !! filename) in
  let w' := with_file filename (old ++ b ++ [x0a]) w in
  add_note filename None (mkConsole w (note :: rest) scr)
    = (Value tt, mkConsole w' rest (scr ++ [Prompt (lit "Enter note to add" ++ [NL])])) /\
  add_note filename (Some note) (mkConsole w rest scr) = (Value tt, mkConsole w' rest scr) /\
  forall s : str,
    decode_utf8 old = Some s -> CR ∉ s -> s = [] \/ last s = Some NL ->
    NL ∉ note -> CR ∉ note ->
    read_text_lines filename w' = (Return (readlines s ++ [note ++ [NL]]), w').
Proof.
  intros Hb old w'.
  assert (Henc : encode_utf8 (note ++ [NL]) = Some (b ++ [x0a]))
    by (by apply (encode_utf8_app note [NL] b [x0a])).
  split; [|split].
  - unfold add_note. io_run. by rewrite (append_text_run _ _ _ _ Henc).
  - unfold add_note. io_run. by rewrite (append_text_run _ _ _ _ Henc).
  - intros s Hs Hcr Hlast Hnl Hcr'.
    assert (Hdec : decode_utf8 (old ++ b ++ [x0a]) = Some (s ++ note ++ [NL]))
      by (apply decode_utf8_app; [done|by apply decode_encode_utf8]).
    rewrite (read_text_lines_run filename w' _ _ (lookup_insert_eq _ _ _) Hdec).
    rewrite universal_newlines_id.
    + by rewrite readlines_snoc_line.
    + rewrite !not_elem_of_app. split; [done|]. split; [done|].
      apply not_elem_of_cons. split; [done|apply not_elem_of_nil].
Qed.

(** ** functions.py: the password prompt *)

Lemma parse_line_None (l : str) : parse_line l = None <-> TAB ∉ l.
Proof.
  unfold parse_line.
  destruct (split_first TAB l) as [[Hl ->]|(a & r & -> & Ha & ->)].
  - done.
  - pose proof (split_nonempty TAB r) as Hr.
    destruct (split TAB r) as [|s1 t]; [done|].
    split; [done|]. intros Hn. exfalso. apply Hn.
    apply elem_of_app. right. by left.
Qed.

Lemma parse_line_page (l p h : str) : parse_line l = Some (p, h) -> line_page l = p.
Proof.
  unfold parse_line, line_page.
  destruct (split TAB l) as [|s0 [|s1 t]]; try done. by intros [= <- _].
Qed.

Lemma line_page_no_TAB (l : str) : TAB ∉ line_page l.
Proof.
  unfold line_page. pose proof (split_pieces TAB l) as Hp.
  destruct (split TAB l) as [|s0 t]; [apply not_elem_of_nil|].
  by inversion Hp.
Qed.

Lemma files_dict_app (L1 L2 : list str) (d : gmap str str) :
  files_dict (L1 ++ L2) d =
    match files_dict L1 d with
    | Some d1 => files_dict L2 d1
    | None => None
    end.
Proof.
  revert d. induction L1 as [|l L1 IH]; intros d; [done|].
  cbn [app files_dict]. destruct (parse_line l) as [[p h]|]; [apply IH|done].
Qed.

Lemma files_dict_Some (L : list str) (d : gmap str str) :
  Forall (fun l => TAB ∈ l) L -> is_Some (files_dict L d).
Proof.
  intros HL. revert d. induction HL as [|l L Hl HL IH]; intros d; [by eexists|].
  cbn [files_dict]. destruct (parse_line l) as [[p h]|] eqn:Hp; [apply IH|].
  by apply parse_line_None in Hp.
Qed.

Lemma files_dict_None (L : list str) (d : gmap str str) (l : str) :
  l ∈ L -> TAB ∉ l -> files_dict L d = None.
Proof.
  intros Hin Hl. revert d. induction L as [|x L IH]; intros d.
  - by apply elem_of_nil in Hin.
  - cbn [files_dict]. destruct (parse_line x) as [[p h]|] eqn:Hp; [|done].
    apply elem_of_cons in Hin as [->|Hin]; [|by apply IH].
    apply parse_line_None in Hl. congruence.
Qed.

Lemma files_dict_lookup_other (L : list str) (d d' : gmap str str) (p : str) :
  files_dict L d = Some d' ->
  Forall (fun l => line_page l <> p) L ->
  d' !! p = d !! p.
Proof.
  intros Hd HL. revert d Hd. induction HL as [|l L Hl HL IH]; intros d.
  - by intros [= <-].
  - cbn [files_dict]. destruct (parse_line l) as [[q h]|] eqn:Hp; [|done].
    intros Hd. rewrite (IH _ Hd). apply lookup_insert_ne.
    apply parse_line_page in Hp. congruence.
Qed.

Lemma files_dict_no_record (L : list str) (p : str) :
  Forall (fun l => TAB ∈ l /\ line_page l <> p) L ->
  exists files : gmap str str, files_dict L ∅ = Some files /\ files !! p = None.
Proof.
  intros [Htab Hpage]%Forall_and.
  destruct (files_dict_Some L ∅ Htab) as [files Hfiles].
  exists files. split; [done|].
  by rewrite (files_dict_lookup_other _ _ _ p Hfiles Hpage), lookup_empty.
Qed.

Lemma files_dict_last_record (before after : list str) (line p stored : str) :
  Forall (fun l => TAB ∈ l) before ->
  parse_line line = Some (p, stored) ->
  Forall (fun l => TAB ∈ l /\ line_page l <> p) after ->
  exists files : gmap str str,
    files_dict (before ++ [line] ++ after) ∅ = Some files /\ files !! p = Some stored.
Proof.
  intros Hbefore Hline [Htab Hpage]%Forall_and.
  rewrite files_dict_app.
  destruct (files_dict_Some before ∅ Hbefore) as [d0 ->].
  cbn [app files_dict]. rewrite Hline.
  destruct (files_dict_Some after (<[p := stored]> d0) Htab) as [d1 Hd1].
  exists d1. split; [done|].
  by rewrite (files_dict_lookup_other _ _ _ p Hd1 Hpage), lookup_insert_eq.
Qed.

Section prompt.
Context {F : FernetOps} {H : HashOps} {FL : FernetLaws F} {HL : HashLaws H}.

(** [_prompt_password] up to its dictionary. *)
Lemma prompt_password_run
      (file_name password_file : str) (w w1 : World) (k c : bytes) (text : str)
      (ty : list str) (scr : list output) :
  convert_load_key w = (Return k, w1) ->
  fernet_key_ok k = true ->
  fs w1 !! registry_path password_file = Some c ->
  stored_text k c = Some text ->
  _prompt_password file_name password_file (mkConsole w ty scr) =
    match files_dict (prompt_lines text) ∅ with
    | None => (Raised IndexError, mkConsole (after_read k c w1) ty scr)
    | Some files =>
        match files !! file_name with
        | Some stored =>
            io_bind (getpass (password_prompt file_name))
                    (fun password => lift (verify_password password stored))
                    (mkConsole (after_read k c w1) ty scr)
        | None => (Value true, mkConsole (after_read k c w1) ty scr)
        end
    end.
Proof.
  intros Hk Hok Hf Ht.
  destruct (read_registry_run password_file w w1 k c text) as (b & Hconv & Hb);
    try done.
  unfold _prompt_password. unfold io_bind at 1. unfold lift at 1. cbn [world typed screen].
  rewrite Hconv. unfold io_bind at 1. unfold lift at 1. cbn [world typed screen].
  unfold bytes_decode. rewrite Hb. unfold ret.
  fold (raw_lines text). fold (prompt_lines text).
  destruct (files_dict (prompt_lines text) ∅) as [files|]; [|done].
  destruct (files !! file_name); done.
Qed.

(** X18. A page without a record in the registry is opened without a
    question: when every line of the registry has a tab and none is for the
    page, [_prompt_password] returns [True]; nothing is asked and nothing
    typed is taken. *)
Theorem prompt_password_unprotected
        (file_name password_file : str) (w w1 : World) (k c : bytes) (text : str)
        (ty : list str) (scr : list output) :
  convert_load_key w = (Return k, w1) ->
  fernet_key_ok k = true ->
  fs w1 !! registry_path password_file = Some c ->
  stored_text k c = Some text ->
  Forall (fun l => TAB ∈ l /\ line_page l <> file_name) (prompt_lines text) ->
  _prompt_password file_name password_file (mkConsole w ty scr)
    = (Value true, mkConsole (after_read k c w1) ty scr).
Proof.
  intros Hk Hok Hf Ht Hall.
  rewrite (prompt_password_run _ _ w w1 k c text) by done.
  destruct (files_dict_no_record _ _ Hall) as (files & -> & ->). done.
Qed.

(** X19. A page whose name has a tab in it is never protected: the registry
    is looked up by the text before the first tab of a line, which has
    none, so [_prompt_password] returns [True] without a question whatever
    the registry holds for it. *)
Theorem prompt_password_tab_in_name
        (file_name password_file : str) (w w1 : World) (k c : bytes) (text : str)
        (ty : list str) (scr : list output) :
  convert_load_key w = (Return k, w1) ->
  fernet_key_ok k = true ->
  fs w1 !! registry_path password_file = Some c ->
  stored_text k c = Some text ->
  Forall (fun l => TAB ∈ l) (prompt_lines text) ->
  TAB ∈ file_name ->
  _prompt_password file_name password_file (mkConsole w ty scr)
    = (Value true, mkConsole (after_read k c w1) ty scr).
Proof.
  intros Hk Hok Hf Ht Hall Hfn.
  rewrite (prompt_password_run _ _ w w1 k c text) by done.
  destruct (files_dict_no_record (prompt_lines text) file_name) as (files & -> & ->);
    [|done].
  eapply Forall_impl; [exact Hall|]. intros l Hl. split; [done|].
  intros E. apply (line_page_no_TAB l). by rewrite E.
Qed.

(** X20. One line without a tab in the registry and [_prompt_password]
    raises [IndexError], for every page, before it asks anything. *)
Theorem prompt_password_malformed_line
        (file_name password_file : str) (w w1 : World) (k c : bytes) (text l : str)
        (ty : list str) (scr : list output) :
  convert_load_key w = (Return k, w1) ->
  fernet_key_ok k = true ->
  fs w1 !! registry_path password_file = Some c ->
  stored_text k c = Some text ->
  l ∈ prompt_lines text -> TAB ∉ l ->
  _prompt_password file_name password_file (mkConsole w ty scr)
    = (Raised IndexError, mkConsole (after_read k c w1) ty scr).
Proof.
  intros Hk Hok Hf Ht Hin Hl.
  rewrite (prompt_password_run _ _ w w1 k c text) by done.
  by rewrite (files_dict_None _ _ l).
Qed.

(** [_prompt_password] for a page whose last record holds [stored]. *)
Lemma prompt_password_record
      (file_name password_file : str) (w w1 : World) (k c : bytes) (text : str)
      (before after : list str) (line stored password : str)
      (rest : list str) (scr : list output) :
  convert_load_key w = (Return k, w1) ->
  fernet_key_ok k = true ->
  fs w1 !! registry_path password_file = Some c ->
  stored_text k c = Some text ->
  prompt_lines text = before ++ [line] ++ after ->
  Forall (fun l => TAB ∈ l) before ->
  parse_line line = Some (file_name, stored) ->
  Forall (fun l => TAB ∈ l /\ line_page l <> file_name) after ->
  _prompt_password file_name password_file (mkConsole w (password :: rest) scr)
    = lift (verify_password password stored)
           (mkConsole (after_read k c w1) rest
                      (scr ++ [PassPrompt (password_prompt file_name)])).
Proof.
  intros Hk Hok Hf Ht Hlines Hbefore Hline Hafter.
  rewrite (prompt_password_run _ _ w w1 k c text) by done.
  rewrite Hlines.
  destruct (files_dict_last_record before after line file_name stored)
    as (files & -> & ->); done.
Qed.

(** X21. The password typed is checked against the last record of the
    page: with the registry [before ++ [line] ++ after], every line with a
    tab, [line] a record of the page and no line of [after] one,
    [_prompt_password] asks once and answers what [verify_password] does
    on the typed password and the hash string of [line]. A typed password
    of more than 1024 characters makes it raise [ValueError]. *)
Theorem prompt_password_last_record
        (file_name password_file : str) (w w1 : World) (k c : bytes) (text : str)
        (before after : list str) (line stored password : str)
        (rest : list str) (scr : list output) :
  convert_load_key w = (Return k, w1) ->
  fernet_key_ok k = true ->
  fs w1 !! registry_path password_file = Some c ->
  stored_text k c = Some text ->
  prompt_lines text = before ++ [line] ++ after ->
  Forall (fun l => TAB ∈ l) before ->
  parse_line line = Some (file_name, stored) ->
  Forall (fun l => TAB ∈ l /\ line_page l <> file_name) after ->
  let c1 := mkConsole (after_read k c w1) rest
                      (scr ++ [PassPrompt (password_prompt file_name)]) in
  _prompt_password file_name password_file (mkConsole w (password :: rest) scr)
    = lift (verify_password password stored) c1 /\
  ((1024 < length password)%nat ->
   _prompt_password file_name password_file (mkConsole w (password :: rest) scr)
     = (Raised (Exn (ValueError "Password length must not exceed 1024")), c1)).
Proof.
  intros Hk Hok Hf Ht Hlines Hbefore Hline Hafter c1.
  pose proof (prompt_password_record file_name password_file w w1 k c text before after
                line stored password rest scr Hk Hok Hf Ht Hlines Hbefore Hline Hafter)
    as Hrun.
  split; [exact Hrun|].
  intros Hlong. rewrite Hrun. unfold lift. cbn [world].
  by rewrite verify_password_too_long.
Qed.

(** The world [_store_password] leaves when it returns. *)
Lemma store_password_world
      (file_name password password_file : str) (w w1 : World) (k c : bytes)
      (text : str) (fnb pw : bytes) :
  convert_load_key w = (Return k, w1) ->
  fernet_key_ok k = true ->
  fs w1 !! registry_path password_file = Some c ->
  stored_text k c = Some text ->
  encode_utf8 file_name = Some fnb ->
  encode_utf8 password = Some pw ->
  let wA := after_read k c w1 in
  let data := registry_lines text ++ [file_name ++ TAB :: hash_in wA pw] in
  exists plain : bytes,
    encode_utf8 (registry_text data) = Some plain /\ plain <> [] /\
    let wC := with_file (registry_path password_file) plain (consumed 60 wA) in
    _store_password file_name password password_file w =
      (Return tt,
       with_event (EvThread "gdrive.save_file"
                            [password_file; lit "Password"; lit "Storage"])
         (with_file (registry_path password_file) (token_of k plain wC)
                    (encrypted k plain wC))).
Proof.
  intros Hk Hok Hf Ht Hfn Hpw wA data.
  destruct (convert_load_key_post _ _ _ Hk) as [Hck _].
  assert (HckA : convert_key wA = Some k)
    by (unfold wA, after_read; by case_bool_decide).
  assert (Henc : Forall encodable (registry_text data)).
  { apply registry_text_encodable. apply Forall_app. split.
    - apply registry_lines_encodable.
      unfold stored_text in Ht. case_bool_decide; [injection Ht as <-; constructor|].
      destruct (fernet_decrypt k c); [|discriminate]. by eapply decode_utf8_encodable.
    - constructor; [|constructor]. by eapply new_line_encodable. }
  apply encode_utf8_encodable in Henc as [plain Hplain].
  assert (Hne : plain <> []).
  { intros ->. apply encode_utf8_nil_inv in Hplain. unfold data in Hplain.
    rewrite registry_text_snoc in Hplain.
    apply app_eq_nil in Hplain as [_ Hx]. apply app_eq_nil in Hx as [_ Hx]. done. }
  exists plain. split; [done|]. split; [done|]. intros wC.
  destruct (read_registry_run password_file w w1 k c text) as (b & Hconv & Hb);
    try done.
  unfold _store_password. unfold bind at 1. rewrite Hconv.
  unfold bind at 1, bytes_decode. rewrite Hb. unfold ret at 1.
  unfold bind at 1. rewrite (get_password_hash_run wA password pw) by done.
  fold wA. fold (hash_in wA pw). fold data.
  unfold bind at 1. fold (registry_path password_file).
  rewrite (write_text_lines_run _ _ _ plain) by exact Hplain. fold wC.
  unfold bind at 1.
  rewrite (convert_encrypt _ _ _ wC wC k plain);
    [|apply write_storage_type|by apply convert_load_key_cached|done
     |cbn [wC with_file fs]; apply lookup_insert_eq|done].
  rewrite (bool_decide_eq_true_2 (lit "write" = lit "write")) by done.
  reflexivity.
Qed.

Lemma prompt_lines_registry_text (L : list str) (l : str) :
  Forall clean_line L -> clean_line l -> l <> [] ->
  prompt_lines (registry_text (L ++ [l])) = L ++ [l].
Proof.
  intros Hclean [Hl1 Hl2] Hl. unfold prompt_lines, raw_lines.
  rewrite registry_text_snoc.
  assert (rstrip (l ++ [NL]) = l) as Hr
    by (rewrite rstrip_snoc_drop by apply NL_isspace; done).
  rewrite rstrip_app_keep by (by rewrite Hr). rewrite Hr.
  rewrite split_registry_text; [|by eapply Forall_impl; [exact Hclean|intros ? []]|done].
  case_bool_decide as E; [|done].
  destruct L; cbn in E; [by injection E|]. by destruct L.
Qed.

(** X22. The password stored for a page opens it: after [_store_password]
    for a page (a name without tab or newline) and a password of at most
    1024 characters, [_prompt_password] for that page asks once and, given
    the same password, returns [True], whether or not the page had a record
    before. The lines the registry held, stripped, must each have a tab. *)
Theorem prompt_password_after_store
        (file_name password password_file : str) (w w1 : World) (k c : bytes)
        (text : str) (fnb pw : bytes) (rest : list str) (scr : list output) :
  convert_load_key w = (Return k, w1) ->
  fernet_key_ok k = true ->
  fs w1 !! registry_path password_file = Some c ->
  stored_text k c = Some text ->
  encode_utf8 file_name = Some fnb ->
  encode_utf8 password = Some pw ->
  TAB ∉ file_name -> NL ∉ file_name ->
  (length password <= 1024)%nat ->
  Forall (fun l => TAB ∈ l) (registry_lines text) ->
  exists w' w'' : World,
    _store_password file_name password password_file w = (Return tt, w') /\
    _prompt_password file_name password_file (mkConsole w' (password :: rest) scr)
      = (Value true,
         mkConsole w'' rest (scr ++ [PassPrompt (password_prompt file_name)])) /\
    fs w'' = fs w'.
Proof.
  intros Hk Hok Hf Ht Hfn Hpw Htab Hnl Hlen Hold.
  destruct (store_password_world file_name password password_file w w1 k c text fnb pw)
    as (plain & Hplain & Hne & Hrun); try done.
  cbn zeta in Hrun.
  set (wA := after_read k c w1) in *.
  set (h := hash_in wA pw) in *.
  set (data := registry_lines text ++ [file_name ++ TAB :: h]) in *.
  set (wC := with_file (registry_path password_file) plain (consumed 60 wA)) in *.
  set (c' := token_of k plain wC) in *.
  set (w' := with_event _ _) in Hrun.
  destruct (convert_load_key_post _ _ _ Hk) as [Hck _].
  assert (Hck' : convert_key w' = Some k).
  { unfold w', wC, wA, after_read. by case_bool_decide. }
  assert (Hf' : fs w' !! registry_path password_file = Some c')
    by (cbn [w' with_event with_file fs]; apply lookup_insert_eq).
  assert (Ht' : stored_text k c' = Some (registry_text data)).
  { unfold stored_text.
    rewrite bool_decide_eq_false_2 by apply fernet_token_nonempty.
    unfold c', token_of. rewrite fernet_decrypt_encrypt by done.
    by apply decode_encode_utf8. }
  assert (Hparse : parse_line (file_name ++ TAB :: h) = Some (file_name, h))
    by (apply parse_line_new; [done|apply hex_no_TAB|apply hex_rstrip]; apply hash_in_hex).
  exists w', (after_read k c' w'). split; [exact Hrun|]. split.
  - rewrite (prompt_password_record file_name password_file w' w' k c'
               (registry_text data) (registry_lines text) [] (file_name ++ TAB :: h) h
               password rest scr); try done.
    + unfold lift. cbn [world typed screen].
      rewrite (verify_password_run _ _ _ pw (salt_bytes wA)); try done.
      * unfold h, hash_in. rewrite hash_drop_64.
        by rewrite bool_decide_eq_true_2.
      * unfold h, hash_in. rewrite hash_take_64.
        apply encode_ascii_ascii, hex_all_ascii.
    + by apply convert_load_key_cached.
    + unfold data. apply prompt_lines_registry_text.
      * apply registry_lines_clean.
      * by apply new_line_clean.
      * by destruct file_name.
  - unfold after_read. by case_bool_decide.
Qed.

End prompt.

(** ** functions.py: [_store_password] when it fails *)

Lemma writelines_partial (path : str) (done_lines : list str) (l : str) (todo : list str) :
  forall (w : World) (old enc : bytes),
    fs w !! path = Some old ->
    encode_utf8 (concat done_lines) = Some enc ->
    encode_utf8 l = None ->
    writelines path (done_lines ++ l :: todo) w
      = (Raise UnicodeEncodeError, with_file path (old ++ enc) w).
Proof.
  induction done_lines as [|x done_lines IH]; intros w old enc Hold;
    cbn [concat writelines app].
  - intros [= <-] Hl. unfold bind, str_encode. rewrite Hl. unfold raise.
    rewrite app_nil_r. unfold with_file. destruct w; cbn in *. by rewrite insert_id.
  - intros (bx & br & Hx & Hr & ->)%encode_utf8_app_inv Hl.
    unfold bind at 1, str_encode. rewrite Hx. unfold ret at 1.
    unfold bind, append_file. rewrite Hold. cbn [default].
    rewrite (IH _ (old ++ bx) br); [|cbn [with_file fs]; apply lookup_insert_eq|done..].
    by rewrite with_file_with_file, app_assoc.
Qed.

Section store_fails.
Context {F : FernetOps} {H : HashOps} {FL : FernetLaws F} {HL : HashLaws H}.

Lemma convert_load_key_threads (w w1 : World) (k : bytes) :
  convert_load_key w = (Return k, w1) ->
  filter is_thread (trace w1) = filter is_thread (trace w).
Proof.
  rewrite convert_load_key_run.
  destruct (convert_key w); [by intros [= _ <-]|]. cbn zeta.
  destruct (fs w !! key_file); intros [= _ <-];
    cbn [with_key with_file consumed with_event trace];
    by rewrite filter_app, filter_cons, filter_nil, app_nil_r.
Qed.

(** X23. [_store_password] fails cleanly when the page name can be encoded:
    whatever it raises, the registry file is then as it was and no upload
    was started. *)
Theorem store_password_failure_keeps_registry
        (file_name password password_file : str) (w w' : World) (e : exn) :
  _store_password file_name password password_file w = (Raise e, w') ->
  Forall encodable file_name ->
  registry_path password_file <> key_file ->
  fs w' !! registry_path password_file = fs w !! registry_path password_file /\
  filter is_thread (trace w') = filter is_thread (trace w).
Proof.
  intros Hrun Hfn Hp. apply encode_utf8_encodable in Hfn as [fnb Hfn].
  destruct (convert_load_key_total w) as (k & w1 & Hk).
  rewrite <- (convert_load_key_frame w w1 k _ Hk Hp).
  rewrite <- (convert_load_key_threads w w1 k Hk).
  unfold _store_password in Hrun. unfold bind at 1 in Hrun.
  destruct (fernet_key_ok k) eqn:Hok.
  2: { rewrite (convert_bad_key _ _ _ _ w w1 k) in Hrun;
         [|apply decrypt_conversion_type|apply return_storage_type|done..].
       by injection Hrun as _ <-. }
  destruct (fs w1 !! registry_path password_file) as [c|] eqn:Hf.
  2: { rewrite (convert_missing_file _ _ _ _ w w1 k) in Hrun;
         [|apply decrypt_conversion_type|apply return_storage_type|done..].
       injection Hrun as _ <-. cbn [with_event fs trace]. split; [done|].
       by rewrite filter_app, filter_cons, filter_nil, app_nil_r. }
  assert (Hafter : fs (after_read k c w1) = fs w1 /\
                   filter is_thread (trace (after_read k c w1))
                   = filter is_thread (trace w1)).
  { unfold after_read. case_bool_decide; [done|]. cbn [with_event fs trace].
    split; [done|]. by rewrite filter_app, filter_cons, filter_nil, app_nil_r. }
  destruct Hafter as [Hfs Htr].
  destruct (stored_text k c) as [text|] eqn:Ht.
  2: { unfold stored_text in Ht. case_bool_decide as Hc; [discriminate|].
       destruct (fernet_decrypt k c) as [b|] eqn:Hd.
       - rewrite (convert_decrypt _ _ _ w w1 k c b) in Hrun;
           [|apply return_storage_type|done..].
         rewrite (bool_decide_eq_false_2 (lit "return" = lit "write")) in Hrun
           by (intros E; by apply lit_write_ne_return).
         unfold bind at 1, bytes_decode in Hrun. rewrite Ht in Hrun.
         injection Hrun as _ <-. cbn [with_event fs trace]. split; [done|].
         by rewrite filter_app, filter_cons, filter_nil, app_nil_r.
       - rewrite (convert_decrypt_invalid _ _ _ w w1 k c) in Hrun;
           [|apply return_storage_type|done..].
         injection Hrun as _ <-. cbn [with_event fs trace]. split; [done|].
         by rewrite filter_app, filter_cons, filter_nil, app_nil_r. }
  destruct (encode_utf8 password) as [pw|] eqn:Hpw.
  { destruct (store_password_run file_name password password_file w w1 k c text fnb pw)
      as (w'' & c' & Hrun' & _); try done.
    unfold _store_password in Hrun'. unfold bind at 1 in Hrun'. congruence. }
  destruct (read_registry_run password_file w w1 k c text) as (b & Hconv & Hb);
    try done.
  rewrite Hconv in Hrun. unfold bind at 1, bytes_decode in Hrun. rewrite Hb in Hrun.
  unfold ret at 1 in Hrun. unfold bind at 1 in Hrun.
  rewrite (get_password_hash_unencodable _ _ Hpw) in Hrun.
  injection Hrun as _ <-. cbn [consumed fs trace]. by rewrite Hfs, Htr.
Qed.

(** X24. When the page name cannot be encoded, [_store_password] raises
    [UnicodeEncodeError] while it writes the registry back: the file is left
    holding the lines read, in plain text and not encrypted. *)
Theorem store_password_unencodable_page
        (file_name password password_file : str) (w w1 : World) (k c : bytes)
        (text : str) (pw : bytes) :
  convert_load_key w = (Return k, w1) ->
  fernet_key_ok k = true ->
  fs w1 !! registry_path password_file = Some c ->
  stored_text k c = Some text ->
  encode_utf8 file_name = None ->
  encode_utf8 password = Some pw ->
  exists (w' : World) (plain : bytes),
    _store_password file_name password password_file w = (Raise UnicodeEncodeError, w') /\
    encode_utf8 (registry_text (registry_lines text)) = Some plain /\
    fs w' !! registry_path password_file = Some plain /\
    filter is_thread (trace w') = filter is_thread (trace w).
Proof.
  intros Hk Hok Hf Ht Hfn Hpw.
  assert (Henc : Forall encodable (registry_text (registry_lines text))).
  { apply registry_text_encodable, registry_lines_encodable.
    unfold stored_text in Ht. case_bool_decide; [injection Ht as <-; constructor|].
    destruct (fernet_decrypt k c); [|discriminate]. by eapply decode_utf8_encodable. }
  apply encode_utf8_encodable in Henc as [plain Hplain].
  destruct (read_registry_run password_file w w1 k c text) as (b & Hconv & Hb);
    try done.
  set (wA := after_read k c w1).
  set (path := registry_path password_file).
  exists (with_file path plain (consumed 60 wA)), plain.
  split; [|split; [done|split]].
  - unfold _store_password. unfold bind at 1. rewrite Hconv.
    unfold bind at 1, bytes_decode. rewrite Hb. unfold ret at 1.
    unfold bind at 1. rewrite (get_password_hash_run wA password pw) by done.
    unfold bind at 1. fold path. unfold write_text_lines, bind at 1, write_file.
    rewrite fmap_app. cbn [fmap list_fmap].
    rewrite (writelines_partial path _ _ [] _ [] plain);
      [|cbn [with_file fs]; apply lookup_insert_eq|exact Hplain|].
    + by rewrite with_file_with_file.
    + match goal with |- encode_utf8 ?t = None => destruct (encode_utf8 t) eqn:E end;
        [|done].
      apply encode_utf8_app_inv in E as (? & ? & E & _ & _).
      apply encode_utf8_app_inv in E as (? & ? & E & _ & _). congruence.
  - cbn [with_file fs]. apply lookup_insert_eq.
  - cbn [with_file consumed trace]. rewrite <- (convert_load_key_threads w w1 k Hk).
    unfold wA, after_read. case_bool_decide; [done|]. cbn [with_event trace].
    by rewrite filter_app, filter_cons, filter_nil, app_nil_r.
Qed.

End store_fails.

(** ** A page in a session: [convert] around the note functions *)

Section session.
Context {F : FernetOps} {FL : FernetLaws F}.

(** X25. The way [list_notes] adds a note: the page is decrypted in place,
    [add_note] appends to the plain text, the page is encrypted in place.
    The page then holds a token of the old plaintext followed by the note
    and a newline. *)
Theorem session_add_note
        (file_name file_path note : str) (w w1 : World) (k c d b : bytes)
        (rest : list str) (scr : list output) :
  convert_load_key w = (Return k, w1) ->
  fernet_key_ok k = true ->
  let p := os_path_join file_path file_name in
  fs w1 !! p = Some c ->
  page_plaintext k c = Some d ->
  encode_utf8 note = Some b ->
  exists (r : option bytes) (w2 w3 w4 : World) (c' : bytes),
    convert file_name (lit "decrypt") file_path (lit "write") w = (Return r, w2) /\
    fs w2 !! p = Some d /\
    add_note p None (mkConsole w2 (note :: rest) scr)
      = (Value tt, mkConsole w3 rest (scr ++ [Prompt (lit "Enter note to add" ++ [NL])])) /\
    fs w3 !! p = Some (d ++ b ++ [x0a]) /\
    convert file_name (lit "encrypt") file_path (lit "write") w3 = (Return None, w4) /\
    fs w4 !! p = Some c' /\
    c' <> [] /\
    page_plaintext k c' = Some (d ++ b ++ [x0a]).
Proof.
  intros Hk Hok p Hf Hd Hb.
  destruct (convert_load_key_post _ _ _ Hk) as [Hck _].
  assert (Hdec : exists r w2,
             convert file_name (lit "decrypt") file_path (lit "write") w = (Return r, w2) /\
             fs w2 !! p = Some d /\ convert_key w2 = Some k).
  { unfold page_plaintext in Hd. case_bool_decide as Hc.
    - injection Hd as <-. subst c. exists (Some []), w1.
      split; [|done].
      apply (convert_empty _ _ _ _ w w1 k);
        [apply decrypt_conversion_type|apply write_storage_type|done..].
    - exists None, (with_file p d (with_event (EvFernetDecrypt k c) w1)).
      split; [|split; [cbn [with_file fs]; apply lookup_insert_eq|done]].
      rewrite (convert_decrypt _ _ _ w w1 k c d); [|apply write_storage_type|done..].
      by rewrite (bool_decide_eq_true_2 (lit "write" = lit "write")). }
  destruct Hdec as (r & w2 & Hconv & Hf2 & Hck2).
  assert (Henc : encode_utf8 (note ++ [NL]) = Some (b ++ [x0a]))
    by (by apply (encode_utf8_app note [NL] b [x0a])).
  set (plain := d ++ b ++ [x0a]).
  set (w3 := with_file p plain w2).
  assert (Hne : plain <> []).
  { unfold plain. intros E. apply app_eq_nil in E as [_ E].
    apply app_eq_nil in E as [_ E]. done. }
  exists r, w2, w3, (with_file p (token_of k plain w3) (encrypted k plain w3)),
    (token_of k plain w3).
  split; [exact Hconv|]. split; [exact Hf2|]. split.
  { unfold add_note, io_bind, input, lift. cbn [typed world screen].
    rewrite (append_text_run _ _ _ _ Henc). by rewrite Hf2. }
  split; [cbn [w3 with_file fs]; apply lookup_insert_eq|]. split.
  { rewrite (convert_encrypt _ _ _ w3 w3 k plain);
      [|apply write_storage_type|by apply convert_load_key_cached|done
       |cbn [w3 with_file fs]; apply lookup_insert_eq|done].
    by rewrite (bool_decide_eq_true_2 (lit "write" = lit "write")). }
  split; [cbn [with_file fs]; apply lookup_insert_eq|].
  split; [apply fernet_token_nonempty|].
  unfold page_plaintext.
  rewrite bool_decide_eq_false_2 by apply fernet_token_nonempty.
  unfold token_of. by apply fernet_decrypt_encrypt.
Qed.

Lemma with_file_comm (p q : str) (a b : bytes) (w : World) :
  p <> q -> with_file p a (with_file q b w) = with_file q b (with_file p a w).
Proof.
  intros Hpq. unfold with_file. cbn [fs convert_key entropy entropy_pos now trace].
  by rewrite insert_insert_ne.
Qed.

(** X26. Once a key is loaded, [convert] works with it and does not look at
    the key file again: with another content in the key file it returns
    the same and leaves the same files, the key file apart. *)
Theorem convert_uses_loaded_key
        (file_name ct file_path st : str) (w : World) (k x : bytes) :
  convert_key w = Some k ->
  os_path_join file_path file_name <> key_file ->
  convert file_name ct file_path st (with_file key_file x w)
    = (fst (convert file_name ct file_path st w),
       with_file key_file x (snd (convert file_name ct file_path st w))).
Proof.
  intros Hck Hp.
  set (p := os_path_join file_path file_name) in *.
  set (wx := with_file key_file x w).
  destruct (decide (ct ∈ conversion_types)) as [Hct|Hct].
  2: { unfold convert. by rewrite (bool_decide_eq_false_2 _ Hct). }
  destruct (decide (st ∈ storage_types)) as [Hst|Hst].
  2: { unfold convert. rewrite (bool_decide_eq_true_2 _ Hct).
       by rewrite (bool_decide_eq_false_2 _ Hst). }
  pose proof (convert_load_key_cached w k Hck) as Hk.
  pose proof (convert_load_key_cached wx k Hck) as Hkx.
  assert (Hfx : fs wx !! p = fs w !! p)
    by (cbn [wx with_file fs]; by rewrite lookup_insert_ne).
  destruct (fernet_key_ok k) eqn:Hok.
  2: { by rewrite (convert_bad_key _ _ _ _ w w k), (convert_bad_key _ _ _ _ wx wx k). }
  destruct (fs w !! p) as [d|] eqn:Hf.
  2: { by rewrite (convert_missing_file _ _ _ _ w w k),
         (convert_missing_file _ _ _ _ wx wx k) by (done || congruence). }
  destruct (decide (d = [])) as [->|Hd].
  { by rewrite (convert_empty _ _ _ _ w w k), (convert_empty _ _ _ _ wx wx k)
      by (done || congruence). }
  assert (ct = lit "encrypt" \/ ct = lit "decrypt") as [-> | ->]
    by (unfold conversion_types in Hct; rewrite !elem_of_cons, elem_of_nil in Hct; tauto).
  - rewrite (convert_encrypt _ _ _ w w k d), (convert_encrypt _ _ _ wx wx k d)
      by (done || congruence).
    case_bool_decide; cbn [fst snd]; [|done].
    fold p. by rewrite <- with_file_comm by done.
  - destruct (fernet_decrypt k d) as [y|] eqn:Hy.
    + rewrite (convert_decrypt _ _ _ w w k d y), (convert_decrypt _ _ _ wx wx k d y)
        by (done || congruence).
      case_bool_decide; cbn [fst snd]; [|done].
      fold p. by rewrite <- with_file_comm by done.
    + by rewrite (convert_decrypt_invalid _ _ _ w w k d),
        (convert_decrypt_invalid _ _ _ wx wx k d) by (done || congruence).
Qed.

End session.

(** ** More runs on the reference instance *)

Lemma convert_unsupported_argument_witness :
  (lit "compress" ∉ conversion_types) /\
  exists msg : string,
    convert (lit "n.txt") (lit "compress") (lit "Storage") (lit "write") fresh_world
      = (Raise (ValueError msg), fresh_world).
Proof.
  assert (Hct : lit "compress" ∉ conversion_types).
  { unfold conversion_types. rewrite !not_elem_of_cons.
    repeat split; [vm_compute; discriminate..|apply not_elem_of_nil]. }
  split; [exact Hct|].
  apply (convert_unsupported_argument (lit "n.txt") (lit "compress") (lit "Storage")
           (lit "write") fresh_world).
  left. exact Hct.
Defined.

Lemma convert_frame_witness :
  fs (snd (convert (lit "n.txt") (lit "encrypt") (lit "Storage") (lit "write")
                   (with_file (lit "Storage/m.txt") (blit "eggs") fresh_world)))
    !! lit "Storage/m.txt" = Some (blit "eggs").
Proof.
  rewrite (convert_frame (lit "n.txt") (lit "encrypt") (lit "Storage")
             (lit "write") (with_file (lit "Storage/m.txt") (blit "eggs") fresh_world)
             (lit "Storage/m.txt")).
  - reflexivity.
  - vm_compute. discriminate.
  - right. vm_compute. discriminate.
Defined.




Lemma verify_password_true_inv_witness :
  exists h : str,
    verify_password (lit "first") h ref_world = (Return true, ref_world) /\
    length h = 192%nat.
Proof.
  exists (hash_in ref_world (blit "first")).
  assert (Hv : verify_password (lit "first") (hash_in ref_world (blit "first")) ref_world
               = (Return true, ref_world)) by (vm_compute; reflexivity).
  split; [exact Hv|].
  exact (proj1 (proj2 (verify_password_true_inv (HL := ref_hash_laws) _ _ _ _ Hv))).
Defined.

(** A character that does not occur in a word of the runs. *)
Ltac not_in_word :=
  let Hin := fresh "Hin" in
  intros Hin; vm_compute in Hin;
  repeat (apply elem_of_cons in Hin as [Hin|Hin]; [discriminate Hin|]);
  by apply elem_of_nil in Hin.

Ltac word_encodable :=
  apply encode_utf8_encodable; eexists; vm_compute; reflexivity.

Lemma delete_note_deletes_witness :
  exists enc : bytes,
    delete_note ref_int (lit "Storage/todo.txt") (mkConsole page_world [lit "0"] [])
      = (Value tt,
         mkConsole (with_file (lit "Storage/todo.txt") enc page_world) []
                   [Prompt (lit "Enter a number to delete" ++ [NL])]) /\
    read_text_lines (lit "Storage/todo.txt") (with_file (lit "Storage/todo.txt") enc page_world)
      = (Return [lit "eggs" ++ [NL]], with_file (lit "Storage/todo.txt") enc page_world).
Proof.
  destruct (delete_note_deletes ref_int (lit "Storage/todo.txt") page_world
              [lit "milk" ++ [NL]; lit "eggs" ++ [NL]] (lit "0") 0 [] [])
    as (enc & Hrun & Hread); [reflexivity|reflexivity|cbn; lia|].
  exists enc. split; [exact Hrun|exact Hread].
Defined.

Lemma change_note_changes_witness :
  exists enc : bytes,
    change_note ref_int (lit "Storage/todo.txt")
                (mkConsole page_world [lit "1"; lit "bread"] [])
      = (Value tt,
         mkConsole (with_file (lit "Storage/todo.txt") enc page_world) []
                   [Prompt (lit "Enter a number to change" ++ [NL]);
                    Prompt (lit "Enter replacement message" ++ [NL])]) /\
    read_text_lines (lit "Storage/todo.txt") (with_file (lit "Storage/todo.txt") enc page_world)
      = (Return [lit "milk" ++ [NL]; lit "bread" ++ [NL]],
         with_file (lit "Storage/todo.txt") enc page_world).
Proof.
  destruct (change_note_changes ref_int (lit "Storage/todo.txt") page_world
              [lit "milk" ++ [NL]; lit "eggs" ++ [NL]] (lit "1") (lit "bread") 1 [] [])
    as (enc & Hrun & Hread);
    [reflexivity|reflexivity|cbn; lia|word_encodable|not_in_word|not_in_word|].
  exists enc. split; [exact Hrun|exact Hread].
Defined.

Lemma insert_note_inserts_witness :
  exists enc : bytes,
    insert_note ref_int (lit "Storage/todo.txt")
                (mkConsole page_world [lit "1"; lit "bread"] [])
      = (Value tt,
         mkConsole (with_file (lit "Storage/todo.txt") enc page_world) []
                   [Prompt (lit "Enter a number to insert" ++ [NL]);
                    Prompt (lit "Enter a message to insert" ++ [NL])]) /\
    read_text_lines (lit "Storage/todo.txt") (with_file (lit "Storage/todo.txt") enc page_world)
      = (Return [lit "milk" ++ [NL]; lit "bread" ++ [NL]; lit "eggs" ++ [NL]],
         with_file (lit "Storage/todo.txt") enc page_world).
Proof.
  destruct (insert_note_inserts ref_int (lit "Storage/todo.txt") page_world
              [lit "milk" ++ [NL]; lit "eggs" ++ [NL]] (lit "1") (lit "bread") 1 [] [])
    as (enc & notes' & Hrun & Hread & -> & _);
    [reflexivity|reflexivity|cbn; lia|word_encodable|not_in_word|not_in_word|].
  exists enc. split; [exact Hrun|exact Hread].
Defined.

Lemma note_number_not_a_number_witness :
  ref_int (lit "two") = None /\
  delete_note ref_int (lit "Storage/none.txt") (mkConsole ref_world [lit "two"] [])
    = (Value tt,
       mkConsole ref_world []
                 [Prompt (lit "Enter a number to delete" ++ [NL]);
                  Printed (lit "Enter a note number")]).
Proof.
  split; [reflexivity|].
  exact (proj1 (note_number_not_a_number ref_int (lit "Storage/none.txt") ref_world
                  (lit "two") [] [] eq_refl)).
Defined.

Lemma note_number_out_of_range_witness :
  ref_int (lit "2") = Some 2%Z /\
  insert_note ref_int (lit "Storage/todo.txt") (mkConsole page_world [lit "2"; lit "bread"] [])
    = (Value tt,
       mkConsole page_world [lit "bread"]
                 [Prompt (lit "Enter a number to insert" ++ [NL]);
                  Printed (lit "invalid number")]).
Proof.
  split; [reflexivity|].
  refine (proj2 (proj2 (note_number_out_of_range ref_int (lit "Storage/todo.txt") page_world
                          [lit "milk" ++ [NL]; lit "eggs" ++ [NL]] (lit "2") 2
                          [lit "bread"] [] eq_refl eq_refl _))).
  cbn. lia.
Defined.

Lemma insert_then_delete_witness :
  exists c1 c2 : Console,
    insert_note ref_int (lit "Storage/todo.txt")
                (mkConsole page_world [lit "0"; lit "bread"; lit "0"] []) = (Value tt, c1) /\
    delete_note ref_int (lit "Storage/todo.txt") c1 = (Value tt, c2) /\
    read_text_lines (lit "Storage/todo.txt") (world c2)
      = (Return [lit "milk" ++ [NL]; lit "eggs" ++ [NL]], world c2).
Proof.
  destruct (insert_then_delete ref_int (lit "Storage/todo.txt") page_world
              [lit "milk" ++ [NL]; lit "eggs" ++ [NL]] (lit "0") (lit "bread") 0 [] [])
    as (c1 & c2 & Hins & Hdel & _ & Hread & _);
    [reflexivity|reflexivity|cbn; lia|word_encodable|not_in_word|not_in_word|].
  exists c1, c2. split; [exact Hins|]. split; [exact Hdel|exact Hread].
Defined.

Lemma add_note_appends_witness :
  add_note (lit "Storage/todo.txt") None (mkConsole page_world [lit "bread"] [])
    = (Value tt,
       mkConsole (with_file (lit "Storage/todo.txt")
                    (blit "milk" ++ x0a :: blit "eggs" ++ x0a :: blit "bread" ++ [x0a])
                    page_world)
                 [] [Prompt (lit "Enter note to add" ++ [NL])]).
Proof.
  exact (proj1 (add_note_appends (lit "Storage/todo.txt") page_world (lit "bread")
                  (blit "bread") [] [] eq_refl)).
Defined.

Lemma prompt_password_unprotected_witness :
  _prompt_password (lit "b.txt") password_txt (mkConsole registry_world1 [lit "x"] [])
    = (Value true,
       mkConsole (after_read ref_key
                    (default [] (fs registry_world1 !! registry_path password_txt))
                    registry_world1)
                 [lit "x"] []).
Proof.
  apply (prompt_password_unprotected (lit "b.txt") password_txt
           registry_world1 registry_world1 ref_key
           (default [] (fs registry_world1 !! registry_path password_txt))
           (default [] (stored_text ref_key
              (default [] (fs registry_world1 !! registry_path password_txt)))));
    [reflexivity|reflexivity|reflexivity|vm_compute; reflexivity|].
  apply (bool_decide_unpack _). vm_compute. exact I.
Defined.

Lemma prompt_password_tab_in_name_witness :
  _prompt_password (lit "a" ++ TAB :: lit "b.txt") password_txt
                   (mkConsole registry_world1 [lit "x"] [])
    = (Value true,
       mkConsole (after_read ref_key
                    (default [] (fs registry_world1 !! registry_path password_txt))
                    registry_world1)
                 [lit "x"] []).
Proof.
  apply (prompt_password_tab_in_name (lit "a" ++ TAB :: lit "b.txt") password_txt
           registry_world1 registry_world1 ref_key
           (default [] (fs registry_world1 !! registry_path password_txt))
           (default [] (stored_text ref_key
              (default [] (fs registry_world1 !! registry_path password_txt)))));
    [reflexivity|reflexivity|reflexivity|vm_compute; reflexivity| |].
  - apply (bool_decide_unpack _). vm_compute. exact I.
  - apply (bool_decide_unpack _). vm_compute. exact I.
Defined.

Lemma prompt_password_malformed_line_witness :
  fst (_prompt_password (lit "a.txt") password_txt
                        (mkConsole malformed_registry_world [lit "x"] []))
    = Raised IndexError.
Proof.
  rewrite (prompt_password_malformed_line (lit "a.txt") password_txt
             malformed_registry_world malformed_registry_world ref_key
             (x80 :: ref_key ++ blit "oops") (lit "oops") (lit "oops") [lit "x"] []);
    [reflexivity|reflexivity|reflexivity|reflexivity|vm_compute; reflexivity| |].
  - apply (bool_decide_unpack _). vm_compute. exact I.
  - apply (bool_decide_unpack _). vm_compute. exact I.
Defined.

Lemma prompt_password_last_record_witness :
  fst (_prompt_password (lit "a.txt") password_txt
                        (mkConsole registry_world2 [lit "second"] [])) = Value true /\
  fst (_prompt_password (lit "a.txt") password_txt
                        (mkConsole registry_world2 [lit "first"] [])) = Value false.
Proof.
  pose (c := default [] (fs registry_world2 !! registry_path password_txt)).
  pose (text := default [] (stored_text ref_key c)).
  pose (line := default [] (prompt_lines text !! 1%nat)).
  pose (stored := default [] (snd <$> parse_line line)).
  assert (Hlines : prompt_lines text = take 1 (prompt_lines text) ++ [line] ++ [])
    by (vm_compute; reflexivity).
  assert (Hbefore : Forall (fun l => TAB ∈ l) (take 1 (prompt_lines text)))
    by (apply (bool_decide_unpack _); vm_compute; exact I).
  assert (Hline : parse_line line = Some (lit "a.txt", stored))
    by (vm_compute; reflexivity).
  split.
  - destruct (prompt_password_last_record (lit "a.txt") password_txt
                registry_world2 registry_world2 ref_key c text
                (take 1 (prompt_lines text)) [] line stored (lit "second") [] [])
      as [Hrun _];
      [reflexivity|reflexivity|reflexivity|vm_compute; reflexivity
      |exact Hlines|exact Hbefore|exact Hline|constructor|].
    rewrite Hrun. vm_compute. reflexivity.
  - destruct (prompt_password_last_record (lit "a.txt") password_txt
                registry_world2 registry_world2 ref_key c text
                (take 1 (prompt_lines text)) [] line stored (lit "first") [] [])
      as [Hrun _];
      [reflexivity|reflexivity|reflexivity|vm_compute; reflexivity
      |exact Hlines|exact Hbefore|exact Hline|constructor|].
    rewrite Hrun. vm_compute. reflexivity.
Defined.

Lemma prompt_password_after_store_witness :
  exists w' w'' : World,
    _store_password (lit "a.txt") (lit "first") password_txt registry_world0
      = (Return tt, w') /\
    _prompt_password (lit "a.txt") password_txt (mkConsole w' [lit "first"] [])
      = (Value true, mkConsole w'' [] [PassPrompt (password_prompt (lit "a.txt"))]).
Proof.
  destruct (prompt_password_after_store (FL := ref_fernet_laws)
              (lit "a.txt") (lit "first") password_txt registry_world0 registry_world0
              ref_key [] [] (blit "a.txt") (blit "first") [] [])
    as (w' & w'' & Hstore & Hprompt & _);
    [reflexivity|reflexivity|reflexivity|reflexivity|reflexivity|reflexivity
    |not_in_word|not_in_word|cbn; lia|constructor|].
  exists w', w''. split; [exact Hstore|exact Hprompt].
Defined.

Lemma store_password_failure_keeps_registry_witness :
  fst (_store_password (lit "a.txt") (lit "first") password_txt junk_registry_world)
    = Raise InvalidToken /\
  fs (snd (_store_password (lit "a.txt") (lit "first") password_txt junk_registry_world))
    !! registry_path password_txt = Some (blit "junk").
Proof.
  split; [reflexivity|].
  destruct (store_password_failure_keeps_registry (FL := ref_fernet_laws)
              (lit "a.txt") (lit "first") password_txt junk_registry_world
              (snd (_store_password (lit "a.txt") (lit "first") password_txt
                                    junk_registry_world))
              InvalidToken) as [Hfile _];
    [reflexivity|word_encodable|intros E; vm_compute in E; discriminate E|].
  rewrite Hfile. reflexivity.
Defined.

Lemma store_password_unencodable_page_witness :
  encode_utf8 [0xD800] = None /\
  exists (w' : World) (plain : bytes),
    _store_password [0xD800] (lit "pw") password_txt registry_world1
      = (Raise UnicodeEncodeError, w') /\
    fs w' !! registry_path password_txt = Some plain /\
    take 6 plain = blit "a.txt" ++ [x09].
Proof.
  split; [reflexivity|].
  destruct (store_password_unencodable_page
              [0xD800] (lit "pw") password_txt registry_world1 registry_world1 ref_key
              (default [] (fs registry_world1 !! registry_path password_txt))
              (default [] (stored_text ref_key
                 (default [] (fs registry_world1 !! registry_path password_txt))))
              (blit "pw"))
    as (w' & plain & Hrun & Hplain & Hfile & _);
    [reflexivity|reflexivity|reflexivity|vm_compute; reflexivity|reflexivity|reflexivity|].
  exists w', plain. split; [exact Hrun|]. split; [exact Hfile|].
  vm_compute in Hplain. injection Hplain as <-. reflexivity.
Defined.

Lemma session_add_note_witness :
  exists (w4 : World) (c' : bytes),
    fs w4 !! lit "Storage/n.txt" = Some c' /\
    page_plaintext ref_key c' = Some (blit "eggs" ++ x0a :: blit "bread" ++ [x0a]).
Proof.
  destruct (session_add_note (FL := ref_fernet_laws)
              (lit "n.txt") (lit "Storage") (lit "bread") token_world token_world ref_key
              (x80 :: ref_key ++ blit "eggs" ++ [x0a]) (blit "eggs" ++ [x0a]) (blit "bread")
              [] [])
    as (r & w2 & w3 & w4 & c' & _ & _ & _ & _ & _ & Hfile & _ & Hplain);
    [reflexivity|reflexivity|reflexivity|vm_compute; reflexivity|reflexivity|].
  exists w4, c'. split; [exact Hfile|]. rewrite Hplain. reflexivity.
Defined.

Lemma convert_uses_loaded_key_witness :
  convert (lit "n.txt") (lit "encrypt") (lit "Storage") (lit "return")
          (with_file key_file (blit "another key") (note_world (blit "milk")))
    = (Return (Some (x80 :: ref_key ++ blit "milk")),
       with_file key_file (blit "another key")
         (snd (convert (lit "n.txt") (lit "encrypt") (lit "Storage") (lit "return")
                       (note_world (blit "milk"))))).
Proof.
  rewrite (convert_uses_loaded_key (lit "n.txt") (lit "encrypt") (lit "Storage")
             (lit "return") (note_world (blit "milk")) ref_key (blit "another key")
             eq_refl ltac:(intros E; vm_compute in E; discriminate E)).
  reflexivity.
Defined.

Module gdrive_more_runs.
Import gdrive gdrive_more.

Lemma upload_file_single_call_witness :
  attempts (snd (_upload_file refusing ref_rand ref_json_loads ref_py_repr ref_isfile
                              (lit "a.txt") None None (Some (blit "data")) drive0)) = 1%nat.
Proof.
  refine (proj1 (upload_file_single_call refusing ref_rand ref_json_loads ref_py_repr
                   ref_isfile (lit "a.txt") None None (Some (blit "data")) ref_request
                   drive0 eq_refl _)).
  intros (e & He & Hst). injection He as <-.
  unfold retryable_statuses in Hst. cbn [status] in Hst.
  rewrite !elem_of_cons, elem_of_nil in Hst.
  destruct Hst as [?|[?|[?|[?|[?|[]]]]]]; discriminate.
Defined.

Lemma upload_file_created_after_witness :
  _upload_file flaky2 ref_rand ref_json_loads ref_py_repr ref_isfile
               (lit "a.txt") None None (Some (blit "data")) drive0
    = (Ok tt, mkDrive 3 2 [backoff ref_rand 1 0; backoff ref_rand 2 1] []).
Proof.
  rewrite (upload_file_created_after flaky2 ref_rand ref_json_loads ref_py_repr ref_isfile
             (lit "a.txt") None None (Some (blit "data")) ref_request drive0 2
             (lit "id-1") (lit "a.txt")).
  - reflexivity.
  - reflexivity.
  - unfold max_tries. lia.
  - intros i Hi. cbn [attempts drive0 Nat.add]. unfold flaky2.
    destruct (Nat.ltb_spec i 2); [|lia]. apply gdrive_runs.unavailable_transient.
  - reflexivity.
Defined.

Lemma upload_file_raises_witness :
  _upload_file (failing_with (EHttp (mkHttpError 404 (Some (lit "text/html")) [])))
               ref_rand ref_json_loads ref_py_repr ref_isfile
               (lit "a.txt") None None (Some (blit "data")) drive0
    = (Err (EHttp (mkHttpError 404 (Some (lit "text/html")) [])),
       mkDrive 3 2 [backoff ref_rand 1 0; backoff ref_rand 2 1] []).
Proof.
  rewrite (upload_file_raises (failing_with (EHttp (mkHttpError 404 (Some (lit "text/html")) [])))
             ref_rand ref_json_loads ref_py_repr ref_isfile
             (lit "a.txt") None None (Some (blit "data")) ref_request drive0 2
             (EHttp (mkHttpError 404 (Some (lit "text/html")) []))).
  - reflexivity.
  - reflexivity.
  - unfold max_tries. lia.
  - intros i Hi. cbn [attempts drive0 Nat.add]. unfold failing_with.
    destruct (Nat.ltb_spec i 2); [|lia]. apply gdrive_runs.unavailable_transient.
  - right. eexists. split; [reflexivity|]. split.
    + cbn [status]. unfold retryable_statuses. rewrite !not_elem_of_cons.
      repeat split; try done. apply not_elem_of_nil.
    + left. split; reflexivity.
Defined.

End gdrive_more_runs.
